(** * resticserver: the restic REST backend as a WSGI application

    A shallow embedding of [src/resticserver.py].  The development has
    four layers:

    - Python values the program manipulates: [str] (8-bit characters, the
      way a WSGI server hands over [PATH_INFO], [QUERY_STRING] and header
      values), [bytes], unbounded integers, and the two compiled patterns
      [PATH_RE] and [RANGE_RE] run by a backtracking matcher;
    - the operating-system interface the handlers call ([os.path.exists],
      [os.stat], [os.listdir], [os.mkdir], [open], [os.unlink],
      [shutil.rmtree]) over a tree of files, directories and symbolic links;
    - the generator functions of [class Application], written in a small
      monad that threads the file system and the request body, records the
      calls of [start_response] and the yielded chunks, and propagates
      exceptions;
    - [Application.__iter__] and the server loop that drives the returned
      generator. *)

From Stdlib Require Import ZArith Ascii String List Lia DecimalString.
From stdpp Require Import base option list strings gmap.

Local Open Scope string_scope.
Local Open Scope list_scope.
Local Open Scope Z_scope.

(** ** Python [str] helpers *)

Module Str.

Definition quote : ascii := ascii_of_nat 34.
Definition backslash : ascii := ascii_of_nat 92.
Definition newline : ascii := ascii_of_nat 10.

(** [s.startswith(p)] *)
Fixpoint startswith (p s : string) : bool :=
    match p with
    | EmptyString => true
    | String a p' =>
        match s with
        | EmptyString => false
        | String b s' => if Ascii.eqb a b then startswith p' s' else false
        end
    end.

(** [s[n:]] and [s[:n]] for a non-negative [n]. *)
Fixpoint drop (n : nat) (s : string) : string :=
    match n, s with
    | O, _ => s
    | S n', String _ s' => drop n' s'
    | S _, EmptyString => EmptyString
    end.

Fixpoint take (n : nat) (s : string) : string :=
    match n, s with
    | O, _ => EmptyString
    | S n', String c s' => String c (take n' s')
    | S _, EmptyString => EmptyString
    end.

Fixpoint last (s : string) : option ascii :=
    match s with
    | EmptyString => None
    | String c EmptyString => Some c
    | String _ s' => last s'
    end.

Fixpoint all (p : ascii -> bool) (s : string) : bool :=
    match s with
    | EmptyString => true
    | String c s' => p c && all p s'
    end.

Definition nonempty (s : string) : bool :=
    match s with EmptyString => false | _ => true end.

(** [s.split(sep)] for a one-character separator: the pieces between
      occurrences of [sep], empty pieces included. *)
Fixpoint split_aux (sep : ascii) (cur : string) (s : string) : list string :=
    match s with
    | EmptyString => [String.rev cur]
    | String c s' =>
        if Ascii.eqb c sep then String.rev cur :: split_aux sep EmptyString s'
        else split_aux sep (String c cur) s'
    end.

Definition split (sep : ascii) (s : string) : list string :=
    split_aux sep EmptyString s.

End Str.

(** ** Regular expressions

    The fragment of Python's [re] syntax that the two patterns use, with the
    semantics of the backtracking engine: alternatives are tried left to
    right, [?] and [+] are greedy, a named group records the text it
    matched, and a group that did not take part in the match is unset
    ([match.group] returns [None]). *)

Module Re.

Inductive regex : Type :=
  | Bol                                (* ^ *)
  | Eol                                (* $ *)
  | Lit (s : string)                   (* literal text *)
  | PlusCls (p : ascii -> bool)        (* [class]+ *)
  | Opt (r : regex)                    (* r? *)
  | Alt (r1 r2 : regex)                (* r1|r2 *)
  | Seq (r1 r2 : regex)                (* r1r2 *)
  | Group (name : string) (r : regex). (* (?P<name>r) *)

(** Captured groups, most recent binding first. *)
Definition captures := list (string * string).

Fixpoint group (caps : captures) (name : string) : option string :=
    match caps with
    | [] => None
    | (n, v) :: caps' => if String.eqb n name then Some v else group caps' name
    end.

(** A continuation receives the position reached, the text still to be
      matched and the groups captured so far. *)
Definition cont := nat -> string -> captures -> option captures.

(** Greedy [+] over a character class: the longest run is tried first,
      then shorter and shorter ones, down to one character. *)
Fixpoint plus (p : ascii -> bool) (pos : nat) (s : string)
           (k : nat -> string -> option captures) : option captures :=
    match s with
    | EmptyString => None
    | String c s' =>
        if p c then
          match plus p (S pos) s' k with
          | Some r => Some r
          | None => k (S pos) s'
          end
        else None
    end.

Fixpoint run (r : regex) (pos : nat) (s : string) (caps : captures)
           (k : cont) : option captures :=
    match r with
    | Bol => if Nat.eqb pos 0 then k pos s caps else None
    | Eol =>
        (* without re.MULTILINE, $ matches at the end of the text and just
           before a newline that ends the text *)
        match s with
        | EmptyString => k pos s caps
        | String c EmptyString =>
            if Ascii.eqb c Str.newline then k pos s caps else None
        | _ => None
        end
    | Lit l =>
        if Str.startswith l s
        then k (pos + String.length l)%nat (Str.drop (String.length l) s) caps
        else None
    | PlusCls p => plus p pos s (fun pos' s' => k pos' s' caps)
    | Opt r' =>
        match run r' pos s caps k with
        | Some c => Some c
        | None => k pos s caps
        end
    | Alt r1 r2 =>
        match run r1 pos s caps k with
        | Some c => Some c
        | None => run r2 pos s caps k
        end
    | Seq r1 r2 =>
        run r1 pos s caps (fun pos' s' caps' => run r2 pos' s' caps' k)
    | Group name r' =>
        run r' pos s caps
            (fun pos' s' caps' =>
               k pos' s' ((name, Str.take (pos' - pos) s) :: caps'))
    end.

(** [pattern.match(s)]: the match is anchored at position 0 and need not
      reach the end of [s]. *)
Definition rmatch (r : regex) (s : string) : option captures :=
    run r 0 s [] (fun _ _ caps => Some caps).

End Re.

Import Re.

Declare Scope re_scope.
Delimit Scope re_scope with re.
Infix "+>" := Seq (at level 65, right associativity) : re_scope.
Infix "<|" := Alt (at level 67, right associativity) : re_scope.

(** ** Module constants *)

Definition READ_BYTES : Z := 8192.

Definition RESTIC_TYPES : list string :=
  ["data"; "keys"; "locks"; "snapshots"; "index"; "config"].

Definition slash : ascii := ascii_of_nat 47.

Definition not_slash (c : ascii) : bool := negb (Ascii.eqb c slash).

(** [\d] on a string of 8-bit characters: the ten ASCII digits (no other
    character below 256 is a Unicode decimal digit). *)
Definition is_digit (c : ascii) : bool :=
  let n := nat_of_ascii c in (48 <=? n)%nat && (n <=? 57)%nat.

(** [r'^/?(?P<path>[^/]+)/?(?P<type>data|keys|locks|snapshots|index|config)?/?(?P<name>[^/]+)?/?$'] *)
Definition PATH_RE : regex :=
  (Bol +> Opt (Lit "/") +> Group "path" (PlusCls not_slash) +> Opt (Lit "/") +>
   Opt (Group "type" (Lit "data" <| Lit "keys" <| Lit "locks" <|
                      Lit "snapshots" <| Lit "index" <| Lit "config")) +>
   Opt (Lit "/") +> Opt (Group "name" (PlusCls not_slash)) +>
   Opt (Lit "/") +> Eol)%re.

(** [r'^bytes=(?P<start>\d+)-(?P<end>\d+)?'] *)
Definition RANGE_RE : regex :=
  (Bol +> Lit "bytes=" +> Group "start" (PlusCls is_digit) +> Lit "-" +>
   Opt (Group "end" (PlusCls is_digit)))%re.

(** ** Exceptions and results

      [OutOfFuel] is not a Python exception: it marks the bound that the
      model puts on the iterations of a [while True] loop.  The handlers give
      their loops a bound that the loops cannot reach. *)

Inductive exn : Type :=
  | KeyError (key : string)
  | TypeError
  | Exception (msg : string)
  | FileNotFoundError
  | NotADirectoryError
  | IsADirectoryError
  | FileExistsError
  | OSError
  | AssertionError
  | OutOfFuel.

Inductive result (A : Type) : Type :=
  | Ok (a : A)
  | Raise (e : exn).
Arguments Ok {A} a.
Arguments Raise {A} e.

Definition bytes := list Byte.byte.

(** ** The WSGI environment

    [environ] is a dictionary; the keys the application looks at are fields
    here, and a key that the server left out is [None]: [environ['K']]
    ([getitem]) raises [KeyError] on it, [environ.get('K')] returns [None].
    The body behind ['wsgi.input'] is the sequence of bytes still unread. *)

Record wsgi_environ : Type := {
  REQUEST_METHOD : option string;
  PATH_INFO : option string;
  QUERY_STRING : option string;
  HTTP_RANGE : option string;
  wsgi_input : bytes
  }.

Definition getitem (key : string) (v : option string) : result string :=
  match v with
  | Some s => Ok s
  | None => Raise (KeyError key)
  end.

(** [ROOT_PATH] is [config.ROOT_PATH] at construction; the tests assign the
      attribute afterwards. *)
Record Application : Type := {
    environ : wsgi_environ;
    ROOT_PATH : string
  }.

(** [Application.get_path]: the path, the type if any, and the name if any;
    [(None, None, None)] when [PATH_INFO] does not match [PATH_RE]. *)
Definition get_path (self : Application)
  : result (option string * option string * option string) :=
  match getitem "PATH_INFO" (PATH_INFO (environ self)) with
  | Raise e => Raise e
  | Ok path_info =>
      match rmatch PATH_RE path_info with
      | Some m =>
          let path := group m "path" in
          let restic_type := group m "type" in
          let name := group m "name" in
          Ok (path, restic_type, name)
      | None => Ok (None, None, None)
      end
  end.

(** A request as the tests build it: method, path, query string, optional
    Range header and body. *)
Definition request (method path_info query : string) (range : option string)
           (body : bytes) : wsgi_environ :=
  {| REQUEST_METHOD := Some method; PATH_INFO := Some path_info;
     QUERY_STRING := Some query; HTTP_RANGE := range; wsgi_input := body |}.

(** ** More of Python's built-ins and standard library *)

(** [str(n)] for an integer. *)
Definition str_of_int (n : Z) : string :=
  DecimalString.NilZero.string_of_int (Z.to_int n).

(** [int(s)] for a string of ASCII digits, which is what [\d+] matched. *)
Definition int_of_digits (s : string) : Z :=
  fold_left (fun acc c => 10 * acc + (Z.of_nat (nat_of_ascii c) - 48))
            (list_ascii_of_string s) 0.

(** [s.encode('utf-8')] for a string of 8-bit characters: one byte below
    128, two bytes from 128 on. *)
Definition encode_char (c : ascii) : bytes :=
  let n := N_of_ascii c in
  if (n <? 128)%N then [byte_of_ascii c]
  else [byte_of_ascii (ascii_of_N (192 + n / 64));
        byte_of_ascii (ascii_of_N (128 + n mod 64))].

Definition encode_utf8 (s : string) : bytes :=
  flat_map encode_char (list_ascii_of_string s).

(** [len(b)] *)
Definition len (b : bytes) : Z := Z.of_nat (length b).

(** [b[:n]]: a negative bound counts from the end. *)
Definition slice_to (b : bytes) (n : Z) : bytes :=
  if n <? 0 then take (Z.to_nat (len b + n)) b else take (Z.to_nat n) b.

(** [posixpath.join(a, *p)]: a component that starts with a slash discards
    what precedes it; a slash is inserted unless the path so far is empty
    or ends with one. *)
Definition join2 (path b : string) : string :=
  if Str.startswith "/" b then b
  else match Str.last path with
       | None => path +:+ b
       | Some c => if Ascii.eqb c slash then path +:+ b
                   else path +:+ "/" +:+ b
       end.

Definition os_path_join (a : string) (p : list string) : string :=
  fold_left join2 p a.

(** *** [urllib.parse.parse_qs]

    The query string is cut at every [&]; a field without [=] or with an
    empty value is dropped ([keep_blank_values] is off); in the name and in
    the value [+] becomes a space and [%XX] the character with that code.
    Characters are 8-bit here, where Python goes on to decode the result as
    UTF-8; the two agree on whether a name or a value equals an ASCII
    literal, which is all [__iter__] asks. *)

Definition hex_val (c : ascii) : option N :=
  let n := N_of_ascii c in
  if ((48 <=? n) && (n <=? 57))%N then Some (n - 48)%N
  else if ((65 <=? n) && (n <=? 70))%N then Some (n - 55)%N
  else if ((97 <=? n) && (n <=? 102))%N then Some (n - 87)%N
  else None.

Definition hex_pair (h l : ascii) : option ascii :=
  match hex_val h, hex_val l with
  | Some a, Some b => Some (ascii_of_N (16 * a + b))
  | _, _ => None
  end.

Fixpoint unquote (s : string) : string :=
  match s with
  | EmptyString => EmptyString
  | String c s' =>
      match s' with
      | String h (String l s'') =>
          match (if Ascii.eqb c "%" then hex_pair h l else None) with
          | Some d => String d (unquote s'')
          | None => String c (unquote s')
          end
      | _ => String c (unquote s')
      end
  end.

Fixpoint replace_plus (s : string) : string :=
  match s with
  | EmptyString => EmptyString
  | String c s' => String (if Ascii.eqb c "+" then " "%char else c) (replace_plus s')
  end.

(** [name_value.split('=', 1)] when the field has an [=]. *)
Fixpoint split_eq (acc : string) (s : string) : option (string * string) :=
  match s with
  | EmptyString => None
  | String c s' =>
      if Ascii.eqb c "=" then Some (String.rev acc, s')
      else split_eq (String c acc) s'
  end.

Definition parse_qsl (qs : string) : list (string * string) :=
  flat_map
    (fun name_value =>
       match split_eq EmptyString name_value with
       | Some (n, v) =>
           if Str.nonempty v
           then [(unquote (replace_plus n), unquote (replace_plus v))]
           else []
       | None => []
       end)
    (Str.split "&" qs).

(** [parse_qs(qs).get(key, [])] *)
Definition parse_qs_get (qs key : string) : list string :=
  flat_map (fun nv => if String.eqb (fst nv) key then [snd nv] else [])
           (parse_qsl qs).

(** [x in l] for a list of strings. *)
Definition str_in (x : string) (l : list string) : bool :=
  existsb (String.eqb x) l.

(** *** [json.dumps] of a list of [{'name': ..., 'size': ...}] dictionaries *)

Definition hex_digit (n : N) : ascii :=
  if (n <? 10)%N then ascii_of_N (48 + n) else ascii_of_N (87 + n).

(** One character of a JSON string with [ensure_ascii]: quote and backslash
    are escaped, the usual control characters have short forms, and
    whatever else lies outside the printable ASCII range becomes [\u00xx]. *)
Definition json_escape_char (c : ascii) : string :=
  let n := N_of_ascii c in
  let esc (d : ascii) := String Str.backslash (String d EmptyString) in
  if Ascii.eqb c Str.quote then esc Str.quote
  else if Ascii.eqb c Str.backslash then esc Str.backslash
  else if (n =? 10)%N then esc "n"%char
  else if (n =? 13)%N then esc "r"%char
  else if (n =? 9)%N then esc "t"%char
  else if (n =? 8)%N then esc "b"%char
  else if (n =? 12)%N then esc "f"%char
  else if ((32 <=? n) && (n <=? 126))%N then String c EmptyString
  else String Str.backslash
         ("u00" +:+ String (hex_digit (n / 16))
                      (String (hex_digit (n mod 16)) EmptyString)).

Fixpoint json_escape (s : string) : string :=
  match s with
  | EmptyString => EmptyString
  | String c s' => json_escape_char c +:+ json_escape s'
  end.

Definition json_string (s : string) : string :=
  String Str.quote (json_escape s +:+ String Str.quote EmptyString).

Definition json_entry (e : string * Z) : string :=
  "{" +:+ json_string "name" +:+ ": " +:+ json_string (fst e) +:+ ", "
      +:+ json_string "size" +:+ ": " +:+ str_of_int (snd e) +:+ "}".

Fixpoint json_items (l : list (string * Z)) : string :=
  match l with
  | [] => EmptyString
  | [e] => json_entry e
  | e :: l' => json_entry e +:+ ", " +:+ json_items l'
  end.

Definition json_dumps (results : list (string * Z)) : string :=
  "[" +:+ json_items results +:+ "]".

(** ** The operating system

    The file system is a finite map from canonical absolute paths (the names
    from the root down) to nodes; the root itself is a directory.  A path
    given to a system call is a string: it is cut at the slashes, starts at
    the root or at the working directory, and is resolved name by name, a
    symbolic link being replaced by its target (an absolute path) at most
    [MAXSYMLINKS] times.  Permissions are not modelled: every call the
    process makes is allowed.  A trailing slash is ignored. *)

Module Os.

Inductive node : Type :=
| File (data : bytes)
| Dir
| Symlink (target : list string).

Record filesystem : Type := {
  tree : gmap (list string) node;
  cwd : list string
}.

Definition node_at (t : gmap (list string) node) (p : list string) : option node :=
  match p with
  | [] => Some Dir
  | _ => t !! p
  end.

Definition components (p : string) : list string :=
  List.filter Str.nonempty (Str.split slash p).

Definition MAXSYMLINKS : nat := 40.

(** Resolution of the names [rest] from the directory [cur].  The result is
    the canonical path of the object named; the object itself may be
    missing, but then its parent is a directory.  With [follow] off, a
    symbolic link in last position is the object named. *)
Fixpoint walk (t : gmap (list string) node) (follow : bool) (links : nat)
         {struct links} : list string -> list string -> result (list string) :=
  fix go (cur rest : list string) {struct rest} : result (list string) :=
    match rest with
    | [] => Ok cur
    | c :: rest' =>
        match node_at t cur with
        | Some Dir =>
            if String.eqb c "." then go cur rest'
            else if String.eqb c ".." then go (removelast cur) rest'
            else
              match t !! (cur ++ [c]) with
              | Some (Symlink target) =>
                  if follow || negb (bool_decide (rest' = [])) then
                    match links with
                    | O => Raise OSError
                    | S links' => walk t follow links' [] (target ++ rest')
                    end
                  else Ok (cur ++ [c])
              | Some _ => go (cur ++ [c]) rest'
              | None =>
                  match rest' with
                  | [] => Ok (cur ++ [c])
                  | _ => Raise FileNotFoundError
                  end
              end
        | Some _ => Raise NotADirectoryError
        | None => Raise FileNotFoundError
        end
    end.

Definition resolve (fs : filesystem) (follow : bool) (p : string)
  : result (list string) :=
  match p with
  | EmptyString => Raise FileNotFoundError
  | _ => walk (tree fs) follow MAXSYMLINKS
              (if Str.startswith "/" p then [] else cwd fs) (components p)
  end.

(** *** [os.stat] and [os.path.exists] *)

Inductive file_type : Type := S_IFREG | S_IFDIR | S_IFLNK.

Record stat_result : Type := { st_mode : file_type; st_size : Z }.

Definition S_ISREG (m : file_type) : bool :=
  match m with S_IFREG => true | _ => false end.

(** The size a directory reports is the file system's business; no handler
    looks at it. *)
Definition DIR_SIZE : Z := 4096.

Definition stat_node (n : node) : stat_result :=
  match n with
  | File data => {| st_mode := S_IFREG; st_size := len data |}
  | Dir => {| st_mode := S_IFDIR; st_size := DIR_SIZE |}
  | Symlink target => {| st_mode := S_IFLNK; st_size := Z.of_nat (length target) |}
  end.

(** [os.stat(p)] follows symbolic links. *)
Definition stat (fs : filesystem) (p : string) : result stat_result :=
  match resolve fs true p with
  | Raise e => Raise e
  | Ok loc =>
      match node_at (tree fs) loc with
      | Some n => Ok (stat_node n)
      | None => Raise FileNotFoundError
      end
  end.

(** [os.path.exists(p)]: whether [os.stat(p)] succeeds. *)
Definition path_exists (fs : filesystem) (p : string) : bool :=
  match stat fs p with
  | Ok _ => true
  | Raise _ => false
  end.

(** *** [os.listdir] *)

(** The name [n] when [k] is the path [d ++ [n]] of an entry of [d]. *)
Fixpoint child_name (d k : list string) : option string :=
  match d, k with
  | [], [n] => Some n
  | a :: d', b :: k' => if String.eqb a b then child_name d' k' else None
  | _, _ => None
  end.

Definition children (t : gmap (list string) node) (d : list string) : list string :=
  omap (fun kv => child_name d (fst kv)) (map_to_list t).

Definition listdir (fs : filesystem) (p : string) : result (list string) :=
  match resolve fs true p with
  | Raise e => Raise e
  | Ok loc =>
      match node_at (tree fs) loc with
      | Some Dir => Ok (children (tree fs) loc)
      | Some _ => Raise NotADirectoryError
      | None => Raise FileNotFoundError
      end
  end.

(** *** [os.mkdir] *)

Definition set_tree (fs : filesystem) (t : gmap (list string) node) : filesystem :=
  {| tree := t; cwd := cwd fs |}.

Definition mkdir (fs : filesystem) (p : string) : result filesystem :=
  match resolve fs false p with
  | Raise e => Raise e
  | Ok loc =>
      match node_at (tree fs) loc with
      | Some _ => Raise FileExistsError
      | None => Ok (set_tree fs (<[loc := Dir]> (tree fs)))
      end
  end.

(** *** [open(p, 'rb')] and [open(p, 'wb')]

    Opening for reading hands over the content; opening for writing creates
    or truncates the file and hands over where it is, for [file_write] to
    append to. *)

Definition open_rb (fs : filesystem) (p : string) : result bytes :=
  match resolve fs true p with
  | Raise e => Raise e
  | Ok loc =>
      match node_at (tree fs) loc with
      | Some (File data) => Ok data
      | Some _ => Raise IsADirectoryError
      | None => Raise FileNotFoundError
      end
  end.

Definition open_wb (fs : filesystem) (p : string)
  : result (list string * filesystem) :=
  match resolve fs true p with
  | Raise e => Raise e
  | Ok loc =>
      match node_at (tree fs) loc with
      | Some (File _) | None => Ok (loc, set_tree fs (<[loc := File []]> (tree fs)))
      | Some _ => Raise IsADirectoryError
      end
  end.

Definition file_write (fs : filesystem) (loc : list string) (data : bytes)
  : filesystem :=
  match tree fs !! loc with
  | Some (File old) => set_tree fs (<[loc := File (old ++ data)]> (tree fs))
  | _ => fs
  end.

(** [in_file.seek(pos)] then [in_file.read(n)] on a file of content [data]:
    at most [n] bytes from offset [pos]. *)
Definition file_read (data : bytes) (pos n : Z) : bytes :=
  take (Z.to_nat n) (drop (Z.to_nat pos) data).

(** *** [os.unlink] and [shutil.rmtree] *)

Definition unlink (fs : filesystem) (p : string) : result filesystem :=
  match resolve fs false p with
  | Raise e => Raise e
  | Ok loc =>
      match node_at (tree fs) loc with
      | Some Dir => Raise IsADirectoryError
      | Some _ => Ok (set_tree fs (delete loc (tree fs)))
      | None => Raise FileNotFoundError
      end
  end.

(** [shutil.rmtree(p)] refuses a symbolic link, and removes a directory
    with everything below it. *)
Definition rmtree (fs : filesystem) (p : string) : result filesystem :=
  match resolve fs false p with
  | Raise e => Raise e
  | Ok loc =>
      match node_at (tree fs) loc with
      | Some Dir =>
          match loc with
          | [] => Raise OSError
          | _ => Ok (set_tree fs (filter (fun kv => ¬ loc `prefix_of` fst kv) (tree fs)))
          end
      | Some (File _) => Raise NotADirectoryError
      | Some (Symlink _) => Raise OSError
      | None => Raise FileNotFoundError
      end
  end.

(** The path [p] leads to a regular file of content [data]. *)
Definition holds (fs : filesystem) (p : string) (data : bytes) : Prop :=
  exists loc, resolve fs true p = Ok loc /\ node_at (tree fs) loc = Some (File data).

End Os.

(** ** Generator functions

    A handler of [class Application] is a generator function: its body runs
    when the server asks for the chunks of the response.  A body is a
    computation in [gen]: it reads and changes the file system, consumes
    the request body, calls [start_response], yields chunks, and may raise.
    The trace lists the calls of [start_response] and the yields in the
    order they happen. *)

Inductive event : Type :=
| StartResponse (status : string) (headers : list (string * string))
| Yield (chunk : bytes).

Record state : Type := {
  fs : Os.filesystem;
  input : bytes;              (* what is left to read from wsgi.input *)
  headers_set : bool          (* start_response has been called *)
}.

Record outcome (A : Type) : Type := {
  trace : list event;
  final : state;
  value : result A
}.
Arguments trace {A} o.
Arguments final {A} o.
Arguments value {A} o.

Definition gen (A : Type) : Type := state -> outcome A.

Definition ret {A} (a : A) : gen A :=
  fun s => {| trace := []; final := s; value := Ok a |}.

Definition raise {A} (e : exn) : gen A :=
  fun s => {| trace := []; final := s; value := Raise e |}.

Definition bind {A B} (m : gen A) (f : A -> gen B) : gen B :=
  fun s =>
    let o := m s in
    match value o with
    | Ok a =>
        let o' := f a (final o) in
        {| trace := trace o ++ trace o'; final := final o'; value := value o' |}
    | Raise e => {| trace := trace o; final := final o; value := Raise e |}
    end.

(** [try: m  except: handler]: what [m] did before it raised stays done. *)
Definition try_except {A} (m : gen A) (handler : exn -> gen A) : gen A :=
  fun s =>
    let o := m s in
    match value o with
    | Ok a => o
    | Raise e =>
        let o' := handler e (final o) in
        {| trace := trace o ++ trace o'; final := final o'; value := value o' |}
    end.

Declare Scope gen_scope.
Delimit Scope gen_scope with gen.
Notation "x <- m ;; k" := (bind m (fun x => k))
  (at level 100, m at next level, right associativity) : gen_scope.
Notation "m ;; k" := (bind m (fun _ => k))
  (at level 100, right associativity) : gen_scope.
Local Open Scope gen_scope.

Definition lift {A} (r : result A) : gen A :=
  match r with
  | Ok a => ret a
  | Raise e => raise e
  end.

Definition yield (chunk : bytes) : gen unit :=
  fun s => {| trace := [Yield chunk]; final := s; value := Ok tt |}.

(** The callable the server passes in.  PEP 3333 makes a second call
    without [exc_info] an error; waitress, the server of [__main__], raises
    [AssertionError] on it. *)
Definition start_response (status : string) (headers : list (string * string))
  : gen unit :=
  fun s =>
    if headers_set s
    then {| trace := []; final := s; value := Raise AssertionError |}
    else {| trace := [StartResponse status headers];
            final := {| fs := fs s; input := input s; headers_set := true |};
            value := Ok tt |}.

(** [self.environ['wsgi.input'].read(n)] *)
Definition input_read (n : Z) : gen bytes :=
  fun s =>
    {| trace := [];
       final := {| fs := fs s; input := drop (Z.to_nat n) (input s);
                   headers_set := headers_set s |};
       value := Ok (take (Z.to_nat n) (input s)) |}.

Definition input_left : gen bytes :=
  fun s => {| trace := []; final := s; value := Ok (input s) |}.

(** System calls that only look at the file system ... *)
Definition os_get {A} (f : Os.filesystem -> result A) : gen A :=
  fun s => {| trace := []; final := s; value := f (fs s) |}.

(** ... and system calls that change it. *)
Definition os_put {A} (f : Os.filesystem -> result (A * Os.filesystem)) : gen A :=
  fun s =>
    match f (fs s) with
    | Ok (a, fs') =>
        {| trace := [];
           final := {| fs := fs'; input := input s; headers_set := headers_set s |};
           value := Ok a |}
    | Raise e => {| trace := []; final := s; value := Raise e |}
    end.

Definition unit_result (r : result Os.filesystem) : result (unit * Os.filesystem) :=
  match r with
  | Ok fs' => Ok (tt, fs')
  | Raise e => Raise e
  end.

Definition os_path_exists (p : string) : gen bool :=
  os_get (fun fs => Ok (Os.path_exists fs p)).
Definition os_stat (p : string) : gen Os.stat_result :=
  os_get (fun fs => Os.stat fs p).
Definition os_listdir (p : string) : gen (list string) :=
  os_get (fun fs => Os.listdir fs p).
Definition os_mkdir (p : string) : gen unit :=
  os_put (fun fs => unit_result (Os.mkdir fs p)).
Definition os_unlink (p : string) : gen unit :=
  os_put (fun fs => unit_result (Os.unlink fs p)).
Definition shutil_rmtree (p : string) : gen unit :=
  os_put (fun fs => unit_result (Os.rmtree fs p)).
Definition open_rb (p : string) : gen bytes :=
  os_get (fun fs => Os.open_rb fs p).
Definition open_wb (p : string) : gen (list string) :=
  os_put (fun fs => Os.open_wb fs p).
Definition file_write (out_file : list string) (data : bytes) : gen unit :=
  os_put (fun fs => Ok (tt, Os.file_write fs out_file data)).

(** [for x in l: body x] *)
Fixpoint for_each {A} (l : list A) (body : A -> gen unit) : gen unit :=
  match l with
  | [] => ret tt
  | x :: l' => body x ;; for_each l' body
  end.

(** [for x in l: acc = body acc x] *)
Fixpoint for_fold {A B} (l : list A) (acc : B) (body : B -> A -> gen B) : gen B :=
  match l with
  | [] => ret acc
  | x :: l' => acc' <- body acc x ;; for_fold l' acc' body
  end.

(** The three [while True] loops.  Each turn that does not leave the loop
    takes at least one byte, so [bound] turns are enough when [bound]
    exceeds the number of bytes there are. *)

(** [data = wsgi.input.read(READ_BYTES); if not data: break;
     out_file.write(data)] *)
Fixpoint copy_input (bound : nat) (out_file : list string) : gen unit :=
  match bound with
  | O => raise OutOfFuel
  | S bound' =>
      data <- input_read READ_BYTES ;;
      match data with
      | [] => ret tt
      | _ => file_write out_file data ;; copy_input bound' out_file
      end
  end.

(** [data = in_file.read(READ_BYTES); if not data: break; yield data] *)
Fixpoint yield_file (bound : nat) (content : bytes) (pos : Z) : gen unit :=
  match bound with
  | O => raise OutOfFuel
  | S bound' =>
      let data := Os.file_read content pos READ_BYTES in
      match data with
      | [] => ret tt
      | _ => yield data ;; yield_file bound' content (pos + len data)
      end
  end.

(** The loop of the ranged read:
    [data = in_file.read(READ_BYTES)
     if not data or sent_length >= length: break
     if sent_length + len(data) > length: yield data[:length - sent_length]
     else: yield data
     sent_length += len(data)] *)
Fixpoint yield_range (bound : nat) (content : bytes) (pos sent_length length : Z)
  : gen unit :=
  match bound with
  | O => raise OutOfFuel
  | S bound' =>
      let data := Os.file_read content pos READ_BYTES in
      if bool_decide (data = []) || (sent_length >=? length) then ret tt
      else
        (if sent_length + len data >? length
         then yield (slice_to data (length - sent_length))
         else yield data) ;;
        yield_range bound' content (pos + len data) (sent_length + len data) length
  end.

(** ** [class Application] *)

Definition HTTP_RESPONSES : list (Z * string) :=
  [ (100, "100 CONTINUE"); (101, "101 SWITCHING_PROTOCOLS"); (102, "102 PROCESSING");
    (200, "200 OK"); (201, "201 CREATED"); (202, "202 ACCEPTED");
    (203, "203 NON_AUTHORITATIVE_INFORMATION"); (204, "204 NO_CONTENT");
    (205, "205 RESET_CONTENT"); (206, "206 PARTIAL_CONTENT"); (207, "207 MULTI_STATUS");
    (208, "208 ALREADY_REPORTED"); (226, "226 IM_USED"); (300, "300 MULTIPLE_CHOICES");
    (301, "301 MOVED_PERMANENTLY"); (302, "302 FOUND"); (303, "303 SEE_OTHER");
    (304, "304 NOT_MODIFIED"); (305, "305 USE_PROXY"); (307, "307 TEMPORARY_REDIRECT");
    (308, "308 PERMANENT_REDIRECT"); (400, "400 BAD_REQUEST"); (401, "401 UNAUTHORIZED");
    (402, "402 PAYMENT_REQUIRED"); (403, "403 FORBIDDEN"); (404, "404 NOT_FOUND");
    (405, "405 METHOD_NOT_ALLOWED"); (406, "406 NOT_ACCEPTABLE");
    (407, "407 PROXY_AUTHENTICATION_REQUIRED"); (408, "408 REQUEST_TIMEOUT");
    (409, "409 CONFLICT"); (410, "410 GONE"); (411, "411 LENGTH_REQUIRED");
    (412, "412 PRECONDITION_FAILED"); (413, "413 REQUEST_ENTITY_TOO_LARGE");
    (414, "414 REQUEST_URI_TOO_LONG"); (415, "415 UNSUPPORTED_MEDIA_TYPE");
    (416, "416 REQUESTED_RANGE_NOT_SATISFIABLE"); (417, "417 EXPECTATION_FAILED");
    (421, "421 MISDIRECTED_REQUEST"); (422, "422 UNPROCESSABLE_ENTITY"); (423, "423 LOCKED");
    (424, "424 FAILED_DEPENDENCY"); (426, "426 UPGRADE_REQUIRED");
    (428, "428 PRECONDITION_REQUIRED"); (429, "429 TOO_MANY_REQUESTS");
    (431, "431 REQUEST_HEADER_FIELDS_TOO_LARGE"); (500, "500 INTERNAL_SERVER_ERROR");
    (501, "501 NOT_IMPLEMENTED"); (502, "502 BAD_GATEWAY"); (503, "503 SERVICE_UNAVAILABLE");
    (504, "504 GATEWAY_TIMEOUT"); (505, "505 HTTP_VERSION_NOT_SUPPORTED");
    (506, "506 VARIANT_ALSO_NEGOTIATES"); (507, "507 INSUFFICIENT_STORAGE");
    (508, "508 LOOP_DETECTED"); (510, "510 NOT_EXTENDED");
    (511, "511 NETWORK_AUTHENTICATION_REQUIRED") ].

(** [HTTP_RESPONSES[code]]; every code the handlers use is in the table. *)
Definition http_response (code : Z) : string :=
  match List.find (fun kv => fst kv =? code) HTTP_RESPONSES with
  | Some kv => snd kv
  | None => EmptyString
  end.

(** The generator objects: a call of a generator function that has not
    started to run, with the arguments it was called with. *)
Inductive generator : Type :=
| Yield_error (message : string)
| Create_repository (path : option string)
| Delete_repository (path : string)
| Config_exists (path : string)
| Get_config (path : string)
| Set_config (path : string)
| Get_path_list (path restic_type : string)
| Get_path_check (path restic_type name : string)
| Get_path_data (path restic_type name : string)
| Set_path_data (path restic_type name : string)
| Delete_path_data (path restic_type name : string).

(** The decorator [valid_methods]: the wrapper checks the request method
    when the handler is called, and returns what the generator function
    returns, a generator that has not started. *)
Definition valid_methods (methods : list string) (self : Application)
           (g : generator) : result generator :=
  match getitem "REQUEST_METHOD" (REQUEST_METHOD (environ self)) with
  | Raise e => Raise e
  | Ok method =>
      if negb (str_in method methods) then Raise (Exception "Method not allowed")
      else Ok g
  end.

Definition send_error (message : string) : gen bytes :=
  start_response (http_response 500) [("Content-Type", "text/plain")] ;;
  ret (encode_utf8 message).

Definition yield_error_body (message : string) : gen unit :=
  start_response (http_response 500) [("Content-Type", "text/plain")] ;;
  yield (encode_utf8 message).

Definition send_not_found (message : string) : gen bytes :=
  start_response (http_response 404) [("Content-Type", "text/plain")] ;;
  ret (encode_utf8 message).

(** [os.path.join] raises [TypeError] on [None]. *)
Definition join_opt (a : string) (path : option string) : gen string :=
  match path with
  | Some p => ret (os_path_join a [p])
  | None => raise TypeError
  end.

(** The [try] block of [create_repository]:
    [os.mkdir(full_path)
     for restic_type in RESTIC_TYPES:
         if restic_type != 'config':
             os.mkdir(os.path.join(full_path, restic_type))] *)
Definition make_directories (full_path : string) : gen unit :=
  os_mkdir full_path ;;
  for_each RESTIC_TYPES
    (fun restic_type =>
       if negb (String.eqb restic_type "config")
       then os_mkdir (os_path_join full_path [restic_type])
       else ret tt).

Definition create_repository_body (self : Application) (path : option string)
  : gen unit :=
  full_path <- join_opt (ROOT_PATH self) path ;;
  found <- os_path_exists full_path ;;
  (if negb found then
     try_except
       (make_directories full_path)
       (fun _ =>
          message <- send_error "Failed to create repository." ;;
          yield message)
   else ret tt) ;;
  start_response (http_response 200) [] ;;
  yield [].

Definition delete_repository_body (self : Application) (path : string) : gen unit :=
  let full_path := os_path_join (ROOT_PATH self) [path] in
  found <- os_path_exists full_path ;;
  if found then
    shutil_rmtree full_path ;;
    start_response (http_response 200) [] ;;
    yield []
  else
    message <- send_error "Repository does not exist." ;;
    yield message.

Definition config_exists_body (self : Application) (path : string) : gen unit :=
  let full_path := os_path_join (ROOT_PATH self) [path; "config"] in
  found <- os_path_exists full_path ;;
  if found then
    stats <- os_stat full_path ;;
    start_response (http_response 200)
      [("Content-Type", "text/plain");
       ("Content-Length", str_of_int (Os.st_size stats))] ;;
    yield []
  else
    message <- send_error "Configuration does not exist." ;;
    yield message.

Definition get_config_body (self : Application) (path : string) : gen unit :=
  let full_path := os_path_join (ROOT_PATH self) [path; "config"] in
  found <- os_path_exists full_path ;;
  if found then
    stats <- os_stat full_path ;;
    start_response (http_response 200)
      [("Content-Type", "binary/octet-stream");
       ("Content-Length", str_of_int (Os.st_size stats))] ;;
    in_file <- open_rb full_path ;;
    yield_file (S (length in_file)) in_file 0
  else
    message <- send_error "Configuration does not exist." ;;
    yield message.

(** What [set_config] and [set_path_data] do with [full_path], in the same
    words:
    [with open(full_path, 'wb') as out_file:
         while True:
             data = self.environ['wsgi.input'].read(READ_BYTES)
             if not data: break
             out_file.write(data)
     self.start_response(HTTP_RESPONSES[200], [])
     yield b''] *)
Definition write_request_body (full_path : string) : gen unit :=
  out_file <- open_wb full_path ;;
  body <- input_left ;;
  copy_input (S (length body)) out_file ;;
  start_response (http_response 200) [] ;;
  yield [].

Definition set_config_body (self : Application) (path : string) : gen unit :=
  let full_path := os_path_join (ROOT_PATH self) [path; "config"] in
  write_request_body full_path.

(** The body of the two listing loops:
    [stats = os.stat(os.path.join(folder_path, name))
     if stat.S_ISREG(stats.st_mode):
         results.append({'name': name, 'size': stats.st_size})] *)
Definition list_entry (folder_path : string) (results : list (string * Z))
           (name : string) : gen (list (string * Z)) :=
  stats <- os_stat (os_path_join folder_path [name]) ;;
  if Os.S_ISREG (Os.st_mode stats)
  then ret (results ++ [(name, Os.st_size stats)])
  else ret results.

(** The list [results] that [get_path_list] builds. *)
Definition list_results (self : Application) (path restic_type : string)
  : gen (list (string * Z)) :=
  let full_path := os_path_join (ROOT_PATH self) [path; restic_type] in
  if String.eqb restic_type "data" then
    folders <- os_listdir full_path ;;
    for_fold folders []
      (fun results folder =>
         let folder_path := os_path_join full_path [folder] in
         names <- os_listdir folder_path ;;
         for_fold names results (list_entry folder_path))
  else
    names <- os_listdir full_path ;;
    for_fold names [] (list_entry full_path).

Definition get_path_list_body (self : Application) (path restic_type : string)
  : gen unit :=
  results <- list_results self path restic_type ;;
  start_response (http_response 200)
    [("Content-Type", "application/vnd.x.restic.rest.v2")] ;;
  yield (encode_utf8 (json_dumps results)).

Definition get_path_check_body (self : Application) (path restic_type name : string)
  : gen unit :=
  let full_path :=
    if String.eqb restic_type "data"
    then os_path_join (ROOT_PATH self) [path; restic_type; Str.take 2 name; name]
    else os_path_join (ROOT_PATH self) [path; restic_type; name] in
  found <- os_path_exists full_path ;;
  if found then
    stats <- os_stat full_path ;;
    start_response (http_response 200)
      [("Content-Type", "text/plain");
       ("Content-Length", str_of_int (Os.st_size stats))] ;;
    yield []
  else
    message <- send_not_found "Requested path data does not exist." ;;
    yield message.

(** The value of [end] once [if end: end = int(end)] has run: [None] when
    the group is unset, else the integer. *)
Definition range_end (m : captures) : option Z :=
  match group m "end" with
  | Some e => if Str.nonempty e then Some (int_of_digits e) else None
  | None => None
  end.

(** Python's truth value of [end]: [None] and [0] are false. *)
Definition truthy (v : option Z) : bool :=
  match v with
  | Some n => negb (n =? 0)
  | None => false
  end.

(** [range_match] as the two assignments leave it:
    [range_match = None
     if http_range: range_match = RANGE_RE.match(http_range)] *)
Definition range_match (http_range : option string) : option captures :=
  match http_range with
  | Some h => if Str.nonempty h then rmatch RANGE_RE h else None
  | None => None
  end.

(** [start = int(range_match.group('start'))] *)
Definition range_start (m : captures) : Z :=
  match group m "start" with
  | Some d => int_of_digits d
  | None => 0
  end.

(** [length = end - start + 1 if end else stats.st_size - start] *)
Definition range_length (m : captures) (st_size : Z) : Z :=
  let start := range_start m in
  let end_ := range_end m in
  if truthy end_
  then match end_ with Some e => e - start + 1 | None => 0 end
  else st_size - start.

(** ['bytes={}-{}'.format(start, end or '')] *)
Definition content_range (m : captures) : string :=
  let start := range_start m in
  let end_ := range_end m in
  "bytes=" +:+ str_of_int start +:+ "-" +:+
  (if truthy end_
   then match end_ with Some e => str_of_int e | None => EmptyString end
   else EmptyString).

Definition get_path_data_body (self : Application) (path restic_type name : string)
  : gen unit :=
  let full_path :=
    if String.eqb restic_type "data"
    then os_path_join (ROOT_PATH self) [path; restic_type; Str.take 2 name; name]
    else os_path_join (ROOT_PATH self) [path; restic_type; name] in
  found <- os_path_exists full_path ;;
  if found then
    stats <- os_stat full_path ;;
    let http_range := HTTP_RANGE (environ self) in
    match range_match http_range with
    | Some m =>
        let start := range_start m in
        let length_ := range_length m (Os.st_size stats) in
        start_response (http_response 206)
          [("Content-Type", "binary/octet-stream");
           ("Content-Length", str_of_int length_);
           ("Content-Range", content_range m)] ;;
        in_file <- open_rb full_path ;;
        yield_range (S (length in_file)) in_file start 0 length_
    | None =>
        start_response (http_response 200)
          [("Content-Type", "binary/octet-stream");
           ("Content-Length", str_of_int (Os.st_size stats))] ;;
        in_file <- open_rb full_path ;;
        yield_file (S (length in_file)) in_file 0
    end
  else
    message <- send_not_found "Requested path data does not exist." ;;
    yield message.

Definition set_path_data_body (self : Application) (path restic_type name : string)
  : gen unit :=
  full_path <-
    (if String.eqb restic_type "data" then
       let shard := os_path_join (ROOT_PATH self) [path; restic_type; Str.take 2 name] in
       found <- os_path_exists shard ;;
       (if negb found then os_mkdir shard else ret tt) ;;
       ret (os_path_join (ROOT_PATH self) [path; restic_type; Str.take 2 name; name])
     else
       ret (os_path_join (ROOT_PATH self) [path; restic_type; name])) ;;
  write_request_body full_path.

Definition delete_path_data_body (self : Application) (path restic_type name : string)
  : gen unit :=
  let full_path :=
    if String.eqb restic_type "data"
    then os_path_join (ROOT_PATH self) [path; restic_type; Str.take 2 name; name]
    else os_path_join (ROOT_PATH self) [path; restic_type; name] in
  found <- os_path_exists full_path ;;
  if found then
    os_unlink full_path ;;
    start_response (http_response 200) [] ;;
    yield []
  else
    message <- send_error "Path data does not exist." ;;
    yield message.

(** Running a generator to exhaustion. *)
Definition body (self : Application) (g : generator) : gen unit :=
  match g with
  | Yield_error message => yield_error_body message
  | Create_repository path => create_repository_body self path
  | Delete_repository path => delete_repository_body self path
  | Config_exists path => config_exists_body self path
  | Get_config path => get_config_body self path
  | Set_config path => set_config_body self path
  | Get_path_list path restic_type => get_path_list_body self path restic_type
  | Get_path_check path restic_type name => get_path_check_body self path restic_type name
  | Get_path_data path restic_type name => get_path_data_body self path restic_type name
  | Set_path_data path restic_type name => set_path_data_body self path restic_type name
  | Delete_path_data path restic_type name => delete_path_data_body self path restic_type name
  end.

(** The decorated methods, as [__iter__] calls them. *)
Definition create_repository (self : Application) (path : option string) :=
  valid_methods ["POST"] self (Create_repository path).
Definition delete_repository (self : Application) (path : string) :=
  valid_methods ["DELETE"] self (Delete_repository path).
Definition config_exists (self : Application) (path : string) :=
  valid_methods ["HEAD"] self (Config_exists path).
Definition get_config (self : Application) (path : string) :=
  valid_methods ["GET"] self (Get_config path).
Definition set_config (self : Application) (path : string) :=
  valid_methods ["POST"] self (Set_config path).
Definition get_path_list (self : Application) (path restic_type : string) :=
  valid_methods ["GET"] self (Get_path_list path restic_type).
Definition get_path_check (self : Application) (path restic_type name : string) :=
  valid_methods ["HEAD"] self (Get_path_check path restic_type name).
Definition get_path_data (self : Application) (path restic_type name : string) :=
  valid_methods ["GET"] self (Get_path_data path restic_type name).
Definition set_path_data (self : Application) (path restic_type name : string) :=
  valid_methods ["POST"] self (Set_path_data path restic_type name).
Definition delete_path_data (self : Application) (path restic_type name : string) :=
  valid_methods ["DELETE"] self (Delete_path_data path restic_type name).

(** [yield_error] is an undecorated generator function. *)
Definition yield_error (message : string) : result generator :=
  Ok (Yield_error message).

Definition is_None {A} (v : option A) : bool :=
  match v with None => true | Some _ => false end.

Definition rbind {A B} (r : result A) (f : A -> result B) : result B :=
  match r with
  | Ok a => f a
  | Raise e => Raise e
  end.

(** The [try] block of [__iter__].  Each branch is one [if]/[elif] of the
    source, in its order; a test on [restic_type] or [name] that the source
    writes with [is None] / [is not None] is a [match] here, and where two
    branches share the test [path is not None and restic_type is not None]
    they share the [match]. *)
Definition dispatch (self : Application) : result generator :=
  rbind (getitem "REQUEST_METHOD" (REQUEST_METHOD (environ self))) (fun _ =>
  rbind (get_path self) (fun parsed =>
  let '(path, restic_type, name) := parsed in
  rbind (getitem "QUERY_STRING" (QUERY_STRING (environ self))) (fun query_string =>
  let create := str_in "true" (parse_qs_get query_string "create") in
  rbind (getitem "REQUEST_METHOD" (REQUEST_METHOD (environ self))) (fun method =>
  if String.eqb method "GET" then
    match path, restic_type with
    | Some path, Some restic_type =>
        if String.eqb restic_type "config" then get_config self path
        else
          match name with
          | None => get_path_list self path restic_type
          | Some name => get_path_data self path restic_type name
          end
    | _, _ => yield_error "Not Implemented"
    end
  else if String.eqb method "POST" then
    if create && is_None restic_type && is_None name
    then create_repository self path
    else
      match path, restic_type with
      | Some path, Some restic_type =>
          if String.eqb restic_type "config" then set_config self path
          else
            match name with
            | Some name => set_path_data self path restic_type name
            | None => yield_error "Not Implemented"
            end
      | _, _ => yield_error "Not Implemented"
      end
  else if String.eqb method "DELETE" then
    match path, restic_type, name with
    | Some path, None, None => delete_repository self path
    | Some path, Some restic_type, Some name =>
        delete_path_data self path restic_type name
    | _, _, _ => yield_error "Not Implemented"
    end
  else if String.eqb method "HEAD" then
    match path, restic_type with
    | Some path, Some restic_type =>
        if String.eqb restic_type "config" then config_exists self path
        else
          match name with
          | Some name => get_path_check self path restic_type name
          | None => yield_error "Not Implemented"
          end
    | _, _ => yield_error "Not Implemented"
    end
  else yield_error "Unsupported request method.")))).

(** [Application.__iter__]: the [try] block, and the [except Exception]
    clause around it.  What it returns is the generator the server will
    run; the handler's body has not run yet when [__iter__] returns. *)
Definition __iter__ (self : Application) : generator :=
  match dispatch self with
  | Ok g => g
  | Raise _ => Yield_error "Something unexpected occurred."
  end.

(** ** The server

    The server calls the application, runs the generator it gets to the
    end, and sends what PEP 3333 says: the status and headers of the call
    of [start_response], then the chunks.  An exception that leaves the
    generator is a fault of the application that the server has to deal
    with. *)

Record response : Type := {
  status : option string;
  headers : list (string * string);
  content : bytes;
  fault : option exn
}.

Fixpoint first_start (tr : list event) : option (string * list (string * string)) :=
  match tr with
  | [] => None
  | StartResponse st hs :: _ => Some (st, hs)
  | Yield _ :: tr' => first_start tr'
  end.

Definition chunks (tr : list event) : bytes :=
  flat_map (fun ev => match ev with Yield c => c | StartResponse _ _ => [] end) tr.

Definition initial (self : Application) (files : Os.filesystem) : state :=
  {| fs := files; input := wsgi_input (environ self); headers_set := false |}.

(** [for chunk in Application(environ, start_response): ...] *)
Definition iterate (self : Application) (files : Os.filesystem) : outcome unit :=
  body self (__iter__ self) (initial self files).

Definition response_of (o : outcome unit) : response :=
  {| status := fst <$> first_start (trace o);
     headers := default [] (snd <$> first_start (trace o));
     content := chunks (trace o);
     fault := match value o with Ok _ => None | Raise e => Some e end |}.

Definition serve (self : Application) (files : Os.filesystem) : response :=
  response_of (iterate self files).

(** The file system the request leaves behind. *)
Definition files_after (self : Application) (files : Os.filesystem) : Os.filesystem :=
  fs (final (iterate self files)).

Definition application (root : string) (env : wsgi_environ) : Application :=
  {| environ := env; ROOT_PATH := root |}.

(** ** Vocabulary of the statements *)

(** A path segment: not empty, no slash. *)
Definition segment (s : string) : Prop :=
  Str.all not_slash s = true /\ s <> EmptyString.

(** The token that begins [b], if one does. *)
Definition token_prefix (b : string) : option string :=
  List.find (fun t => Str.startswith t b) RESTIC_TYPES.

(** Where [get_path_check], [get_path_data], [set_path_data] and
    [delete_path_data] look for a named blob. *)
Definition blob_path (root path restic_type name : string) : string :=
  if String.eqb restic_type "data"
  then os_path_join root [path; restic_type; Str.take 2 name; name]
  else os_path_join root [path; restic_type; name].

(** The response that [send_error] / [yield_error] make, and the one that
    [send_not_found] makes. *)
Definition error_response (message : string) : response :=
  {| status := Some "500 INTERNAL_SERVER_ERROR";
     headers := [("Content-Type", "text/plain")];
     content := encode_utf8 message;
     fault := None |}.

Definition not_found_response (message : string) : response :=
  {| status := Some "404 NOT_FOUND";
     headers := [("Content-Type", "text/plain")];
     content := encode_utf8 message;
     fault := None |}.

(** The response to a request that succeeded and has nothing to say. *)
Definition empty_response : response :=
  {| status := Some "200 OK"; headers := []; content := []; fault := None |}.

(** ** A file system for the examples

    The layout the tests build: the root [/srv/test_backups] holds the
    repository [testrepo] with its five type directories, a configuration,
    two keys, and three data blobs in two shards. *)

Definition test_contents : string :=
  "Very long contents for some useful testing with HTTP Range headers. We need this to be non-trivial amounts of data so that we can get a good test.".

Definition test_tree : gmap (list string) Os.node :=
  list_to_map
    [ (["srv"], Os.Dir);
      (["srv"; "test_backups"], Os.Dir);
      (["srv"; "test_backups"; "testrepo"], Os.Dir);
      (["srv"; "test_backups"; "testrepo"; "data"], Os.Dir);
      (["srv"; "test_backups"; "testrepo"; "keys"], Os.Dir);
      (["srv"; "test_backups"; "testrepo"; "locks"], Os.Dir);
      (["srv"; "test_backups"; "testrepo"; "snapshots"], Os.Dir);
      (["srv"; "test_backups"; "testrepo"; "index"], Os.Dir);
      (["srv"; "test_backups"; "testrepo"; "config"],
       Os.File (encode_utf8 "This is the config..."));
      (["srv"; "test_backups"; "testrepo"; "keys"; "aa000000000"],
       Os.File (encode_utf8 test_contents));
      (["srv"; "test_backups"; "testrepo"; "keys"; "short"],
       Os.File (encode_utf8 "abc"));
      (["srv"; "test_backups"; "testrepo"; "data"; "aa"], Os.Dir);
      (["srv"; "test_backups"; "testrepo"; "data"; "bb"], Os.Dir);
      (["srv"; "test_backups"; "testrepo"; "data"; "aa"; "aa00000000000000"],
       Os.File (encode_utf8 "Some test data."));
      (["srv"; "test_backups"; "testrepo"; "data"; "aa"; "aa11111111111111"],
       Os.File (encode_utf8 "Some test data."));
      (["srv"; "test_backups"; "testrepo"; "data"; "bb"; "bb00000000000000"],
       Os.File (encode_utf8 "Some test data.")) ].

Definition test_files : Os.filesystem :=
  {| Os.tree := test_tree; Os.cwd := ["srv"] |}.

Definition test_root : string := "/srv/test_backups".

(** The application object of a test: a request with an empty query string
    against [test_root]. *)
Definition test_app (method path_info : string) (range : option string)
           (body : bytes) : Application :=
  application test_root (request method path_info EmptyString range body).

(** The operation on the configuration file that belongs to a method. *)
Definition config_operation (method repo : string) : generator :=
  if String.eqb method "GET" then Get_config repo
  else if String.eqb method "POST" then Set_config repo
  else Config_exists repo.

(** A part of a body that only yields: it ends normally in the state [s] it
    started in, does not call [start_response], and its chunks make up
    [data]. *)
Definition yields (o : outcome unit) (s : state) (data : bytes) : Prop :=
  value o = Ok tt /\ final o = s /\ first_start (trace o) = None /\
  chunks (trace o) = data.

(** The path [p] leads to a directory. *)
Definition is_dir (files : Os.filesystem) (p : string) : Prop :=
  Os.stat files p = Ok {| Os.st_mode := Os.S_IFDIR; Os.st_size := Os.DIR_SIZE |}.

(** The directories that make up a new repository at [full_path]. *)
Definition directories_made (full_path : string) : list string :=
  [full_path;
   os_path_join full_path ["data"]; os_path_join full_path ["keys"];
   os_path_join full_path ["locks"]; os_path_join full_path ["snapshots"];
   os_path_join full_path ["index"]].

(** A part of a body that leaves the file system as it found it. *)
Definition keeps_files {A} (m : gen A) : Prop :=
  forall s, fs (final (m s)) = fs s.

(** The generators that [__iter__] returns for [GET] and for [HEAD]. *)
Definition reads_only (g : generator) : Prop :=
  match g with
  | Yield_error _ | Get_config _ | Config_exists _ | Get_path_list _ _
  | Get_path_check _ _ _ | Get_path_data _ _ _ => True
  | _ => False
  end.

(** What the listing loops append for the entry [name] of [folder_path]:
    the name and the size [os.stat] reports, when it reports a regular
    file. *)
Definition regular_entry (files : Os.filesystem) (folder_path name : string)
  : option (string * Z) :=
  match Os.stat files (os_path_join folder_path [name]) with
  | Ok stats =>
      if Os.S_ISREG (Os.st_mode stats) then Some (name, Os.st_size stats) else None
  | Raise _ => None
  end.

(** [os.stat] succeeds on every entry [names] of [folder_path]. *)
Definition all_exist (files : Os.filesystem) (folder_path : string)
           (names : list string) : bool :=
  forallb (fun name => Os.path_exists files (os_path_join folder_path [name])) names.

(** [os.listdir] succeeds on [folder_path], and [os.stat] on each of its
    entries. *)
Definition listable (files : Os.filesystem) (folder_path : string) : bool :=
  match Os.listdir files folder_path with
  | Ok names => all_exist files folder_path names
  | Raise _ => false
  end.

(** The regular files of [folder_path], in the order of [os.listdir]. *)
Definition directory_entries (files : Os.filesystem) (folder_path : string)
  : list (string * Z) :=
  match Os.listdir files folder_path with
  | Ok names => omap (regular_entry files folder_path) names
  | Raise _ => []
  end.

(** The response to a listing of [results]. *)
Definition listing_response (results : list (string * Z)) : response :=
  {| status := Some "200 OK";
     headers := [("Content-Type", "application/vnd.x.restic.rest.v2")];
     content := encode_utf8 (json_dumps results);
     fault := None |}.

(** The response the server is left with when the generator raises [e]
    before it has called [start_response]. *)
Definition fault_response (e : exn) : response :=
  {| status := None; headers := []; content := []; fault := Some e |}.

(** The file system of the examples with two more entries among the keys:
    a symbolic link to the configuration file, and a directory. *)
Definition linked_files : Os.filesystem :=
  Os.set_tree test_files
    (<[ ["srv"; "test_backups"; "testrepo"; "keys"; "link"] :=
          Os.Symlink ["srv"; "test_backups"; "testrepo"; "config"] ]>
       (<[ ["srv"; "test_backups"; "testrepo"; "keys"; "folder"] := Os.Dir ]>
          test_tree)).

(** ** What a pattern can match

    [spans r v]: the text [v] is one the pattern [r] can consume (the
    anchors consume nothing).  [captured r name v]: [r] has a group [name]
    whose pattern can consume [v].  [binds r name]: every match of [r] sets
    the group [name]. *)

Fixpoint spans (r : regex) (v : string) : Prop :=
  match r with
  | Bol | Eol => v = EmptyString
  | Lit l => v = l
  | PlusCls p => v <> EmptyString /\ Str.all p v = true
  | Opt r' => v = EmptyString \/ spans r' v
  | Alt r1 r2 => spans r1 v \/ spans r2 v
  | Seq r1 r2 => exists v1 v2, v = v1 +:+ v2 /\ spans r1 v1 /\ spans r2 v2
  | Group _ r' => spans r' v
  end.

Fixpoint captured (r : regex) (name v : string) : Prop :=
  match r with
  | Bol | Eol | Lit _ | PlusCls _ => False
  | Opt r' => captured r' name v
  | Alt r1 r2 | Seq r1 r2 => captured r1 name v \/ captured r2 name v
  | Group n r' => (n = name /\ spans r' v) \/ captured r' name v
  end.

Fixpoint binds (r : regex) (name : string) : bool :=
  match r with
  | Bol | Eol | Lit _ | PlusCls _ | Opt _ => false
  | Alt r1 r2 => binds r1 name && binds r2 name
  | Seq r1 r2 => binds r1 name || binds r2 name
  | Group n r' => String.eqb n name || binds r' name
  end.

(** The answer of [HEAD] to what is there: its length, and no body. *)
Definition length_response (n : Z) : response :=
  {| status := Some "200 OK";
     headers := [("Content-Type", "text/plain"); ("Content-Length", str_of_int n)];
     content := [];
     fault := None |}.

(** [shutil.rmtree] succeeds on [p]. *)
Definition removable (files : Os.filesystem) (p : string) : Prop :=
  exists files', Os.rmtree files p = Ok files'.

(** The statuses the handlers answer with. *)
Definition STATUSES : list string :=
  ["200 OK"; "206 PARTIAL_CONTENT"; "404 NOT_FOUND"; "500 INTERNAL_SERVER_ERROR"].

(** A part of a body that neither calls [start_response] nor yields. *)
Definition quiet {A} (m : gen A) : Prop :=
  forall s, trace (m s) = [] /\ headers_set (final (m s)) = headers_set s.

(** A body that, run before any call of [start_response], begins what it
    does to the response with a call of [start_response] and one of
    [STATUSES], or else raises having done nothing to the response. *)
Definition responds {A} (m : gen A) : Prop :=
  forall s, headers_set s = false ->
    (exists st hs tr, trace (m s) = StartResponse st hs :: tr /\ In st STATUSES) \/
    (trace (m s) = [] /\ exists e, value (m s) = Raise e).

(** * Properties *)

(** ** Examples from the tests *)

Example path_re_1 :
  rmatch PATH_RE "/testrepo/keys/aa000000000"
  = Some [("name", "aa000000000"); ("type", "keys"); ("path", "testrepo")].
Proof. reflexivity. Qed.

Example path_re_2 : rmatch PATH_RE "/" = None.
Proof. reflexivity. Qed.

Example range_re_1 :
  rmatch RANGE_RE "bytes=5-10, 15-20" = Some [("end", "10"); ("start", "5")].
Proof. reflexivity. Qed.

Example get_path_1 :
  get_path (application "/srv" (request "GET" "/testrepo/data/aa000000000" EmptyString None []))
  = Ok (Some "testrepo", Some "data", Some "aa000000000").
Proof. reflexivity. Qed.

Example get_path_2 :
  get_path (application "/srv" (request "GET" "/testrepo/datafoo" EmptyString None []))
  = Ok (Some "testrepo", Some "data", Some "foo").
Proof. reflexivity. Qed.

Example get_path_3 :
  get_path (application "/srv" (request "GET" "/testrepo/foo" EmptyString None []))
  = Ok (Some "testrepo", None, Some "foo").
Proof. reflexivity. Qed.

Example get_path_4 :
  get_path (application "/srv" (request "GET" "testrepo/config/" EmptyString None []))
  = Ok (Some "testrepo", Some "config", None).
Proof. reflexivity. Qed.

Example get_path_5 :
  get_path (application "/srv" (request "GET" "/a/b/c/d" EmptyString None []))
  = Ok (None, None, None).
Proof. reflexivity. Qed.

(** ** Strings *)

#[local] Arguments String.append !s1 s2 : simpl nomatch.

Lemma str_take_app_length a r : Str.take (String.length a) (a +:+ r) = a.
Proof. induction a as [|c a IH]; simpl; [by destruct r | by rewrite IH]. Qed.

Lemma str_drop_app_length a r : Str.drop (String.length a) (a +:+ r) = r.
Proof. induction a as [|c a IH]; simpl; [done | by rewrite IH]. Qed.

Lemma startswith_app p s : Str.startswith p (p +:+ s) = true.
Proof.
  induction p as [|c p IH]; simpl; [done|]. by rewrite Ascii.eqb_refl.
Qed.

Lemma startswith_split p s :
  Str.startswith p s = true -> s = p +:+ Str.drop (String.length p) s.
Proof.
  revert s. induction p as [|c p IH]; intros s H; simpl in *; [done|].
  destruct s as [|d s]; [done|].
  destruct (Ascii.eqb c d) eqn:E; [|done].
  apply Ascii.eqb_eq in E. subst d. simpl. f_equal. by apply IH.
Qed.

Lemma str_all_drop p n s : Str.all p s = true -> Str.all p (Str.drop n s) = true.
Proof.
  revert s. induction n as [|n IH]; intros [|c s] H; simpl in *; try done.
  apply andb_true_iff in H as [_ H]. by apply IH.
Qed.

Lemma startswith_slash_all s :
  Str.all not_slash s = true -> Str.startswith "/" s = false.
Proof.
  destruct s as [|c s]; [done|]. cbn [Str.startswith Str.all]. intros H.
  apply andb_true_iff in H as [H _]. unfold not_slash, slash in H.
  destruct (Ascii.eqb "/" c) eqn:E; [|done].
  apply Ascii.eqb_eq in E. by subst c.
Qed.

(** ** The matcher *)

(** A greedy run over [a] stops where the class stops, if the rest of the
    pattern accepts what is left. *)
Lemma plus_longest p a :
  forall pos rest k r,
    Str.all p a = true -> a <> EmptyString ->
    match rest with String c _ => p c = false | EmptyString => True end ->
    k (pos + String.length a)%nat rest = Some r ->
    Re.plus p pos (a +:+ rest) k = Some r.
Proof.
  induction a as [|c a IH]; intros pos rest k r Hall Hne Hrest Hk; [done|].
  simpl in *. apply andb_true_iff in Hall as [Hc Hall]. rewrite Hc.
  destruct a as [|c' a].
  - simpl in *. replace (pos + 1)%nat with (S pos) in Hk by lia.
    destruct rest as [|d rest]; simpl; [by rewrite Hk|].
    rewrite Hrest. by rewrite Hk.
  - erewrite IH; eauto.
    replace (S pos + String.length (String c' a))%nat
      with (pos + S (String.length (String c' a)))%nat by lia. done.
Qed.

Lemma run_group_plus name p a pos rest caps (k : cont) r :
  Str.all p a = true -> a <> EmptyString ->
  match rest with String c _ => p c = false | EmptyString => True end ->
  k (pos + String.length a)%nat rest ((name, a) :: caps) = Some r ->
  Re.run (Group name (PlusCls p)) pos (a +:+ rest) caps k = Some r.
Proof.
  intros Hall Hne Hrest Hk. simpl.
  apply plus_longest; try done.
  replace (pos + String.length a - pos)%nat with (String.length a) by lia.
  by rewrite str_take_app_length.
Qed.

Lemma append_empty s : s +:+ EmptyString = s.
Proof. induction s as [|c s IH]; simpl; [done | by rewrite IH]. Qed.

Lemma run_opt_taken r pos s caps (k : cont) c :
  Re.run r pos s caps k = Some c -> Re.run (Opt r) pos s caps k = Some c.
Proof. intros H. simpl. by rewrite H. Qed.

Lemma run_opt_slash_skipped pos s caps (k : cont) :
  Str.startswith "/" s = false ->
  Re.run (Opt (Lit "/")) pos s caps k = k pos s caps.
Proof. intros H. cbn [Re.run]. by rewrite H. Qed.

(** What follows the type in [PATH_RE], on a last segment. *)
Lemma run_name_tail pos c caps :
  segment c ->
  Re.run (Opt (Lit "/") +> Opt (Group "name" (PlusCls not_slash)) +>
          Opt (Lit "/") +> Eol)%re pos c caps (fun _ _ caps' => Some caps')
  = Some (("name", c) :: caps).
Proof.
  intros [Hall Hne].
  change (Re.run (?r1 +> ?r2)%re pos c caps ?k)
    with (Re.run r1 pos c caps (fun pos' s' caps' => Re.run r2 pos' s' caps' k)).
  rewrite run_opt_slash_skipped by by apply startswith_slash_all.
  change (Re.run (?r1 +> ?r2)%re pos c caps ?k)
    with (Re.run r1 pos c caps (fun pos' s' caps' => Re.run r2 pos' s' caps' k)).
  apply run_opt_taken.
  rewrite <- (append_empty c) at 1.
  apply run_group_plus; try done.
Qed.

Lemma run_alt_first r1 r2 pos s caps (k : cont) c :
  Re.run r1 pos s caps k = Some c -> Re.run (r1 <| r2)%re pos s caps k = Some c.
Proof. intros H. simpl. by rewrite H. Qed.

Lemma run_alt_lit_miss l r2 pos s caps (k : cont) :
  Str.startswith l s = false ->
  Re.run (Lit l <| r2)%re pos s caps k = Re.run r2 pos s caps k.
Proof. intros H. cbn [Re.run]. by rewrite H. Qed.

Lemma run_lit_hit l pos s caps (k : cont) :
  Str.startswith l s = true ->
  Re.run (Lit l) pos s caps k
  = k (pos + String.length l)%nat (Str.drop (String.length l) s) caps.
Proof. intros H. cbn [Re.run]. by rewrite H. Qed.

Lemma run_lit_miss l pos s caps (k : cont) :
  Str.startswith l s = false -> Re.run (Lit l) pos s caps k = None.
Proof. intros H. cbn [Re.run]. by rewrite H. Qed.

Lemma segment_after_token t b :
  segment b -> Str.startswith t b = true -> b <> t ->
  segment (Str.drop (String.length t) b).
Proof.
  intros [Hall Hne] Hpre Hneq. split; [by apply str_all_drop|].
  intros Hempty. apply startswith_split in Hpre.
  rewrite Hempty, append_empty in Hpre. done.
Qed.

Lemma take_token t b pos :
  Str.startswith t b = true ->
  Str.take (pos + String.length t - pos) b = t.
Proof.
  intros H. apply startswith_split in H.
  replace (pos + String.length t - pos)%nat with (String.length t) by lia.
  rewrite H at 1. apply str_take_app_length.
Qed.

Ltac seq_step :=
  match goal with
  | |- context [Re.run (?r1 +> ?r2)%re ?pos ?s ?caps ?k] =>
      change (Re.run (r1 +> r2)%re pos s caps k)
        with (Re.run r1 pos s caps
                (fun pos' s' caps' => Re.run r2 pos' s' caps' k))
  end.

(** The type and what follows it, on a last segment that is not a token. *)
Lemma run_type_tail pos b caps :
  segment b -> ~ In b RESTIC_TYPES ->
  Re.run (Opt (Group "type" (Lit "data" <| Lit "keys" <| Lit "locks" <|
                             Lit "snapshots" <| Lit "index" <| Lit "config")) +>
          Opt (Lit "/") +> Opt (Group "name" (PlusCls not_slash)) +>
          Opt (Lit "/") +> Eol)%re pos b caps (fun _ _ caps' => Some caps')
  = Some (match token_prefix b with
          | Some t => ("name", Str.drop (String.length t) b) :: ("type", t) :: caps
          | None => ("name", b) :: caps
          end).
Proof.
  intros Hseg Hnot. seq_step.
  assert (Hhit : forall t, Str.startswith t b = true -> In t RESTIC_TYPES ->
            Re.run (Group "type" (Lit t)) pos b caps
              (fun pos' s' caps' =>
                 Re.run (Opt (Lit "/") +> Opt (Group "name" (PlusCls not_slash)) +>
                         Opt (Lit "/") +> Eol)%re pos' s' caps'
                   (fun _ _ caps'' => Some caps''))
            = Some (("name", Str.drop (String.length t) b) :: ("type", t) :: caps)).
  { intros t Ht Hin.
    change (Re.run (Group ?n ?r) pos b caps ?k)
      with (Re.run r pos b caps
              (fun pos' s' caps' =>
                 k pos' s' ((n, Str.take (pos' - pos) b) :: caps'))).
    rewrite run_lit_hit by done.
    rewrite run_name_tail.
    - by rewrite take_token.
    - apply segment_after_token; try done. intros ->. done. }
  unfold token_prefix. cbn [List.find RESTIC_TYPES].
  destruct (Str.startswith "data" b) eqn:E1.
  { apply run_opt_taken. specialize (Hhit "data" E1). cbn [Re.run] in *.
    rewrite E1 in *. rewrite Hhit; [done | cbn; tauto]. }
  destruct (Str.startswith "keys" b) eqn:E2.
  { apply run_opt_taken. specialize (Hhit "keys" E2). cbn [Re.run] in *.
    rewrite E1, E2 in *. rewrite Hhit; [done | cbn; tauto]. }
  destruct (Str.startswith "locks" b) eqn:E3.
  { apply run_opt_taken. specialize (Hhit "locks" E3). cbn [Re.run] in *.
    rewrite E1, E2, E3 in *. rewrite Hhit; [done | cbn; tauto]. }
  destruct (Str.startswith "snapshots" b) eqn:E4.
  { apply run_opt_taken. specialize (Hhit "snapshots" E4). cbn [Re.run] in *.
    rewrite E1, E2, E3, E4 in *. rewrite Hhit; [done | cbn; tauto]. }
  destruct (Str.startswith "index" b) eqn:E5.
  { apply run_opt_taken. specialize (Hhit "index" E5). cbn [Re.run] in *.
    rewrite E1, E2, E3, E4, E5 in *. rewrite Hhit; [done | cbn; tauto]. }
  destruct (Str.startswith "config" b) eqn:E6.
  { apply run_opt_taken. specialize (Hhit "config" E6). cbn [Re.run] in *.
    rewrite E1, E2, E3, E4, E5, E6 in *. rewrite Hhit; [done | cbn; tauto]. }
  clear Hhit.
  pose proof (run_name_tail pos b caps Hseg) as Htail.
  cbn [Re.run] in *. rewrite E1, E2, E3, E4, E5, E6. exact Htail.
Qed.

Lemma rmatch_two_segments a b :
  segment a -> segment b -> ~ In b RESTIC_TYPES ->
  rmatch PATH_RE ("/" +:+ a +:+ "/" +:+ b)
  = Some (match token_prefix b with
          | Some t => [("name", Str.drop (String.length t) b); ("type", t); ("path", a)]
          | None => [("name", b); ("path", a)]
          end).
Proof.
  intros [Ha Hane] Hb Hnot. unfold rmatch, PATH_RE.
  seq_step.
  change (Re.run Bol 0 ?s ?caps ?k) with (k 0%nat s caps). cbv beta.
  seq_step. apply run_opt_taken. rewrite run_lit_hit by done.
  cbn [String.length Str.drop String.append Nat.add].
  seq_step. apply run_group_plus; try done.
  seq_step. apply run_opt_taken. rewrite run_lit_hit by done.
  cbn [String.length Str.drop String.append].
  rewrite run_type_tail by done.
  by destruct (token_prefix b).
Qed.

(** ** C2: a second segment that is not a type *)

(** C2, as amended.  On a path [/a/b] whose second segment [b] is not one
    of the six type tokens, [get_path] does not report the path as
    unparseable: it returns [a] as the repository, and [b] as the name with
    no type; when [b] begins with a token, the token is the type and the
    rest of [b] is the name. *)
Theorem get_path_second_segment_not_a_type (self : Application) (a b : string) :
  PATH_INFO (environ self) = Some ("/" +:+ a +:+ "/" +:+ b) ->
  segment a -> segment b -> ~ In b RESTIC_TYPES ->
  get_path self
  = Ok (Some a, token_prefix b,
        Some (match token_prefix b with
              | Some t => Str.drop (String.length t) b
              | None => b
              end)).
Proof.
  intros Hpath Ha Hb Hnot. unfold get_path. rewrite Hpath. cbn [getitem].
  rewrite rmatch_two_segments by done.
  by destruct (token_prefix b).
Qed.

Lemma get_path_second_segment_not_a_type_witness :
  get_path (application "/srv" (request "GET" "/testrepo/datafoo" EmptyString None []))
  = Ok (Some "testrepo", Some "data", Some "foo").
Proof.
  apply (get_path_second_segment_not_a_type
           (application "/srv" (request "GET" "/testrepo/datafoo" EmptyString None []))
           "testrepo" "datafoo").
  - reflexivity.
  - split; [reflexivity | discriminate].
  - split; [reflexivity | discriminate].
  - cbn. intuition discriminate.
Defined.

(** C2, as stated, fails: [/repo/blob] has a second segment that is no type
    token, and [get_path] returns it as the name, with no type. *)
Lemma get_path_second_segment_counterexample :
  segment "repo" /\ segment "blob" /\ ~ In "blob" RESTIC_TYPES /\
  get_path (application "/srv" (request "GET" "/repo/blob" EmptyString None []))
  = Ok (Some "repo", None, Some "blob") /\
  get_path (application "/srv" (request "GET" "/repo/blob" EmptyString None []))
  <> Ok (None, None, None).
Proof.
  repeat split; try reflexivity; try discriminate.
  cbn. intuition discriminate.
Qed.

(** ** Routing

    What [__iter__] returns for each shape of request.  The request has a
    method and a query string (a key the server left out makes [__iter__]
    return the generator of the generic error). *)

Section Routing.

Variable self : Application.
Variables (query_string : string).
Hypothesis Hquery : QUERY_STRING (environ self) = Some query_string.

Ltac route Hm Hp :=
  unfold __iter__, dispatch; rewrite Hm, Hp, Hquery;
  cbn [getitem rbind String.eqb Ascii.eqb Bool.eqb is_None andb];
  repeat match goal with
         | H : ?t <> "config" |- _ =>
             apply String.eqb_neq in H; rewrite H
         end;
  try rewrite String.eqb_refl;
  try rewrite andb_false_r;
  unfold get_config, get_path_list, get_path_data, set_config, set_path_data,
    create_repository, delete_repository, delete_path_data, config_exists,
    get_path_check, yield_error, valid_methods;
  rewrite ?Hm; try reflexivity.

Lemma route_get_config repo name :
  REQUEST_METHOD (environ self) = Some "GET" ->
  get_path self = Ok (Some repo, Some "config", name) ->
  __iter__ self = Get_config repo.
Proof. intros Hm Hp. route Hm Hp. Qed.

Lemma route_get_list repo ty :
  REQUEST_METHOD (environ self) = Some "GET" ->
  get_path self = Ok (Some repo, Some ty, None) -> ty <> "config" ->
  __iter__ self = Get_path_list repo ty.
Proof. intros Hm Hp Hty. route Hm Hp. Qed.

Lemma route_get_data repo ty name :
  REQUEST_METHOD (environ self) = Some "GET" ->
  get_path self = Ok (Some repo, Some ty, Some name) -> ty <> "config" ->
  __iter__ self = Get_path_data repo ty name.
Proof. intros Hm Hp Hty. route Hm Hp. Qed.

Lemma route_head_config repo name :
  REQUEST_METHOD (environ self) = Some "HEAD" ->
  get_path self = Ok (Some repo, Some "config", name) ->
  __iter__ self = Config_exists repo.
Proof. intros Hm Hp. route Hm Hp. Qed.

Lemma route_head_check repo ty name :
  REQUEST_METHOD (environ self) = Some "HEAD" ->
  get_path self = Ok (Some repo, Some ty, Some name) -> ty <> "config" ->
  __iter__ self = Get_path_check repo ty name.
Proof. intros Hm Hp Hty. route Hm Hp. Qed.

Lemma route_post_config repo name :
  REQUEST_METHOD (environ self) = Some "POST" ->
  get_path self = Ok (Some repo, Some "config", name) ->
  __iter__ self = Set_config repo.
Proof. intros Hm Hp. route Hm Hp. Qed.

Lemma route_post_data repo ty name :
  REQUEST_METHOD (environ self) = Some "POST" ->
  get_path self = Ok (Some repo, Some ty, Some name) -> ty <> "config" ->
  __iter__ self = Set_path_data repo ty name.
Proof. intros Hm Hp Hty. route Hm Hp. Qed.

Lemma route_post_create repo :
  REQUEST_METHOD (environ self) = Some "POST" ->
  get_path self = Ok (repo, None, None) ->
  str_in "true" (parse_qs_get query_string "create") = true ->
  __iter__ self = Create_repository repo.
Proof. intros Hm Hp Hc. route Hm Hp. by rewrite Hc. Qed.

Lemma route_delete_repository repo :
  REQUEST_METHOD (environ self) = Some "DELETE" ->
  get_path self = Ok (Some repo, None, None) ->
  __iter__ self = Delete_repository repo.
Proof. intros Hm Hp. route Hm Hp. Qed.

Lemma route_delete_data repo ty name :
  REQUEST_METHOD (environ self) = Some "DELETE" ->
  get_path self = Ok (Some repo, Some ty, Some name) ->
  __iter__ self = Delete_path_data repo ty name.
Proof. intros Hm Hp. route Hm Hp. Qed.

End Routing.

(** ** C9: what a missing resource is answered with *)

Ltac absent H :=
  unfold body, get_path_check_body, get_path_data_body, delete_path_data_body,
    get_config_body, config_exists_body, delete_repository_body,
    bind, os_path_exists, os_get, initial;
  cbn [fs value final trace]; rewrite H; split; reflexivity.

Lemma check_absent self files repo ty name :
  Os.path_exists files (blob_path (ROOT_PATH self) repo ty name) = false ->
  response_of (body self (Get_path_check repo ty name) (initial self files))
  = not_found_response "Requested path data does not exist." /\
  fs (final (body self (Get_path_check repo ty name) (initial self files))) = files.
Proof. intros H. unfold blob_path in H. absent H. Qed.

Lemma data_absent self files repo ty name :
  Os.path_exists files (blob_path (ROOT_PATH self) repo ty name) = false ->
  response_of (body self (Get_path_data repo ty name) (initial self files))
  = not_found_response "Requested path data does not exist." /\
  fs (final (body self (Get_path_data repo ty name) (initial self files))) = files.
Proof. intros H. unfold blob_path in H. absent H. Qed.

Lemma delete_data_absent self files repo ty name :
  Os.path_exists files (blob_path (ROOT_PATH self) repo ty name) = false ->
  response_of (body self (Delete_path_data repo ty name) (initial self files))
  = error_response "Path data does not exist." /\
  fs (final (body self (Delete_path_data repo ty name) (initial self files))) = files.
Proof. intros H. unfold blob_path in H. absent H. Qed.

Lemma get_config_absent self files repo :
  Os.path_exists files (os_path_join (ROOT_PATH self) [repo; "config"]) = false ->
  response_of (body self (Get_config repo) (initial self files))
  = error_response "Configuration does not exist." /\
  fs (final (body self (Get_config repo) (initial self files))) = files.
Proof. intros H. absent H. Qed.

Lemma config_exists_absent self files repo :
  Os.path_exists files (os_path_join (ROOT_PATH self) [repo; "config"]) = false ->
  response_of (body self (Config_exists repo) (initial self files))
  = error_response "Configuration does not exist." /\
  fs (final (body self (Config_exists repo) (initial self files))) = files.
Proof. intros H. absent H. Qed.

Lemma repository_absent self files repo :
  Os.path_exists files (os_path_join (ROOT_PATH self) [repo]) = false ->
  response_of (body self (Delete_repository repo) (initial self files))
  = error_response "Repository does not exist." /\
  fs (final (body self (Delete_repository repo) (initial self files))) = files.
Proof. intros H. absent H. Qed.

(** C9.  A named blob that is absent is answered with 404 on [HEAD] and on
    [GET]; an absent configuration with 500 on [HEAD] and on [GET]; an
    absent repository with 500 on [DELETE]; an absent named blob with 500
    on [DELETE].  Each answer carries the message of its handler, and the
    file system is left as it was. *)
Theorem absent_resource_responses (self : Application) (files : Os.filesystem)
        (query_string repo : string) :
  QUERY_STRING (environ self) = Some query_string ->
  (forall ty name,
      REQUEST_METHOD (environ self) = Some "HEAD" \/
      REQUEST_METHOD (environ self) = Some "GET" ->
      get_path self = Ok (Some repo, Some ty, Some name) -> ty <> "config" ->
      Os.path_exists files (blob_path (ROOT_PATH self) repo ty name) = false ->
      serve self files = not_found_response "Requested path data does not exist." /\
      files_after self files = files) /\
  (forall name,
      REQUEST_METHOD (environ self) = Some "HEAD" \/
      REQUEST_METHOD (environ self) = Some "GET" ->
      get_path self = Ok (Some repo, Some "config", name) ->
      Os.path_exists files (os_path_join (ROOT_PATH self) [repo; "config"]) = false ->
      serve self files = error_response "Configuration does not exist." /\
      files_after self files = files) /\
  (REQUEST_METHOD (environ self) = Some "DELETE" ->
   get_path self = Ok (Some repo, None, None) ->
   Os.path_exists files (os_path_join (ROOT_PATH self) [repo]) = false ->
   serve self files = error_response "Repository does not exist." /\
   files_after self files = files) /\
  (forall ty name,
      REQUEST_METHOD (environ self) = Some "DELETE" ->
      get_path self = Ok (Some repo, Some ty, Some name) ->
      Os.path_exists files (blob_path (ROOT_PATH self) repo ty name) = false ->
      serve self files = error_response "Path data does not exist." /\
      files_after self files = files).
Proof.
  intros Hq. unfold serve, files_after, iterate. repeat split.
  - destruct H as [Hm|Hm].
    + rewrite (route_head_check self _ Hq repo ty name) by done.
      by apply check_absent.
    + rewrite (route_get_data self _ Hq repo ty name) by done.
      by apply data_absent.
  - destruct H as [Hm|Hm].
    + rewrite (route_head_check self _ Hq repo ty name) by done.
      by apply check_absent.
    + rewrite (route_get_data self _ Hq repo ty name) by done.
      by apply data_absent.
  - destruct H as [Hm|Hm].
    + rewrite (route_head_config self _ Hq repo name) by done.
      by apply config_exists_absent.
    + rewrite (route_get_config self _ Hq repo name) by done.
      by apply get_config_absent.
  - destruct H as [Hm|Hm].
    + rewrite (route_head_config self _ Hq repo name) by done.
      by apply config_exists_absent.
    + rewrite (route_get_config self _ Hq repo name) by done.
      by apply get_config_absent.
  - rewrite (route_delete_repository self _ Hq repo) by done.
    by apply repository_absent.
  - rewrite (route_delete_repository self _ Hq repo) by done.
    by apply repository_absent.
  - rewrite (route_delete_data self _ Hq repo ty name) by done.
    by apply delete_data_absent.
  - rewrite (route_delete_data self _ Hq repo ty name) by done.
    by apply delete_data_absent.
Qed.

Lemma absent_resource_responses_witness :
  (serve (test_app "HEAD" "/testrepo/keys/missing" None []) test_files
   = not_found_response "Requested path data does not exist." /\
   files_after (test_app "HEAD" "/testrepo/keys/missing" None []) test_files
   = test_files) /\
  (serve (test_app "GET" "/norepo/config" None []) test_files
   = error_response "Configuration does not exist." /\
   files_after (test_app "GET" "/norepo/config" None []) test_files
   = test_files) /\
  (serve (test_app "DELETE" "/norepo" None []) test_files
   = error_response "Repository does not exist." /\
   files_after (test_app "DELETE" "/norepo" None []) test_files
   = test_files) /\
  (serve (test_app "DELETE" "/testrepo/keys/missing" None []) test_files
   = error_response "Path data does not exist." /\
   files_after (test_app "DELETE" "/testrepo/keys/missing" None []) test_files
   = test_files).
Proof.
  split; [|split; [|split]].
  - destruct (absent_resource_responses
                (test_app "HEAD" "/testrepo/keys/missing" None []) test_files
                EmptyString "testrepo" eq_refl) as (H & _).
    apply (H "keys" "missing").
    + left. reflexivity.
    + reflexivity.
    + discriminate.
    + vm_compute. reflexivity.
  - destruct (absent_resource_responses
                (test_app "GET" "/norepo/config" None []) test_files
                EmptyString "norepo" eq_refl) as (_ & H & _).
    apply (H None).
    + right. reflexivity.
    + reflexivity.
    + vm_compute. reflexivity.
  - destruct (absent_resource_responses
                (test_app "DELETE" "/norepo" None []) test_files
                EmptyString "norepo" eq_refl) as (_ & _ & H & _).
    apply H.
    + reflexivity.
    + reflexivity.
    + vm_compute. reflexivity.
  - destruct (absent_resource_responses
                (test_app "DELETE" "/testrepo/keys/missing" None []) test_files
                EmptyString "testrepo" eq_refl) as (_ & _ & _ & H).
    apply (H "keys" "missing").
    + reflexivity.
    + reflexivity.
    + vm_compute. reflexivity.
Defined.

(** ** C10: a name after [config] *)

(** C10.  Under [GET], [POST] and [HEAD], a path that parses to
    [(repo, config, name)] is routed to the operation on the configuration
    file of [repo] that the same request without the name is routed to; the
    two requests get the same response and leave the same file system. *)
Theorem config_name_is_ignored (named bare : Application) (files : Os.filesystem)
        (method query_string repo name : string) :
  method = "GET" \/ method = "POST" \/ method = "HEAD" ->
  REQUEST_METHOD (environ named) = Some method ->
  REQUEST_METHOD (environ bare) = Some method ->
  QUERY_STRING (environ named) = Some query_string ->
  QUERY_STRING (environ bare) = Some query_string ->
  wsgi_input (environ named) = wsgi_input (environ bare) ->
  ROOT_PATH named = ROOT_PATH bare ->
  get_path named = Ok (Some repo, Some "config", Some name) ->
  get_path bare = Ok (Some repo, Some "config", None) ->
  __iter__ named = config_operation method repo /\
  __iter__ bare = config_operation method repo /\
  serve named files = serve bare files /\
  files_after named files = files_after bare files.
Proof.
  intros Hmethod Hm1 Hm2 Hq1 Hq2 Hin Hroot Hp1 Hp2.
  assert (Hn : __iter__ named = config_operation method repo).
  { destruct Hmethod as [-> | [-> | ->]]; cbn.
    - by apply (route_get_config named _ Hq1 repo (Some name)).
    - by apply (route_post_config named _ Hq1 repo (Some name)).
    - by apply (route_head_config named _ Hq1 repo (Some name)). }
  assert (Hb : __iter__ bare = config_operation method repo).
  { destruct Hmethod as [-> | [-> | ->]]; cbn.
    - by apply (route_get_config bare _ Hq2 repo None).
    - by apply (route_post_config bare _ Hq2 repo None).
    - by apply (route_head_config bare _ Hq2 repo None). }
  assert (Hbody : body named (config_operation method repo) (initial named files)
                  = body bare (config_operation method repo) (initial bare files)).
  { unfold initial. rewrite Hin.
    destruct Hmethod as [-> | [-> | ->]]; cbn [config_operation String.eqb Ascii.eqb Bool.eqb body];
      unfold get_config_body, set_config_body, config_exists_body;
      by rewrite Hroot. }
  unfold serve, files_after, iterate. rewrite Hn, Hb, Hbody. done.
Qed.

Lemma config_name_is_ignored_witness :
  __iter__ (test_app "POST" "/testrepo/config/extra" None (encode_utf8 "v2"))
  = Set_config "testrepo" /\
  __iter__ (test_app "POST" "/testrepo/config" None (encode_utf8 "v2"))
  = Set_config "testrepo" /\
  serve (test_app "POST" "/testrepo/config/extra" None (encode_utf8 "v2")) test_files
  = serve (test_app "POST" "/testrepo/config" None (encode_utf8 "v2")) test_files /\
  files_after (test_app "POST" "/testrepo/config/extra" None (encode_utf8 "v2")) test_files
  = files_after (test_app "POST" "/testrepo/config" None (encode_utf8 "v2")) test_files.
Proof.
  apply (config_name_is_ignored
           (test_app "POST" "/testrepo/config/extra" None (encode_utf8 "v2"))
           (test_app "POST" "/testrepo/config" None (encode_utf8 "v2"))
           test_files "POST" EmptyString "testrepo" "extra").
  - right. left. reflexivity.
  - reflexivity.
  - reflexivity.
  - reflexivity.
  - reflexivity.
  - reflexivity.
  - reflexivity.
  - reflexivity.
  - reflexivity.
Defined.

(** ** C1: faults and the [try] block of [__iter__] *)

(** The part of C1 that holds: when [__iter__] finds no handler for the
    request, or an exception is raised before it returns, the generator it
    returns answers 500 with the message and changes nothing. *)
Lemma yield_error_response self files message :
  __iter__ self = Yield_error message ->
  serve self files = error_response message /\ files_after self files = files.
Proof.
  intros H. unfold serve, files_after, iterate. rewrite H. split; [|reflexivity].
  unfold response_of, error_response. cbn. by rewrite app_nil_r.
Qed.

Example unsupported_method :
  serve (test_app "PUT" "/testrepo/keys/aa000000000" None []) test_files
  = error_response "Unsupported request method.".
Proof. reflexivity. Qed.

Example not_implemented :
  serve (test_app "GET" "/testrepo" None []) test_files
  = error_response "Not Implemented".
Proof. reflexivity. Qed.

Example missing_query_string :
  serve (application test_root
           {| REQUEST_METHOD := Some "GET"; PATH_INFO := Some "/testrepo/keys";
              QUERY_STRING := None; HTTP_RANGE := None; wsgi_input := [] |})
        test_files
  = error_response "Something unexpected occurred.".
Proof. reflexivity. Qed.

(** C1 fails on the code.  [GET /norepo/keys] on a root without [norepo]:
    [__iter__] returns the generator of [get_path_list] without having run
    its body, so its [try] block is over when [os.listdir] raises; the
    exception leaves the generator, and [start_response] was never
    called. *)
Theorem list_of_missing_repository_faults :
  dispatch (test_app "GET" "/norepo/keys" None []) = Ok (Get_path_list "norepo" "keys") /\
  __iter__ (test_app "GET" "/norepo/keys" None []) = Get_path_list "norepo" "keys" /\
  serve (test_app "GET" "/norepo/keys" None []) test_files
  = {| status := None; headers := []; content := [];
       fault := Some FileNotFoundError |}.
Proof. split; [|split]; vm_compute; reflexivity. Qed.

(** Two more requests whose fault reaches the server: a create request on a
    path that does not parse, and a configuration written into a repository
    that does not exist. *)
Example create_without_repository_faults :
  serve (application test_root (request "POST" "/" "create=true" None [])) test_files
  = {| status := None; headers := []; content := []; fault := Some TypeError |}.
Proof. vm_compute. reflexivity. Qed.

Example set_config_of_missing_repository_faults :
  serve (test_app "POST" "/norepo/config" None (encode_utf8 "x")) test_files
  = {| status := None; headers := []; content := [];
       fault := Some FileNotFoundError |}.
Proof. vm_compute. reflexivity. Qed.

(** ** C3: the declared length of a range *)

(** C3 fails on the code at an end offset of zero.  [Range: bytes=0-0] asks
    for the first byte of the 146-byte key; the header parses with start
    [0] and end [0], yet the response declares the whole length, leaves the
    end out of [Content-Range], and carries the whole blob: [end], once
    converted, is the integer [0], which the conditional expression takes
    for an absent end. *)
Theorem range_end_zero_declares_rest :
  rmatch RANGE_RE "bytes=0-0" = Some [("end", "0"); ("start", "0")] /\
  serve (test_app "GET" "/testrepo/keys/aa000000000" (Some "bytes=0-0") []) test_files
  = {| status := Some "206 PARTIAL_CONTENT";
       headers := [("Content-Type", "binary/octet-stream");
                   ("Content-Length", "146");
                   ("Content-Range", "bytes=0-")];
       content := encode_utf8 test_contents;
       fault := None |}.
Proof. split; vm_compute; reflexivity. Qed.

(** With any other end the length is [end - start + 1], and with no end it
    is what is left of the blob. *)
Example range_end_given :
  serve (test_app "GET" "/testrepo/keys/aa000000000" (Some "bytes=15-25") []) test_files
  = {| status := Some "206 PARTIAL_CONTENT";
       headers := [("Content-Type", "binary/octet-stream");
                   ("Content-Length", "11");
                   ("Content-Range", "bytes=15-25")];
       content := encode_utf8 "nts for som";
       fault := None |}.
Proof. vm_compute. reflexivity. Qed.

Example range_end_absent :
  headers (serve (test_app "GET" "/testrepo/keys/aa000000000" (Some "bytes=15-") [])
                 test_files)
  = [("Content-Type", "binary/octet-stream");
     ("Content-Length", "131");
     ("Content-Range", "bytes=15-")].
Proof. vm_compute. reflexivity. Qed.

(** ** The loops *)

Lemma read_bytes_pos : (0 < Z.to_nat READ_BYTES)%nat.
Proof. unfold READ_BYTES. lia. Qed.

Lemma take_drop_length (l : bytes) n : take n l ++ drop (length (take n l)) l = l.
Proof.
  rewrite length_take. destruct (Nat.le_gt_cases n (length l)).
  - rewrite Nat.min_l by done. apply take_drop.
  - rewrite Nat.min_r by lia. rewrite take_ge, drop_all by lia. apply app_nil_r.
Qed.

Lemma take_nil_pos (l : bytes) n : (0 < n)%nat -> take n l = [] -> l = [].
Proof. intros Hn H. apply take_nil_inv in H as [H|H]; [lia | done]. Qed.

Lemma drop_advance (content : bytes) pos (data : bytes) :
  0 <= pos ->
  drop (Z.to_nat (pos + len data)) content
  = drop (length data) (drop (Z.to_nat pos) content).
Proof.
  intros Hpos. rewrite drop_drop. f_equal. unfold len. lia.
Qed.

(** The loop of a full read yields the file from [pos] on. *)
Lemma yield_file_yields bound :
  forall content pos s,
    0 <= pos ->
    (length (drop (Z.to_nat pos) content) < bound)%nat ->
    yields (yield_file bound content pos s) s (drop (Z.to_nat pos) content).
Proof.
  induction bound as [|bound IH]; intros content pos s Hpos Hlen; [lia|].
  cbn [yield_file]. unfold Os.file_read.
  pose proof read_bytes_pos as Hn.
  set (n := Z.to_nat READ_BYTES) in *. clearbody n.
  set (l := drop (Z.to_nat pos) content) in *.
  destruct (take n l) as [|b data'] eqn:Hdata.
  - apply take_nil_pos in Hdata; [|done].
    rewrite Hdata. by repeat split.
  - set (data := b :: data') in *.
    assert (Hl : data ++ drop (length data) l = l).
    { rewrite <- Hdata. apply take_drop_length. }
    destruct (IH content (pos + len data) s) as (Hv & Hf & Hs & Hc).
    + unfold len. lia.
    + rewrite drop_advance by done. fold l. rewrite length_drop.
      assert (length l = length data + length (drop (length data) l))%nat
        by (rewrite <- length_app; by rewrite Hl).
      unfold data in *. cbn [length] in *. lia.
    + unfold bind, yield. cbn [value final trace].
      rewrite Hv. unfold yields. cbn [value final trace].
      split; [done | split; [done | split; [done|]]].
      change (data ++ chunks (trace (yield_file bound content (pos + len data) s)) = l).
      rewrite Hc. rewrite drop_advance by done. done.
Qed.


(** ** Reading a file *)

Lemma holds_path_exists files p data :
  Os.holds files p data -> Os.path_exists files p = true.
Proof.
  intros (loc & Hr & Hn). unfold Os.path_exists, Os.stat. by rewrite Hr, Hn.
Qed.

Lemma holds_stat files p data :
  Os.holds files p data ->
  Os.stat files p = Ok {| Os.st_mode := Os.S_IFREG; Os.st_size := len data |}.
Proof. intros (loc & Hr & Hn). unfold Os.stat. by rewrite Hr, Hn. Qed.

Lemma holds_open_rb files p data :
  Os.holds files p data -> Os.open_rb files p = Ok data.
Proof. intros (loc & Hr & Hn). unfold Os.open_rb. by rewrite Hr, Hn. Qed.

(** What [get_path_data] does once the blob is found, with the loop left
    abstract. *)
Lemma get_path_data_found self files repo ty name data :
  Os.holds files (blob_path (ROOT_PATH self) repo ty name) data ->
  body self (Get_path_data repo ty name) (initial self files)
  = let s := {| fs := files; input := wsgi_input (environ self); headers_set := true |} in
    match range_match (HTTP_RANGE (environ self)) with
    | Some m =>
        let o := yield_range (S (length data)) data (range_start m) 0
                             (range_length m (len data)) s in
        {| trace := StartResponse "206 PARTIAL_CONTENT"
                      [("Content-Type", "binary/octet-stream");
                       ("Content-Length", str_of_int (range_length m (len data)));
                       ("Content-Range", content_range m)] :: trace o;
           final := final o; value := value o |}
    | None =>
        let o := yield_file (S (length data)) data 0 s in
        {| trace := StartResponse "200 OK"
                      [("Content-Type", "binary/octet-stream");
                       ("Content-Length", str_of_int (len data))] :: trace o;
           final := final o; value := value o |}
    end.
Proof.
  intros Hholds. unfold blob_path in Hholds.
  pose proof (holds_path_exists _ _ _ Hholds) as He.
  pose proof (holds_stat _ _ _ Hholds) as Hs.
  pose proof (holds_open_rb _ _ _ Hholds) as Ho.
  unfold body, get_path_data_body.
  generalize yield_range, yield_file. intros range_loop file_loop.
  unfold bind, os_path_exists, os_stat, open_rb, os_get, start_response, initial.
  cbn [fs value final trace input headers_set]. rewrite He.
  cbn [fs value final trace input headers_set]. rewrite Hs.
  cbn [fs value final trace input headers_set].
  destruct (range_match (HTTP_RANGE (environ self))) as [m|].
  - cbn [fs value final trace input headers_set]. rewrite Ho. reflexivity.
  - cbn [fs value final trace input headers_set]. rewrite Ho. reflexivity.
Qed.

Lemma started_response st hs (o : outcome unit) s data :
  yields o s data ->
  response_of {| trace := StartResponse st hs :: trace o;
                 final := final o; value := value o |}
  = {| status := Some st; headers := hs; content := data; fault := None |}.
Proof.
  intros (Hv & Hf & Hs & Hc). unfold response_of. cbn [trace value first_start].
  change (chunks (StartResponse st hs :: trace o)) with (chunks (trace o)).
  by rewrite Hv, Hc.
Qed.

(** A full read: 200, the size of the file, and the file. *)
Lemma full_read self files repo ty name data :
  Os.holds files (blob_path (ROOT_PATH self) repo ty name) data ->
  range_match (HTTP_RANGE (environ self)) = None ->
  response_of (body self (Get_path_data repo ty name) (initial self files))
  = {| status := Some "200 OK";
       headers := [("Content-Type", "binary/octet-stream");
                   ("Content-Length", str_of_int (len data))];
       content := data;
       fault := None |}.
Proof.
  intros Hholds Hrange. rewrite (get_path_data_found _ _ _ _ _ _ Hholds), Hrange.
  cbv zeta. erewrite started_response; [reflexivity|].
  rewrite <- (drop_0 data) at 3.
  apply (yield_file_yields _ data 0); [done | rewrite length_drop; lia].
Qed.


(** ** C4: ranges *)




Lemma test_key_holds :
  Os.holds test_files (blob_path test_root "testrepo" "keys" "aa000000000")
           (encode_utf8 test_contents).
Proof.
  exists ["srv"; "test_backups"; "testrepo"; "keys"; "aa000000000"].
  split; vm_compute; reflexivity.
Defined.



(** ** Path resolution *)

Lemma walk_nil t follow links cur : Os.walk t follow links cur [] = Ok cur.
Proof. by destruct links. Qed.

Lemma walk_cons t follow links cur c rest :
  Os.walk t follow links cur (c :: rest)
  = match Os.node_at t cur with
    | Some Os.Dir =>
        if String.eqb c "." then Os.walk t follow links cur rest
        else if String.eqb c ".." then Os.walk t follow links (removelast cur) rest
        else
          match t !! (cur ++ [c]) with
          | Some (Os.Symlink target) =>
              if follow || negb (bool_decide (rest = [])) then
                match links with
                | O => Raise OSError
                | S links' => Os.walk t follow links' [] (target ++ rest)
                end
              else Ok (cur ++ [c])
          | Some _ => Os.walk t follow links (cur ++ [c]) rest
          | None =>
              match rest with
              | [] => Ok (cur ++ [c])
              | _ => Raise FileNotFoundError
              end
          end
    | Some _ => Raise NotADirectoryError
    | None => Raise FileNotFoundError
    end.
Proof. by destruct links. Qed.

Lemma node_at_nonroot t p : p <> [] -> Os.node_at t p = t !! p.
Proof. by destruct p. Qed.

Lemma snoc_nonroot (cur : list string) c : cur ++ [c] <> [].
Proof. by destruct cur. Qed.

(** A walk that succeeds is not disturbed when a node that was missing, or
    was a regular file, becomes a file or a directory. *)
Lemma walk_insert t y n' follow :
  t !! y = None \/ (exists d, t !! y = Some (Os.File d)) ->
  y <> [] ->
  (forall target, n' <> Os.Symlink target) ->
  forall links cur rest x,
    Os.walk t follow links cur rest = Ok x ->
    Os.walk (<[y := n']> t) follow links cur rest = Ok x.
Proof.
  intros Hy Hroot Hn'.
  assert (Hdir : forall cur, Os.node_at t cur = Some Os.Dir ->
                             Os.node_at (<[y := n']> t) cur = Some Os.Dir).
  { intros cur Hcur. destruct cur as [|a cur]; [done|].
    cbn [Os.node_at] in *. rewrite lookup_insert_ne; [done|].
    intros ->. destruct Hy as [Hy | [d Hy]]; congruence. }
  induction links as [|links IHlinks];
    (intros cur rest; revert cur;
     induction rest as [|c rest IHrest]; intros cur x Hwalk;
     [by rewrite walk_nil in *|]);
    rewrite walk_cons in Hwalk; rewrite walk_cons;
    (destruct (Os.node_at t cur) as [[| |]|] eqn:Hcur; try done);
    rewrite (Hdir _ Hcur);
    (destruct (String.eqb c "."); [by apply IHrest|]);
    (destruct (String.eqb c ".."); [by apply IHrest|]);
    (destruct (decide (cur ++ [c] = y)) as [Heq|Hne];
     [ rewrite Heq in *; rewrite lookup_insert_eq;
       destruct Hy as [Hy | [d Hy]]; rewrite Hy in Hwalk;
       (destruct rest as [|c' rest];
        [ rewrite ?walk_nil in *; destruct n'; [done | done | by destruct (Hn' target)]
        | try done;
          rewrite walk_cons in Hwalk;
          rewrite (node_at_nonroot _ _ Hroot), Hy in Hwalk; done ])
     | rewrite lookup_insert_ne by done;
       destruct (t !! (cur ++ [c])) as [[| |target]|]; try done;
       try (by apply IHrest);
       destruct (follow || negb (bool_decide (rest = []))); try done ]).
  by apply IHlinks.
Qed.

(** When the object named is not a symbolic link, it does not matter
    whether a link in last position would have been followed. *)
Lemma walk_follow t :
  forall links cur rest x,
    Os.walk t false links cur rest = Ok x ->
    (forall target, Os.node_at t x <> Some (Os.Symlink target)) ->
    Os.walk t true links cur rest = Ok x.
Proof.
  induction links as [|links IHlinks];
    (intros cur rest; revert cur;
     induction rest as [|c rest IHrest]; intros cur x Hwalk Hx;
     [by rewrite walk_nil in *|]);
    rewrite walk_cons in Hwalk; rewrite walk_cons;
    (destruct (Os.node_at t cur) as [[| |]|] eqn:Hcur; try done);
    (destruct (String.eqb c "."); [by apply IHrest|]);
    (destruct (String.eqb c ".."); [by apply IHrest|]);
    (destruct (t !! (cur ++ [c])) as [[| |target]|] eqn:Hc; try done;
     try (by apply IHrest));
    cbn [orb] in *;
    (destruct (bool_decide (rest = [])); cbn [negb] in *;
     [ injection Hwalk as <-;
       rewrite (node_at_nonroot _ _ (snoc_nonroot cur c)), Hc in Hx;
       by destruct (Hx target)
     | try done ]).
  by apply IHlinks.
Qed.

(** ** Writing a file *)

Lemma set_tree_same (files : Os.filesystem) : Os.set_tree files (Os.tree files) = files.
Proof. by destruct files. Qed.

Lemma file_write_file files loc old data :
  Os.tree files !! loc = Some (Os.File old) ->
  Os.file_write files loc data
  = Os.set_tree files (<[loc := Os.File (old ++ data)]> (Os.tree files)).
Proof. intros H. unfold Os.file_write. by rewrite H. Qed.

(** The copy loop appends the whole request body to the file it writes. *)
Lemma copy_input_appends bound loc :
  forall s old,
    Os.tree (fs s) !! loc = Some (Os.File old) ->
    (length (input s) < bound)%nat ->
    copy_input bound loc s
    = {| trace := [];
         final := {| fs := Os.set_tree (fs s)
                             (<[loc := Os.File (old ++ input s)]> (Os.tree (fs s)));
                     input := [];
                     headers_set := headers_set s |};
         value := Ok tt |}.
Proof.
  induction bound as [|bound IH]; intros s old Hold Hlen; [lia|].
  cbn [copy_input]. unfold bind, input_read. cbn [value final trace fs input headers_set].
  pose proof read_bytes_pos as Hn.
  set (n := Z.to_nat READ_BYTES) in *. clearbody n.
  destruct (take n (input s)) as [|b data'] eqn:Hdata.
  - apply take_nil_pos in Hdata; [|done].
    unfold ret. cbn [value final trace app]. rewrite Hdata, drop_nil, app_nil_r.
    rewrite insert_id by done. rewrite set_tree_same.
    reflexivity.
  - assert (Hne : take n (input s) <> []) by by rewrite Hdata.
    rewrite <- Hdata. clear b data' Hdata.
    unfold file_write, os_put. cbn [value final trace fs input headers_set app].
    rewrite (file_write_file _ _ _ _ Hold).
    rewrite (IH _ (old ++ take n (input s))).
    + cbn [value final trace fs input headers_set app Os.tree Os.set_tree Os.cwd].
      rewrite insert_insert_eq. rewrite <- app_assoc, take_drop. reflexivity.
    + cbn [fs Os.tree Os.set_tree]. by rewrite lookup_insert_eq.
    + cbn [input]. rewrite length_drop.
      assert (0 < length (take n (input s)))%nat
        by (destruct (take n (input s)); [done | cbn; lia]).
      rewrite length_take in *. lia.
Qed.

Lemma open_wb_inv files p loc files' :
  Os.open_wb files p = Ok (loc, files') ->
  Os.resolve files true p = Ok loc /\
  (Os.tree files !! loc = None \/ exists d, Os.tree files !! loc = Some (Os.File d)) /\
  loc <> [] /\
  files' = Os.set_tree files (<[loc := Os.File []]> (Os.tree files)).
Proof.
  unfold Os.open_wb. intros H.
  destruct (Os.resolve files true p) as [l|] eqn:Hr; [|done].
  destruct l as [|a l]; [done|].
  cbn [Os.node_at] in H.
  destruct (Os.tree files !! (a :: l)) as [[d| |]|] eqn:Hn; try done;
    injection H as <- <-; repeat split; eauto.
Qed.

(** After a write through [p], [p] leads to a file with what was written. *)
Lemma open_wb_holds files p loc files' data :
  Os.open_wb files p = Ok (loc, files') ->
  Os.holds (Os.set_tree files' (<[loc := Os.File data]> (Os.tree files'))) p data.
Proof.
  intros H. apply open_wb_inv in H as (Hr & Hold & Hroot & ->).
  exists loc. cbn [Os.set_tree Os.tree]. rewrite insert_insert_eq. split.
  - unfold Os.resolve in *. destruct p; [done|]. cbn [Os.tree Os.cwd].
    apply walk_insert; try done.
  - rewrite node_at_nonroot by done. apply lookup_insert_eq.
Qed.

(** The write succeeds exactly when the file can be opened, and then the
    file holds the request body. *)
Lemma write_request_body_ok p s :
  value (write_request_body p s) = Ok tt ->
  Os.holds (fs (final (write_request_body p s))) p (input s).
Proof.
  unfold write_request_body.
  pose proof copy_input_appends as Hcopy. revert Hcopy.
  generalize copy_input. intros copy Hcopy.
  unfold bind, open_wb, os_put, input_left.
  cbn [fs value final trace input headers_set].
  destruct (Os.open_wb (fs s) p) as [[loc files']|e] eqn:Hopen; [|done].
  cbn [fs value final trace input headers_set].
  pose proof (open_wb_inv _ _ _ _ Hopen) as (_ & _ & _ & Hfiles').
  rewrite (Hcopy _ _ _ []).
  - cbn [fs value final trace input headers_set app].
    intros _. unfold start_response.
    destruct (headers_set s); cbn [fs value final trace input headers_set];
      apply (open_wb_holds _ _ _ _ _ Hopen).
  - subst files'. cbn [fs Os.tree Os.set_tree]. apply lookup_insert_eq.
  - cbn [input]. lia.
Qed.

Lemma set_config_ok self repo s :
  value (body self (Set_config repo) s) = Ok tt ->
  Os.holds (fs (final (body self (Set_config repo) s)))
           (os_path_join (ROOT_PATH self) [repo; "config"]) (input s).
Proof. apply write_request_body_ok. Qed.

Lemma set_path_data_ok self repo ty name s :
  value (body self (Set_path_data repo ty name) s) = Ok tt ->
  Os.holds (fs (final (body self (Set_path_data repo ty name) s)))
           (blob_path (ROOT_PATH self) repo ty name) (input s).
Proof.
  unfold body, set_path_data_body, blob_path.
  pose proof write_request_body_ok as Hw. revert Hw.
  generalize write_request_body. intros wr Hw.
  destruct (String.eqb ty "data").
  - unfold bind, os_path_exists, os_get, os_mkdir, os_put, ret.
    cbn [fs value final trace input headers_set].
    destruct (Os.path_exists (fs s) _); cbn [negb fs value final trace input headers_set].
    + apply Hw.
    + destruct (Os.mkdir (fs s) _) as [files'|e];
        cbn [unit_result fs value final trace input headers_set]; [|done].
      apply (Hw _ {| fs := files'; input := input s; headers_set := headers_set s |}).
  - unfold bind, ret. cbn [fs value final trace input headers_set]. apply Hw.
Qed.

(** What [get_config] does once the file is found. *)
Lemma get_config_found self files repo data :
  Os.holds files (os_path_join (ROOT_PATH self) [repo; "config"]) data ->
  response_of (body self (Get_config repo) (initial self files))
  = {| status := Some "200 OK";
       headers := [("Content-Type", "binary/octet-stream");
                   ("Content-Length", str_of_int (len data))];
       content := data;
       fault := None |}.
Proof.
  intros Hholds.
  pose proof (holds_path_exists _ _ _ Hholds) as He.
  pose proof (holds_stat _ _ _ Hholds) as Hs.
  pose proof (holds_open_rb _ _ _ Hholds) as Ho.
  unfold body, get_config_body.
  pose proof yield_file_yields as Hy. revert Hy.
  generalize yield_file. intros file_loop Hy.
  unfold bind, os_path_exists, os_stat, open_rb, os_get, start_response, initial.
  cbn [fs value final trace input headers_set]. rewrite He.
  cbn [fs value final trace input headers_set]. rewrite Hs.
  cbn [fs value final trace input headers_set]. rewrite Ho.
  cbn [fs value final trace input headers_set app Os.st_size].
  change (http_response 200) with "200 OK".
  eapply started_response.
  rewrite <- (drop_0 data) at 2.
  apply (Hy _ data 0); [done | rewrite length_drop; lia].
Qed.

Lemma fault_none_value (o : outcome unit) :
  fault (response_of o) = None -> value o = Ok tt.
Proof. unfold response_of. cbn. by destruct (value o) as [[]|]. Qed.

(** ** C5: what is written is what is read *)

(** C5.  A [POST] of the body [B] to a blob or to the configuration,
    followed by a [GET] of the same path without a range, returns [B]: when
    the write ends without a fault, the read is answered with 200, the
    length of [B] and [B] itself.  The type may be [config], in which case
    the name, if there is one, plays no role. *)
Theorem write_then_read (writer reader : Application) (files : Os.filesystem)
        (query_w query_r repo ty : string) (name : option string) :
  REQUEST_METHOD (environ writer) = Some "POST" ->
  QUERY_STRING (environ writer) = Some query_w ->
  get_path writer = Ok (Some repo, Some ty, name) ->
  REQUEST_METHOD (environ reader) = Some "GET" ->
  QUERY_STRING (environ reader) = Some query_r ->
  get_path reader = Ok (Some repo, Some ty, name) ->
  ROOT_PATH reader = ROOT_PATH writer ->
  (ty <> "config" -> name <> None) ->
  range_match (HTTP_RANGE (environ reader)) = None ->
  fault (serve writer files) = None ->
  serve reader (files_after writer files)
  = {| status := Some "200 OK";
       headers := [("Content-Type", "binary/octet-stream");
                   ("Content-Length", str_of_int (len (wsgi_input (environ writer))))];
       content := wsgi_input (environ writer);
       fault := None |}.
Proof.
  intros Hmw Hqw Hpw Hmr Hqr Hpr Hroot Hname Hrange Hfault.
  unfold serve, files_after, iterate in *.
  destruct (String.eqb_spec ty "config") as [->|Hty].
  - rewrite (route_post_config writer _ Hqw repo name Hmw Hpw) in *.
    rewrite (route_get_config reader _ Hqr repo name Hmr Hpr).
    apply fault_none_value in Hfault. apply set_config_ok in Hfault.
    apply get_config_found. by rewrite Hroot.
  - destruct name as [name|]; [|by destruct (Hname Hty)].
    rewrite (route_post_data writer _ Hqw repo ty name Hmw Hpw Hty) in *.
    rewrite (route_get_data reader _ Hqr repo ty name Hmr Hpr Hty).
    apply fault_none_value in Hfault. apply set_path_data_ok in Hfault.
    apply full_read; [by rewrite Hroot | done].
Qed.

Lemma write_then_read_witness :
  serve (test_app "GET" "/testrepo/data/cc0123" None [])
        (files_after (test_app "POST" "/testrepo/data/cc0123" None
                               (encode_utf8 "Some new data."))
                     test_files)
  = {| status := Some "200 OK";
       headers := [("Content-Type", "binary/octet-stream");
                   ("Content-Length", "14")];
       content := encode_utf8 "Some new data.";
       fault := None |} /\
  serve (test_app "GET" "/testrepo/config" None [])
        (files_after (test_app "POST" "/testrepo/config" None (encode_utf8 "v2"))
                     test_files)
  = {| status := Some "200 OK";
       headers := [("Content-Type", "binary/octet-stream");
                   ("Content-Length", "2")];
       content := encode_utf8 "v2";
       fault := None |}.
Proof.
  split.
  - apply (write_then_read
             (test_app "POST" "/testrepo/data/cc0123" None (encode_utf8 "Some new data."))
             (test_app "GET" "/testrepo/data/cc0123" None [])
             test_files EmptyString EmptyString "testrepo" "data" (Some "cc0123"));
      try reflexivity; discriminate.
  - apply (write_then_read
             (test_app "POST" "/testrepo/config" None (encode_utf8 "v2"))
             (test_app "GET" "/testrepo/config" None [])
             test_files EmptyString EmptyString "testrepo" "config" None);
      try reflexivity; intros H; by destruct H.
Defined.

(** The write of the witness does create the shard directory and the file. *)
Example write_creates_shard :
  Os.tree (files_after (test_app "POST" "/testrepo/data/cc0123" None
                                 (encode_utf8 "Some new data."))
                       test_files)
    !! ["srv"; "test_backups"; "testrepo"; "data"; "cc"; "cc0123"]
  = Some (Os.File (encode_utf8 "Some new data.")) /\
  Os.tree (files_after (test_app "POST" "/testrepo/data/cc0123" None
                                 (encode_utf8 "Some new data."))
                       test_files)
    !! ["srv"; "test_backups"; "testrepo"; "data"; "cc"]
  = Some Os.Dir.
Proof. split; vm_compute; reflexivity. Qed.

(** ** C8: creating a repository *)

Lemma mkdir_inv files p files' :
  Os.mkdir files p = Ok files' ->
  exists loc,
    Os.resolve files false p = Ok loc /\ loc <> [] /\
    Os.tree files !! loc = None /\
    files' = Os.set_tree files (<[loc := Os.Dir]> (Os.tree files)).
Proof.
  unfold Os.mkdir. intros H.
  destruct (Os.resolve files false p) as [loc|] eqn:Hr; [|done].
  destruct loc as [|a loc]; [done|]. cbn [Os.node_at] in H.
  destruct (Os.tree files !! (a :: loc)) eqn:Hn; [done|].
  injection H as <-. by exists (a :: loc).
Qed.

Lemma is_dir_inv files p :
  is_dir files p ->
  exists loc, Os.resolve files true p = Ok loc /\
              Os.node_at (Os.tree files) loc = Some Os.Dir.
Proof.
  unfold is_dir, Os.stat. intros H.
  destruct (Os.resolve files true p) as [loc|] eqn:Hr; [|done].
  destruct (Os.node_at (Os.tree files) loc) as [[| |]|] eqn:Hn; try done.
  by exists loc.
Qed.

Lemma is_dir_intro files p loc :
  Os.resolve files true p = Ok loc ->
  Os.node_at (Os.tree files) loc = Some Os.Dir ->
  is_dir files p.
Proof. intros Hr Hn. unfold is_dir, Os.stat. by rewrite Hr, Hn. Qed.

(** [os.mkdir] makes a directory, and leaves the directories there are. *)
Lemma mkdir_is_dir files p files' : Os.mkdir files p = Ok files' -> is_dir files' p.
Proof.
  intros H. apply mkdir_inv in H as (loc & Hr & Hroot & Hnone & ->).
  apply (is_dir_intro _ _ loc).
  - unfold Os.resolve in *. destruct p; [done|]. cbn [Os.tree Os.cwd Os.set_tree].
    apply walk_follow.
    + apply walk_insert; by auto.
    + intros target. rewrite node_at_nonroot, lookup_insert_eq by done. done.
  - cbn [Os.tree Os.set_tree]. rewrite node_at_nonroot by done. apply lookup_insert_eq.
Qed.

Lemma mkdir_keeps_dir files p files' q :
  Os.mkdir files p = Ok files' -> is_dir files q -> is_dir files' q.
Proof.
  intros H Hq. apply mkdir_inv in H as (loc & Hr & Hroot & Hnone & ->).
  apply is_dir_inv in Hq as (l & Hl & Hn).
  apply (is_dir_intro _ _ l).
  - unfold Os.resolve in *. destruct q; [done|]. cbn [Os.tree Os.cwd Os.set_tree].
    apply walk_insert; by auto.
  - cbn [Os.tree Os.set_tree]. destruct l as [|a l]; [done|].
    cbn [Os.node_at] in *. rewrite lookup_insert_ne; [done|]. congruence.
Qed.

(** One [os.mkdir] in front of the rest of a body. *)
Lemma os_mkdir_bind p (k : unit -> gen unit) s :
  bind (os_mkdir p) k s
  = match Os.mkdir (fs s) p with
    | Ok files' =>
        let o := k tt {| fs := files'; input := input s; headers_set := headers_set s |} in
        {| trace := trace o; final := final o; value := value o |}
    | Raise e => {| trace := []; final := s; value := Raise e |}
    end.
Proof.
  unfold bind, os_mkdir, os_put. by destruct (Os.mkdir (fs s) p).
Qed.

(** The [try] block of [create_repository] calls nothing but [os.mkdir]:
    it leaves no trace, and when it ends normally the six directories are
    there. *)
Lemma make_directories_outcome full_path s :
  trace (make_directories full_path s) = [] /\
  input (final (make_directories full_path s)) = input s /\
  headers_set (final (make_directories full_path s)) = headers_set s /\
  (value (make_directories full_path s) = Ok tt ->
   Forall (is_dir (fs (final (make_directories full_path s))))
          (directories_made full_path)).
Proof.
  unfold make_directories.
  cbn [for_each RESTIC_TYPES String.eqb Ascii.eqb Bool.eqb negb].
  rewrite os_mkdir_bind.
  destruct (Os.mkdir (fs s) full_path) as [f1|] eqn:H1; [|by repeat split].
  cbv zeta. rewrite os_mkdir_bind. cbn [fs input headers_set].
  destruct (Os.mkdir f1 _) as [f2|] eqn:H2; [|by repeat split].
  cbv zeta. rewrite os_mkdir_bind. cbn [fs input headers_set].
  destruct (Os.mkdir f2 _) as [f3|] eqn:H3; [|by repeat split].
  cbv zeta. rewrite os_mkdir_bind. cbn [fs input headers_set].
  destruct (Os.mkdir f3 _) as [f4|] eqn:H4; [|by repeat split].
  cbv zeta. rewrite os_mkdir_bind. cbn [fs input headers_set].
  destruct (Os.mkdir f4 _) as [f5|] eqn:H5; [|by repeat split].
  cbv zeta. rewrite os_mkdir_bind. cbn [fs input headers_set].
  destruct (Os.mkdir f5 _) as [f6|] eqn:H6; [|by repeat split].
  unfold bind, ret. cbn [trace final value fs input headers_set app].
  split; [done | split; [done | split; [done | intros _]]].
  unfold directories_made. repeat apply Forall_cons_2; [..|apply Forall_nil_2].
  - apply (mkdir_keeps_dir _ _ _ _ H6), (mkdir_keeps_dir _ _ _ _ H5),
      (mkdir_keeps_dir _ _ _ _ H4), (mkdir_keeps_dir _ _ _ _ H3),
      (mkdir_keeps_dir _ _ _ _ H2), (mkdir_is_dir _ _ _ H1).
  - apply (mkdir_keeps_dir _ _ _ _ H6), (mkdir_keeps_dir _ _ _ _ H5),
      (mkdir_keeps_dir _ _ _ _ H4), (mkdir_keeps_dir _ _ _ _ H3),
      (mkdir_is_dir _ _ _ H2).
  - apply (mkdir_keeps_dir _ _ _ _ H6), (mkdir_keeps_dir _ _ _ _ H5),
      (mkdir_keeps_dir _ _ _ _ H4), (mkdir_is_dir _ _ _ H3).
  - apply (mkdir_keeps_dir _ _ _ _ H6), (mkdir_keeps_dir _ _ _ _ H5),
      (mkdir_is_dir _ _ _ H4).
  - apply (mkdir_keeps_dir _ _ _ _ H6), (mkdir_is_dir _ _ _ H5).
  - apply (mkdir_is_dir _ _ _ H6).
Qed.

(** Stepping through a body: a first part whose outcome is known. *)
Lemma bind_ok {A B} (m : gen A) (f : A -> gen B) s tr s' a :
  m s = {| trace := tr; final := s'; value := Ok a |} ->
  bind m f s
  = {| trace := tr ++ trace (f a s'); final := final (f a s');
       value := value (f a s') |}.
Proof. intros H. unfold bind. by rewrite H. Qed.

Lemma bind_raise {A B} (m : gen A) (f : A -> gen B) s tr s' e :
  m s = {| trace := tr; final := s'; value := Raise e |} ->
  bind m f s = {| trace := tr; final := s'; value := Raise e |}.
Proof. intros H. unfold bind. by rewrite H. Qed.

(** C8.  [POST /{repo}?create=true]:
    - when the repository path exists, the answer is 200 with an empty
      body and the file system is untouched;
    - when it does not exist and the directories can be made, the
      repository directory and its five type directories are made, and the
      answer is 200 with an empty body;
    - when it does not exist and making the directories fails, the answer
      is 500 with the message of the failure.  (The handler then goes on
      to call [start_response] a second time, which the server refuses:
      the response that was started is the 500.) *)
Theorem create_repository_idempotent (self : Application) (files : Os.filesystem)
        (query_string repo : string) :
  REQUEST_METHOD (environ self) = Some "POST" ->
  QUERY_STRING (environ self) = Some query_string ->
  str_in "true" (parse_qs_get query_string "create") = true ->
  get_path self = Ok (Some repo, None, None) ->
  (Os.path_exists files (os_path_join (ROOT_PATH self) [repo]) = true ->
   serve self files = empty_response /\ files_after self files = files) /\
  (Os.path_exists files (os_path_join (ROOT_PATH self) [repo]) = false ->
   match value (make_directories (os_path_join (ROOT_PATH self) [repo])
                                 (initial self files)) with
   | Ok _ =>
       serve self files = empty_response /\
       files_after self files
       = fs (final (make_directories (os_path_join (ROOT_PATH self) [repo])
                                     (initial self files))) /\
       Forall (is_dir (files_after self files))
              (directories_made (os_path_join (ROOT_PATH self) [repo]))
   | Raise _ =>
       serve self files
       = {| status := Some "500 INTERNAL_SERVER_ERROR";
            headers := [("Content-Type", "text/plain")];
            content := encode_utf8 "Failed to create repository.";
            fault := Some AssertionError |}
   end).
Proof.
  intros Hm Hq Hc Hp. unfold serve, files_after, iterate.
  rewrite (route_post_create self _ Hq (Some repo) Hm Hp Hc).
  unfold body, create_repository_body.
  pose proof make_directories_outcome as Hmd. revert Hmd.
  generalize make_directories. intros md Hmd.
  split; intros Hex.
  - erewrite bind_ok; [|reflexivity].
    erewrite bind_ok;
      [|unfold os_path_exists, os_get;
        change (fs (initial self files)) with files; rewrite Hex; reflexivity].
    cbn [negb]. erewrite bind_ok; [|reflexivity].
    erewrite bind_ok; [|reflexivity].
    split; reflexivity.
  - destruct (Hmd (os_path_join (ROOT_PATH self) [repo]) (initial self files)) as (Htr & Hin & Hhs & Hdirs).
    destruct (md (os_path_join (ROOT_PATH self) [repo]) (initial self files)) as [tr f v] eqn:Ho.
    cbn [trace final value] in *. subst tr.
    destruct f as [ffs finput fheaders]. cbn [headers_set input initial] in *.
    subst fheaders.
    destruct v as [[]|e].
    + erewrite bind_ok; [|reflexivity].
      erewrite bind_ok;
        [|unfold os_path_exists, os_get;
          change (fs (initial self files)) with files; rewrite Hex; reflexivity].
      cbn [negb]. erewrite bind_ok; [|unfold try_except; rewrite Ho; reflexivity].
      erewrite bind_ok; [|reflexivity].
      cbn [trace final value app fs yield].
      split; [reflexivity | split; [reflexivity | by apply Hdirs]].
    + erewrite bind_ok; [|reflexivity].
      erewrite bind_ok;
        [|unfold os_path_exists, os_get;
          change (fs (initial self files)) with files; rewrite Hex; reflexivity].
      cbn [negb].
      erewrite bind_ok;
        [|unfold try_except; rewrite Ho; cbn [value trace final];
          erewrite bind_ok; [|reflexivity]; reflexivity].
      erewrite bind_raise; [|reflexivity].
      reflexivity.
Qed.

Lemma create_repository_idempotent_witness :
  (serve (application test_root (request "POST" "/testrepo" "create=true" None []))
         test_files = empty_response /\
   files_after (application test_root (request "POST" "/testrepo" "create=true" None []))
               test_files = test_files) /\
  (serve (application test_root (request "POST" "/newrepo" "create=true" None []))
         test_files = empty_response /\
   Forall (is_dir (files_after (application test_root
                                  (request "POST" "/newrepo" "create=true" None []))
                               test_files))
          ["/srv/test_backups/newrepo"; "/srv/test_backups/newrepo/data";
           "/srv/test_backups/newrepo/keys"; "/srv/test_backups/newrepo/locks";
           "/srv/test_backups/newrepo/snapshots"; "/srv/test_backups/newrepo/index"]) /\
  serve (application "/nosuch" (request "POST" "/newrepo" "create=true" None []))
        test_files
  = {| status := Some "500 INTERNAL_SERVER_ERROR";
       headers := [("Content-Type", "text/plain")];
       content := encode_utf8 "Failed to create repository.";
       fault := Some AssertionError |}.
Proof.
  split; [|split].
  - destruct (create_repository_idempotent
                (application test_root (request "POST" "/testrepo" "create=true" None []))
                test_files "create=true" "testrepo" eq_refl eq_refl eq_refl eq_refl)
      as (H & _).
    apply H. vm_compute. reflexivity.
  - destruct (create_repository_idempotent
                (application test_root (request "POST" "/newrepo" "create=true" None []))
                test_files "create=true" "newrepo" eq_refl eq_refl eq_refl eq_refl)
      as (_ & H).
    assert (Hex : Os.path_exists test_files (os_path_join test_root ["newrepo"]) = false)
      by (vm_compute; reflexivity).
    specialize (H Hex).
    assert (Hv : value (make_directories (os_path_join test_root ["newrepo"])
                          (initial (application test_root
                                      (request "POST" "/newrepo" "create=true" None []))
                                   test_files)) = Ok tt)
      by (vm_compute; reflexivity).
    cbn [ROOT_PATH application] in H. rewrite Hv in H.
    destruct H as (H1 & _ & H3). split; [exact H1 | exact H3].
  - destruct (create_repository_idempotent
                (application "/nosuch" (request "POST" "/newrepo" "create=true" None []))
                test_files "create=true" "newrepo" eq_refl eq_refl eq_refl eq_refl)
      as (_ & H).
    assert (Hex : Os.path_exists test_files (os_path_join "/nosuch" ["newrepo"]) = false)
      by (vm_compute; reflexivity).
    specialize (H Hex).
    assert (Hv : value (make_directories (os_path_join "/nosuch" ["newrepo"])
                          (initial (application "/nosuch"
                                      (request "POST" "/newrepo" "create=true" None []))
                                   test_files)) = Raise FileNotFoundError)
      by (vm_compute; reflexivity).
    cbn [ROOT_PATH application] in H. rewrite Hv in H. exact H.
Defined.

(** * Further properties of the handlers *)

(** ** [HEAD]: existence and size *)

Lemma path_exists_stat files p :
  Os.path_exists files p
  = match Os.stat files p with Ok _ => true | Raise _ => false end.
Proof. reflexivity. Qed.

(** [HEAD /{repo}/{type}/{name}] is decided by one [os.stat] of the blob's
    path: when it succeeds the answer is 200 with the size it reports as
    [Content-Length] and an empty body, when it fails the answer is 404;
    the file system is not changed. *)
Theorem head_blob_reports_stat (self : Application) (files : Os.filesystem)
        (query_string repo ty name : string) :
  REQUEST_METHOD (environ self) = Some "HEAD" ->
  QUERY_STRING (environ self) = Some query_string ->
  get_path self = Ok (Some repo, Some ty, Some name) -> ty <> "config" ->
  serve self files
  = match Os.stat files (blob_path (ROOT_PATH self) repo ty name) with
    | Ok stats =>
        {| status := Some "200 OK";
           headers := [("Content-Type", "text/plain");
                       ("Content-Length", str_of_int (Os.st_size stats))];
           content := [];
           fault := None |}
    | Raise _ => not_found_response "Requested path data does not exist."
    end /\
  files_after self files = files.
Proof.
  intros Hm Hq Hp Hty. unfold serve, files_after, iterate.
  rewrite (route_head_check self _ Hq repo ty name Hm Hp Hty).
  unfold body, get_path_check_body. fold (blob_path (ROOT_PATH self) repo ty name).
  unfold bind, os_path_exists, os_stat, os_get, initial.
  cbn [fs value final trace]. rewrite path_exists_stat.
  destruct (Os.stat files (blob_path (ROOT_PATH self) repo ty name))
    as [stats|e] eqn:Hs;
    cbn [fs value final trace]; rewrite ?Hs; split; reflexivity.
Qed.

Lemma head_blob_reports_stat_witness :
  serve (test_app "HEAD" "/testrepo/data/aa00000000000000" None []) test_files
  = {| status := Some "200 OK";
       headers := [("Content-Type", "text/plain"); ("Content-Length", "15")];
       content := [];
       fault := None |}.
Proof.
  apply (head_blob_reports_stat
           (test_app "HEAD" "/testrepo/data/aa00000000000000" None []) test_files
           EmptyString "testrepo" "data" "aa00000000000000");
    [reflexivity | reflexivity | reflexivity | discriminate].
Defined.

(** [HEAD /{repo}/config], with or without a name after [config], is
    decided the same way by the configuration file, except that a missing
    file is answered with 500. *)
Theorem head_config_reports_stat (self : Application) (files : Os.filesystem)
        (query_string repo : string) (name : option string) :
  REQUEST_METHOD (environ self) = Some "HEAD" ->
  QUERY_STRING (environ self) = Some query_string ->
  get_path self = Ok (Some repo, Some "config", name) ->
  serve self files
  = match Os.stat files (os_path_join (ROOT_PATH self) [repo; "config"]) with
    | Ok stats =>
        {| status := Some "200 OK";
           headers := [("Content-Type", "text/plain");
                       ("Content-Length", str_of_int (Os.st_size stats))];
           content := [];
           fault := None |}
    | Raise _ => error_response "Configuration does not exist."
    end /\
  files_after self files = files.
Proof.
  intros Hm Hq Hp. unfold serve, files_after, iterate.
  rewrite (route_head_config self _ Hq repo name Hm Hp).
  unfold body, config_exists_body.
  unfold bind, os_path_exists, os_stat, os_get, initial.
  cbn [fs value final trace]. rewrite path_exists_stat.
  destruct (Os.stat files _) as [stats|e] eqn:Hs;
    cbn [fs value final trace]; rewrite ?Hs; split; reflexivity.
Qed.

Lemma head_config_reports_stat_witness :
  serve (test_app "HEAD" "/testrepo/config" None []) test_files
  = {| status := Some "200 OK";
       headers := [("Content-Type", "text/plain"); ("Content-Length", "21")];
       content := [];
       fault := None |}.
Proof.
  apply (head_config_reports_stat
           (test_app "HEAD" "/testrepo/config" None []) test_files
           EmptyString "testrepo" None);
    reflexivity.
Defined.

(** ** [GET] and [HEAD] change nothing *)

Lemma keeps_ret {A} (a : A) : keeps_files (ret a).
Proof. by intros s. Qed.

Lemma keeps_raise {A} e : keeps_files (@raise A e).
Proof. by intros s. Qed.

Lemma keeps_yield chunk : keeps_files (yield chunk).
Proof. by intros s. Qed.

Lemma keeps_start_response st hs : keeps_files (start_response st hs).
Proof. intros s. unfold start_response. by destruct (headers_set s). Qed.

Lemma keeps_os_get {A} (f : Os.filesystem -> result A) : keeps_files (os_get f).
Proof. by intros s. Qed.

Lemma keeps_bind {A B} (m : gen A) (f : A -> gen B) :
  keeps_files m -> (forall a, keeps_files (f a)) -> keeps_files (bind m f).
Proof.
  intros Hm Hf s. unfold bind. specialize (Hm s).
  destruct (value (m s)) as [a|e]; cbn [final]; [|done].
  by rewrite Hf.
Qed.

Lemma keeps_for_fold {A B} (l : list A) (f : B -> A -> gen B) :
  (forall acc x, keeps_files (f acc x)) -> forall acc, keeps_files (for_fold l acc f).
Proof.
  intros Hf. induction l as [|x l IH]; intros acc; cbn [for_fold].
  - apply keeps_ret.
  - apply keeps_bind; [apply Hf | intros acc'; apply IH].
Qed.

Lemma keeps_yield_file bound : forall content pos, keeps_files (yield_file bound content pos).
Proof.
  induction bound as [|bound IH]; intros content pos; cbn [yield_file].
  - apply keeps_raise.
  - destruct (Os.file_read content pos READ_BYTES); [apply keeps_ret|].
    apply keeps_bind; [apply keeps_yield | intros _; apply IH].
Qed.

Lemma keeps_yield_range bound :
  forall content pos sent length_, keeps_files (yield_range bound content pos sent length_).
Proof.
  induction bound as [|bound IH]; intros content pos sent length_; cbn [yield_range].
  - apply keeps_raise.
  - destruct (_ || _); [apply keeps_ret|].
    apply keeps_bind; [|intros _; apply IH].
    destruct (_ >? _); apply keeps_yield.
Qed.

Ltac keeps :=
  repeat first
    [ apply keeps_ret | apply keeps_raise | apply keeps_yield
    | apply keeps_start_response | apply keeps_os_get
    | apply keeps_yield_file | apply keeps_yield_range
    | apply keeps_for_fold; intros
    | apply keeps_bind; [|intros]
    | match goal with
      | |- keeps_files (if ?b then _ else _) => destruct b
      | |- keeps_files (match ?o with Some _ => _ | None => _ end) => destruct o
      end ].

Lemma keeps_yield_error message : keeps_files (yield_error_body message).
Proof. unfold yield_error_body. keeps. Qed.

Lemma keeps_get_config self path : keeps_files (get_config_body self path).
Proof.
  unfold get_config_body, send_error, os_path_exists, os_stat, open_rb. keeps.
Qed.

Lemma keeps_config_exists self path : keeps_files (config_exists_body self path).
Proof.
  unfold config_exists_body, send_error, os_path_exists, os_stat. keeps.
Qed.

Lemma keeps_get_path_check self path ty name :
  keeps_files (get_path_check_body self path ty name).
Proof.
  unfold get_path_check_body, send_not_found, os_path_exists, os_stat. keeps.
Qed.

Lemma keeps_get_path_data self path ty name :
  keeps_files (get_path_data_body self path ty name).
Proof.
  unfold get_path_data_body, send_not_found, os_path_exists, os_stat, open_rb. keeps.
Qed.

Lemma keeps_list_results self path ty : keeps_files (list_results self path ty).
Proof.
  unfold list_results, list_entry, os_listdir, os_stat. keeps.
Qed.

Lemma keeps_get_path_list self path ty : keeps_files (get_path_list_body self path ty).
Proof.
  unfold get_path_list_body. apply keeps_bind; [apply keeps_list_results|].
  intros. keeps.
Qed.

Lemma iter_get_or_head self :
  REQUEST_METHOD (environ self) = Some "GET" \/
  REQUEST_METHOD (environ self) = Some "HEAD" ->
  reads_only (__iter__ self).
Proof.
  intros Hm. unfold __iter__, dispatch.
  destruct Hm as [Hm|Hm]; rewrite Hm; cbn [getitem rbind];
    (destruct (get_path self) as [[[path ty] name]|]; cbn [rbind]; [|done]);
    (destruct (QUERY_STRING (environ self)); cbn [getitem rbind]; [|done]);
    cbn [String.eqb Ascii.eqb Bool.eqb];
    unfold get_config, get_path_list, get_path_data, config_exists, get_path_check,
      yield_error, valid_methods; rewrite Hm; cbn [getitem str_in existsb];
    destruct path, ty as [ty|], name; try done;
    destruct (String.eqb ty "config"); done.
Qed.

(** A [GET] or [HEAD] request, whatever its path, its headers and its
    outcome, leaves the file system as it was. *)
Theorem get_and_head_change_nothing (self : Application) (files : Os.filesystem) :
  REQUEST_METHOD (environ self) = Some "GET" \/
  REQUEST_METHOD (environ self) = Some "HEAD" ->
  files_after self files = files.
Proof.
  intros Hm. apply iter_get_or_head in Hm.
  unfold files_after, iterate.
  destruct (__iter__ self); try done; cbn [body];
    lazymatch goal with
    | |- context [yield_error_body] =>
        exact (keeps_yield_error _ (initial self files))
    | |- context [config_exists_body] =>
        exact (keeps_config_exists _ _ (initial self files))
    | |- context [get_config_body] =>
        exact (keeps_get_config _ _ (initial self files))
    | |- context [get_path_list_body] =>
        exact (keeps_get_path_list _ _ _ (initial self files))
    | |- context [get_path_check_body] =>
        exact (keeps_get_path_check _ _ _ _ (initial self files))
    | |- context [get_path_data_body] =>
        exact (keeps_get_path_data _ _ _ _ (initial self files))
    end.
Qed.

Lemma get_and_head_change_nothing_witness :
  files_after (test_app "GET" "/testrepo/data" None []) test_files = test_files.
Proof.
  apply (get_and_head_change_nothing (test_app "GET" "/testrepo/data" None [])).
  left. reflexivity.
Defined.

(** ** The dispatcher *)

Lemma get_path_total self path_info :
  PATH_INFO (environ self) = Some path_info ->
  exists parsed, get_path self = Ok parsed.
Proof.
  intros H. unfold get_path. rewrite H. cbn [getitem].
  destruct (rmatch PATH_RE path_info); eauto.
Qed.

(** A method other than [GET], [POST], [DELETE] and [HEAD] is answered 500
    with [Unsupported request method.], whatever the path and the query
    string say, and changes nothing. *)
Theorem unsupported_method_is_refused (self : Application) (files : Os.filesystem)
        (method path_info query_string : string) :
  REQUEST_METHOD (environ self) = Some method ->
  PATH_INFO (environ self) = Some path_info ->
  QUERY_STRING (environ self) = Some query_string ->
  ~ In method ["GET"; "POST"; "DELETE"; "HEAD"] ->
  serve self files = error_response "Unsupported request method." /\
  files_after self files = files.
Proof.
  intros Hm Hp Hq Hnot. apply yield_error_response.
  destruct (get_path_total self _ Hp) as ([[path ty] name] & Hg).
  unfold __iter__, dispatch. rewrite Hm, Hg, Hq. cbn [getitem rbind].
  destruct (String.eqb_spec method "GET") as [->|_]; [destruct Hnot; cbn; tauto|].
  destruct (String.eqb_spec method "POST") as [->|_]; [destruct Hnot; cbn; tauto|].
  destruct (String.eqb_spec method "DELETE") as [->|_]; [destruct Hnot; cbn; tauto|].
  destruct (String.eqb_spec method "HEAD") as [->|_]; [destruct Hnot; cbn; tauto|].
  unfold yield_error. reflexivity.
Qed.

Lemma unsupported_method_is_refused_witness :
  serve (test_app "PUT" "/testrepo/keys/aa000000000" None []) test_files
  = error_response "Unsupported request method.".
Proof.
  destruct (unsupported_method_is_refused
              (test_app "PUT" "/testrepo/keys/aa000000000" None []) test_files
              "PUT" "/testrepo/keys/aa000000000" EmptyString) as (H & _).
  - reflexivity.
  - reflexivity.
  - reflexivity.
  - cbn [In]. intros [H|[H|[H|[H|[]]]]]; discriminate H.
  - exact H.
Defined.

(** A request whose environment lacks [REQUEST_METHOD], [PATH_INFO] or
    [QUERY_STRING] is caught by the [except] clause of [__iter__]: it is
    answered 500 with [Something unexpected occurred.] and changes
    nothing. *)
Theorem missing_environ_key_is_reported (self : Application) (files : Os.filesystem) :
  REQUEST_METHOD (environ self) = None \/
  PATH_INFO (environ self) = None \/
  QUERY_STRING (environ self) = None ->
  serve self files = error_response "Something unexpected occurred." /\
  files_after self files = files.
Proof.
  intros H. apply yield_error_response.
  unfold __iter__, dispatch.
  destruct (REQUEST_METHOD (environ self)) as [method|]; cbn [getitem rbind]; [|done].
  unfold get_path.
  destruct (PATH_INFO (environ self)) as [path_info|]; cbn [getitem rbind]; [|done].
  destruct (QUERY_STRING (environ self)); cbn [getitem rbind].
  - by destruct H as [H|[H|H]].
  - by destruct (rmatch PATH_RE path_info).
Qed.

Lemma missing_environ_key_is_reported_witness :
  serve (application test_root
           {| REQUEST_METHOD := Some "GET"; PATH_INFO := None;
              QUERY_STRING := Some EmptyString; HTTP_RANGE := None;
              wsgi_input := [] |})
        test_files
  = error_response "Something unexpected occurred.".
Proof.
  destruct (missing_environ_key_is_reported
              (application test_root
                 {| REQUEST_METHOD := Some "GET"; PATH_INFO := None;
                    QUERY_STRING := Some EmptyString; HTTP_RANGE := None;
                    wsgi_input := [] |})
              test_files) as (H & _).
  - right. left. reflexivity.
  - exact H.
Defined.

(** The only exception the [try] block of [__iter__] ever catches is the
    [KeyError] of a missing environment key.  In particular the guard of
    [valid_methods] never trips: [__iter__] calls each handler under the
    method the handler allows. *)
Theorem dispatch_raises_only_key_error (self : Application) (e : exn) :
  dispatch self = Raise e ->
  e = KeyError "REQUEST_METHOD" \/ e = KeyError "PATH_INFO" \/
  e = KeyError "QUERY_STRING".
Proof.
  unfold dispatch.
  destruct (REQUEST_METHOD (environ self)) as [method|] eqn:Hm;
    cbn [getitem rbind]; [|intros [= <-]; tauto].
  unfold get_path.
  destruct (PATH_INFO (environ self)) as [path_info|];
    cbn [getitem rbind]; [|intros [= <-]; tauto].
  set (parsed := match rmatch PATH_RE path_info with
                 | Some m => _ | None => _ end).
  assert (exists p, parsed = Ok p) as ([[path ty] name] & ->)
    by (subst parsed; destruct (rmatch PATH_RE path_info); eauto).
  cbn [rbind].
  destruct (QUERY_STRING (environ self)) as [query_string|];
    cbn [getitem rbind]; [|intros [= <-]; tauto].
  unfold get_config, get_path_list, get_path_data, set_config, set_path_data,
    create_repository, delete_repository, delete_path_data, config_exists,
    get_path_check, yield_error, valid_methods.
  rewrite Hm. cbn [getitem].
  destruct (String.eqb_spec method "GET") as [->|_].
  { destruct path, ty as [ty|]; try discriminate;
      destruct (String.eqb ty "config"); try discriminate;
      destruct name; discriminate. }
  destruct (String.eqb_spec method "POST") as [->|_].
  { destruct (_ && _); [discriminate|].
    destruct path, ty as [ty|]; try discriminate;
      destruct (String.eqb ty "config"); try discriminate;
      destruct name; discriminate. }
  destruct (String.eqb_spec method "DELETE") as [->|_].
  { destruct path, ty, name; discriminate. }
  destruct (String.eqb_spec method "HEAD") as [->|_].
  { destruct path, ty as [ty|]; try discriminate;
      destruct (String.eqb ty "config"); try discriminate;
      destruct name; discriminate. }
  discriminate.
Qed.

Lemma dispatch_raises_only_key_error_witness :
  KeyError "PATH_INFO" = KeyError "REQUEST_METHOD" \/
  KeyError "PATH_INFO" = KeyError "PATH_INFO" \/
  KeyError "PATH_INFO" = KeyError "QUERY_STRING".
Proof.
  apply (dispatch_raises_only_key_error
           (application test_root
              {| REQUEST_METHOD := Some "GET"; PATH_INFO := None;
                 QUERY_STRING := Some EmptyString; HTTP_RANGE := None;
                 wsgi_input := [] |})).
  reflexivity.
Defined.

(** A path that names a type other than [config] and no blob can only be
    listed: [POST], [DELETE] and [HEAD] on it are answered 500 with
    [Not Implemented], also when the query string asks to create, and
    change nothing. *)
Theorem type_directory_only_lists (self : Application) (files : Os.filesystem)
        (query_string repo ty : string) :
  REQUEST_METHOD (environ self) = Some "POST" \/
  REQUEST_METHOD (environ self) = Some "DELETE" \/
  REQUEST_METHOD (environ self) = Some "HEAD" ->
  QUERY_STRING (environ self) = Some query_string ->
  get_path self = Ok (Some repo, Some ty, None) ->
  ty <> "config" ->
  serve self files = error_response "Not Implemented" /\
  files_after self files = files.
Proof.
  intros Hm Hq Hp Hty. apply yield_error_response.
  apply String.eqb_neq in Hty.
  unfold __iter__, dispatch.
  destruct Hm as [Hm|[Hm|Hm]]; rewrite Hm, Hp, Hq;
    cbn [getitem rbind String.eqb Ascii.eqb Bool.eqb is_None andb];
    rewrite ?Hty, ?andb_false_r; reflexivity.
Qed.

Lemma type_directory_only_lists_witness :
  serve (test_app "DELETE" "/testrepo/keys" None []) test_files
  = error_response "Not Implemented".
Proof.
  destruct (type_directory_only_lists
              (test_app "DELETE" "/testrepo/keys" None []) test_files
              EmptyString "testrepo" "keys") as (H & _).
  - right. left. reflexivity.
  - reflexivity.
  - reflexivity.
  - discriminate.
  - exact H.
Defined.

(** A path without a type can be created and deleted, and nothing else:
    [GET] and [HEAD] on it are answered 500 with [Not Implemented].  So is
    a path that [PATH_RE] does not match. *)
Theorem no_type_not_implemented (self : Application) (files : Os.filesystem)
        (query_string : string) (path name : option string) :
  REQUEST_METHOD (environ self) = Some "GET" \/
  REQUEST_METHOD (environ self) = Some "HEAD" ->
  QUERY_STRING (environ self) = Some query_string ->
  get_path self = Ok (path, None, name) ->
  serve self files = error_response "Not Implemented" /\
  files_after self files = files.
Proof.
  intros Hm Hq Hp. apply yield_error_response.
  unfold __iter__, dispatch.
  destruct Hm as [Hm|Hm]; rewrite Hm, Hp, Hq;
    cbn [getitem rbind String.eqb Ascii.eqb Bool.eqb];
    by destruct path.
Qed.

Lemma no_type_not_implemented_witness :
  serve (test_app "HEAD" "/testrepo/a/b/c" None []) test_files
  = error_response "Not Implemented".
Proof.
  destruct (no_type_not_implemented
              (test_app "HEAD" "/testrepo/a/b/c" None []) test_files
              EmptyString None None) as (H & _).
  - right. reflexivity.
  - reflexivity.
  - reflexivity.
  - exact H.
Defined.

(** ** Listing *)

Lemma list_entry_ok folder_path results name s stats :
  Os.stat (fs s) (os_path_join folder_path [name]) = Ok stats ->
  list_entry folder_path results name s
  = {| trace := []; final := s;
       value := Ok (if Os.S_ISREG (Os.st_mode stats)
                    then results ++ [(name, Os.st_size stats)] else results) |}.
Proof.
  intros Hs. unfold list_entry, bind, os_stat, os_get. cbn [value final trace].
  rewrite Hs. by destruct (Os.S_ISREG (Os.st_mode stats)).
Qed.

Lemma list_entry_raise folder_path results name s e :
  Os.stat (fs s) (os_path_join folder_path [name]) = Raise e ->
  list_entry folder_path results name s
  = {| trace := []; final := s; value := Raise e |}.
Proof.
  intros Hs. unfold list_entry, bind, os_stat, os_get. cbn [value final trace].
  by rewrite Hs.
Qed.

Lemma fold_entries folder_path names :
  forall results s,
    all_exist (fs s) folder_path names = true ->
    for_fold names results (list_entry folder_path) s
    = {| trace := []; final := s;
         value := Ok (results ++ omap (regular_entry (fs s) folder_path) names) |}.
Proof.
  induction names as [|name names IH]; intros results s Hall; cbn [for_fold omap].
  - by rewrite app_nil_r.
  - cbn [all_exist forallb] in Hall. apply andb_prop in Hall as [Hname Hall].
    rewrite path_exists_stat in Hname.
    destruct (Os.stat (fs s) (os_path_join folder_path [name])) as [stats|] eqn:Hs;
      [|discriminate].
    assert (regular_entry (fs s) folder_path name
            = if Os.S_ISREG (Os.st_mode stats)
              then Some (name, Os.st_size stats) else None) as Hr
        by (unfold regular_entry; by rewrite Hs).
    erewrite bind_ok; [|by apply list_entry_ok].
    rewrite (IH _ s Hall). cbn [trace final value app omap list_omap].
    rewrite Hr. destruct (Os.S_ISREG (Os.st_mode stats)).
    + by rewrite <- app_assoc.
    + reflexivity.
Qed.

Lemma fold_entries_raise folder_path names :
  forall results s,
    all_exist (fs s) folder_path names = false ->
    exists e,
      for_fold names results (list_entry folder_path) s
      = {| trace := []; final := s; value := Raise e |}.
Proof.
  induction names as [|name names IH]; intros results s Hall; [discriminate|].
  cbn [all_exist forallb] in Hall. cbn [for_fold].
  rewrite path_exists_stat in Hall.
  destruct (Os.stat (fs s) (os_path_join folder_path [name])) as [stats|e] eqn:Hs.
  - cbn [andb] in Hall. destruct (IH (if Os.S_ISREG (Os.st_mode stats)
                                      then results ++ [(name, Os.st_size stats)]
                                      else results) s Hall) as (e & He).
    exists e. erewrite bind_ok; [|by apply list_entry_ok].
    rewrite He. reflexivity.
  - exists e. erewrite bind_raise; [reflexivity|by apply list_entry_raise].
Qed.

Lemma listing_outcome self repo ty s results :
  headers_set s = false ->
  list_results self repo ty s = {| trace := []; final := s; value := Ok results |} ->
  response_of (get_path_list_body self repo ty s) = listing_response results.
Proof.
  intros Hs H. unfold get_path_list_body.
  erewrite bind_ok; [|exact H].
  unfold bind, start_response, yield. rewrite Hs.
  unfold response_of, listing_response. cbn -[encode_utf8 json_dumps].
  by rewrite app_nil_r.
Qed.

Lemma listing_fault self repo ty s e :
  list_results self repo ty s = {| trace := []; final := s; value := Raise e |} ->
  response_of (get_path_list_body self repo ty s) = fault_response e.
Proof.
  intros H. unfold get_path_list_body.
  erewrite bind_raise; [|exact H]. reflexivity.
Qed.

Lemma list_directory folder_path results s :
  listable (fs s) folder_path = true ->
  (names <- os_listdir folder_path ;;
   for_fold names results (list_entry folder_path)) s
  = {| trace := []; final := s;
       value := Ok (results ++ directory_entries (fs s) folder_path) |}.
Proof.
  unfold listable, directory_entries. intros H.
  destruct (Os.listdir (fs s) folder_path) as [names|] eqn:Hl; [|discriminate].
  erewrite bind_ok; cycle 1.
  { unfold os_listdir, os_get. rewrite Hl. reflexivity. }
  by rewrite fold_entries.
Qed.

Lemma list_directory_raise folder_path results s :
  listable (fs s) folder_path = false ->
  exists e,
    (names <- os_listdir folder_path ;;
     for_fold names results (list_entry folder_path)) s
    = {| trace := []; final := s; value := Raise e |}.
Proof.
  unfold listable. intros H.
  destruct (Os.listdir (fs s) folder_path) as [names|e] eqn:Hl.
  - destruct (fold_entries_raise folder_path names results s H) as (e & He).
    exists e. erewrite bind_ok; cycle 1.
    { unfold os_listdir, os_get. rewrite Hl. reflexivity. }
    by rewrite He.
  - exists e. erewrite bind_raise; [reflexivity|].
    unfold os_listdir, os_get. by rewrite Hl.
Qed.

Lemma list_folders full_path s folders :
  forall results,
    forallb (fun folder => listable (fs s) (os_path_join full_path [folder])) folders
    = true ->
    for_fold folders results
      (fun results folder =>
         let folder_path := os_path_join full_path [folder] in
         names <- os_listdir folder_path ;;
         for_fold names results (list_entry folder_path)) s
    = {| trace := []; final := s;
         value := Ok (results ++
                      flat_map (fun folder =>
                                  directory_entries (fs s)
                                    (os_path_join full_path [folder])) folders) |}.
Proof.
  induction folders as [|folder folders IH]; intros results H;
    cbn [for_fold flat_map].
  - by rewrite app_nil_r.
  - cbn [forallb] in H. apply andb_prop in H as [Hfolder H].
    erewrite bind_ok; [|by apply list_directory].
    specialize (IH (results ++ directory_entries (fs s)
                                 (os_path_join full_path [folder])) H).
    cbv beta zeta in IH |- *. rewrite IH. cbn [trace final value app].
    by rewrite <- app_assoc.
Qed.

Lemma list_folders_raise full_path s folders :
  forall results,
    forallb (fun folder => listable (fs s) (os_path_join full_path [folder])) folders
    = false ->
    exists e,
      for_fold folders results
        (fun results folder =>
           let folder_path := os_path_join full_path [folder] in
           names <- os_listdir folder_path ;;
           for_fold names results (list_entry folder_path)) s
      = {| trace := []; final := s; value := Raise e |}.
Proof.
  induction folders as [|folder folders IH]; intros results H; [discriminate|].
  cbn [forallb] in H. cbn [for_fold].
  destruct (listable (fs s) (os_path_join full_path [folder])) eqn:Hfolder.
  - cbn [andb] in H.
    erewrite bind_ok; [|by apply list_directory].
    destruct (IH (results ++ directory_entries (fs s) (os_path_join full_path [folder]))
                 H) as (e & He).
    exists e. cbv beta zeta in He |- *. by rewrite He.
  - destruct (list_directory_raise _ results s Hfolder) as (e & He).
    exists e. erewrite bind_raise; [reflexivity|exact He].
Qed.

(** The listing of a type other than [data] holds, in the order of
    [os.listdir], the entries of the type directory that [os.stat] reports
    as regular files, each with the size [os.stat] reports.  [os.stat]
    follows symbolic links: a link to a regular file is listed, under the
    name of the link and with the size of the file. *)
Theorem list_reports_regular_files (self : Application) (files : Os.filesystem)
        (query_string repo ty : string) :
  REQUEST_METHOD (environ self) = Some "GET" ->
  QUERY_STRING (environ self) = Some query_string ->
  get_path self = Ok (Some repo, Some ty, None) ->
  ty <> "config" -> ty <> "data" ->
  listable files (os_path_join (ROOT_PATH self) [repo; ty]) = true ->
  serve self files
  = listing_response
      (directory_entries files (os_path_join (ROOT_PATH self) [repo; ty])).
Proof.
  intros Hm Hq Hp Hc Hd Hl. unfold serve, iterate.
  rewrite (route_get_list self _ Hq repo ty Hm Hp Hc). cbn [body].
  apply listing_outcome; [reflexivity|].
  unfold list_results. apply String.eqb_neq in Hd. rewrite Hd.
  by rewrite list_directory.
Qed.

Lemma list_reports_regular_files_witness :
  serve (test_app "GET" "/testrepo/keys" None []) linked_files
  = listing_response [("short", 3); ("link", 21); ("aa000000000", 146)].
Proof.
  rewrite (list_reports_regular_files (test_app "GET" "/testrepo/keys" None [])
             linked_files EmptyString "testrepo" "keys").
  - vm_compute. reflexivity.
  - reflexivity.
  - reflexivity.
  - reflexivity.
  - discriminate.
  - discriminate.
  - vm_compute. reflexivity.
Defined.

(** The listing of [data] goes through the entries of the [data] directory
    in the order of [os.listdir], and holds the regular files of each, under
    their own names: the name of the shard directory appears nowhere. *)
Theorem list_data_reports_shards (self : Application) (files : Os.filesystem)
        (query_string repo : string) (folders : list string) :
  REQUEST_METHOD (environ self) = Some "GET" ->
  QUERY_STRING (environ self) = Some query_string ->
  get_path self = Ok (Some repo, Some "data", None) ->
  Os.listdir files (os_path_join (ROOT_PATH self) [repo; "data"]) = Ok folders ->
  forallb (fun folder =>
             listable files (os_path_join (ROOT_PATH self) [repo; "data"; folder]))
          folders = true ->
  serve self files
  = listing_response
      (flat_map (fun folder =>
                   directory_entries files
                     (os_path_join (ROOT_PATH self) [repo; "data"; folder]))
                folders).
Proof.
  intros Hm Hq Hp Hl Hall. unfold serve, iterate.
  rewrite (route_get_list self _ Hq repo "data" Hm Hp) by discriminate. cbn [body].
  apply listing_outcome; [reflexivity|].
  unfold list_results. rewrite String.eqb_refl.
  erewrite bind_ok; cycle 1.
  { unfold os_listdir, os_get. cbn [fs initial]. rewrite Hl. reflexivity. }
  pose proof (list_folders (os_path_join (ROOT_PATH self) [repo; "data"])
                (initial self files) folders [] Hall) as H.
  cbv beta zeta in H |- *. by rewrite H.
Qed.

Lemma list_data_reports_shards_witness :
  serve (test_app "GET" "/testrepo/data" None []) test_files
  = listing_response
      [("bb00000000000000", 15); ("aa11111111111111", 15); ("aa00000000000000", 15)].
Proof.
  rewrite (list_data_reports_shards (test_app "GET" "/testrepo/data" None [])
             test_files EmptyString "testrepo" ["bb"; "aa"]).
  - vm_compute. reflexivity.
  - reflexivity.
  - reflexivity.
  - reflexivity.
  - vm_compute. reflexivity.
  - vm_compute. reflexivity.
Defined.

(** A listing is all or nothing.  When the directory to list cannot be
    listed, or one of its entries cannot be examined (a symbolic link that
    leads nowhere), or, for [data], one of its entries is not a directory
    that can be listed in this way, an exception leaves the generator:
    [start_response] has not been called and nothing has been yielded. *)
Theorem list_fails_as_a_whole (self : Application) (files : Os.filesystem)
        (query_string repo ty : string) :
  REQUEST_METHOD (environ self) = Some "GET" ->
  QUERY_STRING (environ self) = Some query_string ->
  get_path self = Ok (Some repo, Some ty, None) ->
  ty <> "config" ->
  (if String.eqb ty "data" then
     match Os.listdir files (os_path_join (ROOT_PATH self) [repo; ty]) with
     | Ok folders =>
         forallb (fun folder =>
                    listable files (os_path_join (ROOT_PATH self) [repo; ty; folder]))
                 folders
     | Raise _ => false
     end
   else listable files (os_path_join (ROOT_PATH self) [repo; ty])) = false ->
  exists e, serve self files = fault_response e /\ files_after self files = files.
Proof.
  intros Hm Hq Hp Hc Hl. unfold serve, files_after, iterate.
  rewrite (route_get_list self _ Hq repo ty Hm Hp Hc). cbn [body].
  assert (exists e, list_results self repo ty (initial self files)
                    = {| trace := []; final := initial self files; value := Raise e |})
    as (e & He).
  { unfold list_results. destruct (String.eqb ty "data").
    - destruct (Os.listdir files (os_path_join (ROOT_PATH self) [repo; ty]))
        as [folders|e] eqn:Hd.
      + destruct (list_folders_raise (os_path_join (ROOT_PATH self) [repo; ty])
                    (initial self files) folders [] Hl) as (e & He).
        exists e. erewrite bind_ok; cycle 1.
        { unfold os_listdir, os_get. cbn [fs initial]. rewrite Hd. reflexivity. }
        cbv beta zeta in He |- *. by rewrite He.
      + exists e. erewrite bind_raise; [reflexivity|].
        unfold os_listdir, os_get. cbn [fs initial]. by rewrite Hd.
    - by apply (list_directory_raise _ [] (initial self files)). }
  exists e. split.
  - by apply listing_fault.
  - unfold get_path_list_body. erewrite bind_raise; [|exact He]. reflexivity.
Qed.

Lemma list_fails_as_a_whole_witness :
  exists e,
    serve (test_app "GET" "/norepo/keys" None []) test_files = fault_response e /\
    files_after (test_app "GET" "/norepo/keys" None []) test_files = test_files.
Proof.
  apply (list_fails_as_a_whole (test_app "GET" "/norepo/keys" None [])
           test_files EmptyString "norepo" "keys").
  - reflexivity.
  - reflexivity.
  - reflexivity.
  - discriminate.
  - vm_compute. reflexivity.
Defined.

(** ** The matcher is sound *)

Lemma str_length_app a b :
  String.length (a +:+ b) = (String.length a + String.length b)%nat.
Proof. induction a as [|c a IH]; cbn; [done | by rewrite IH]. Qed.

Lemma str_app_assoc a b c : (a +:+ b) +:+ c = a +:+ (b +:+ c).
Proof. induction a as [|x a IH]; cbn; [done | by rewrite IH]. Qed.

Lemma plus_sound p s :
  forall pos k res,
    plus p pos s k = Some res ->
    exists v s', s = v +:+ s' /\ v <> EmptyString /\ Str.all p v = true /\
                 k (pos + String.length v)%nat s' = Some res.
Proof.
  induction s as [|c s IH]; intros pos k res H; cbn [plus] in H; [done|].
  destruct (p c) eqn:Hc; [|done].
  destruct (plus p (S pos) s k) as [r|] eqn:Hplus.
  - injection H as ->. destruct (IH _ _ _ Hplus) as (v & s' & -> & _ & Hall & Hk).
    exists (String c v), s'. cbn [String.append Str.all String.length].
    rewrite Hc, Hall. rewrite <- Nat.add_succ_comm. done.
  - exists (String c EmptyString), s. cbn [String.append Str.all String.length].
    rewrite Hc, Nat.add_1_r. done.
Qed.

(** A successful run of [r] has consumed a text that [r] spans and has
    called its continuation on what follows, with the groups it had and
    the groups of [r] that took part. *)
Lemma run_sound r :
  forall pos s caps (k : cont) res,
    run r pos s caps k = Some res ->
    exists v s' caps',
      s = v +:+ s' /\ spans r v /\
      k (pos + String.length v)%nat s' caps' = Some res /\
      (forall n x, group caps' n = Some x -> group caps n = Some x \/ captured r n x) /\
      (forall n, group caps n <> None \/ binds r n = true -> group caps' n <> None).
Proof.
  assert (Hsame : forall pos s caps (k : cont) res (r : regex),
             spans r EmptyString -> k pos s caps = Some res ->
             exists v s' caps',
               s = v +:+ s' /\ spans r v /\
               k (pos + String.length v)%nat s' caps' = Some res /\
               (forall n x, group caps' n = Some x ->
                            group caps n = Some x \/ captured r n x) /\
               (forall n, group caps n <> None \/ False -> group caps' n <> None)).
  { intros pos s caps k res r' Hr Hk. exists EmptyString, s, caps.
    cbn [String.append String.length]. rewrite Nat.add_0_r.
    repeat split; [done | done | by left | by intros n [|[]]]. }
  induction r as [| |l|p|r IH|r1 IH1 r2 IH2|r1 IH1 r2 IH2|name r IH];
    intros pos s caps k res H; cbn [run] in H.
  - destruct (Nat.eqb pos 0); [|done].
    destruct (Hsame pos s caps k res Bol eq_refl H) as (v & s' & caps' & ? & ? & ? & ? & Hb).
    exists v, s', caps'. repeat split; try done. intros n [Hn|Hn]; [|done]. apply Hb. by left.
  - assert (k pos s caps = Some res) as Hk.
    { destruct s as [|c [|c' s]]; [done | | done].
      by destruct (Ascii.eqb c Str.newline). }
    destruct (Hsame pos s caps k res Eol eq_refl Hk) as (v & s' & caps' & ? & ? & ? & ? & Hb).
    exists v, s', caps'. repeat split; try done. intros n [Hn|Hn]; [|done]. apply Hb. by left.
  - destruct (Str.startswith l s) eqn:Hl; [|done].
    exists l, (Str.drop (String.length l) s), caps.
    repeat split; [by apply startswith_split | done | by left | by intros n [|]].
  - apply plus_sound in H as (v & s' & -> & Hv & Hall & Hk).
    exists v, s', caps. repeat split; [done | done | done | by left | by intros n [|]].
  - destruct (run r pos s caps k) as [c|] eqn:Hrun.
    + injection H as ->.
      destruct (IH _ _ _ _ _ Hrun) as (v & s' & caps' & -> & Hv & Hk & Hg & Hb).
      exists v, s', caps'. repeat split; [by right | done | done |].
      intros n [Hn|Hn]; [|done]. apply Hb. by left.
    + destruct (Hsame pos s caps k res (Opt r) (or_introl eq_refl) H)
        as (v & s' & caps' & ? & ? & ? & ? & Hb).
      exists v, s', caps'. repeat split; try done.
      intros n [Hn|Hn]; [|done]. apply Hb. by left.
  - cbn [spans captured binds].
    destruct (run r1 pos s caps k) as [c|] eqn:Hrun.
    + injection H as ->.
      destruct (IH1 _ _ _ _ _ Hrun) as (v & s' & caps' & -> & Hv & Hk & Hg & Hb).
      exists v, s', caps'. repeat split; [by left | done | |].
      * intros n x Hx. destruct (Hg n x Hx); [by left | right; by left].
      * intros n [Hn|Hn]; apply Hb; [by left|]. right.
        by apply andb_prop in Hn as [-> _].
    + destruct (IH2 _ _ _ _ _ H) as (v & s' & caps' & -> & Hv & Hk & Hg & Hb).
      exists v, s', caps'. repeat split; [by right | done | |].
      * intros n x Hx. destruct (Hg n x Hx); [by left | right; by right].
      * intros n [Hn|Hn]; apply Hb; [by left|]. right.
        by apply andb_prop in Hn as [_ ->].
  - cbn [spans captured binds].
    destruct (IH1 _ _ _ _ _ H) as (v1 & s1 & caps1 & -> & Hv1 & Hk1 & Hg1 & Hb1).
    destruct (IH2 _ _ _ _ _ Hk1) as (v2 & s2 & caps2 & -> & Hv2 & Hk2 & Hg2 & Hb2).
    exists (v1 +:+ v2), s2, caps2.
    rewrite str_length_app, Nat.add_assoc, str_app_assoc.
    repeat split; [by exists v1, v2 | done | |].
    + intros n x Hx. destruct (Hg2 n x Hx) as [Hx1|Hx2]; [|right; by right].
      destruct (Hg1 n x Hx1); [by left | right; by left].
    + intros n [Hn|Hn].
      * apply Hb2. left. apply Hb1. by left.
      * apply orb_prop in Hn as [Hn|Hn].
        -- apply Hb2. left. apply Hb1. by right.
        -- apply Hb2. by right.
  - cbn [spans captured binds].
    destruct (IH _ _ _ _ _ H) as (v & s' & caps' & -> & Hv & Hk & Hg & Hb).
    rewrite Nat.add_comm, Nat.add_sub, str_take_app_length in Hk.
    exists v, s', ((name, v) :: caps'). rewrite Nat.add_comm.
    repeat split; [done | done | |].
    + intros n x. cbn [group].
      destruct (String.eqb_spec name n) as [->|Hn].
      * intros [= <-]. right. by left.
      * intros Hx. destruct (Hg n x Hx); [by left | right; by right].
    + intros n Hn. cbn [group].
      destruct (String.eqb_spec name n) as [->|Hne]; [done|].
      apply Hb. destruct Hn as [Hn|Hn]; [by left|]. by right.
Qed.

Lemma rmatch_sound r s m :
  rmatch r s = Some m ->
  (forall n x, group m n = Some x -> captured r n x) /\
  (forall n, binds r n = true -> group m n <> None).
Proof.
  intros H. apply run_sound in H as (v & s' & caps' & _ & _ & [= ->] & Hg & Hb).
  split.
  - intros n x Hx. by destruct (Hg n x Hx).
  - intros n Hn. apply Hb. by right.
Qed.

(** Whatever [PATH_INFO] holds, the components [get_path] returns are path
    segments: not empty and free of slashes.  The type is one of
    [RESTIC_TYPES], and a type or a name never comes without a path. *)
Theorem get_path_returns_segments (self : Application)
        (path restic_type name : option string) :
  get_path self = Ok (path, restic_type, name) ->
  (forall p, path = Some p -> segment p) /\
  (forall t, restic_type = Some t -> In t RESTIC_TYPES) /\
  (forall n, name = Some n -> segment n) /\
  (path = None -> restic_type = None /\ name = None).
Proof.
  unfold get_path. destruct (PATH_INFO (environ self)) as [path_info|]; [|done].
  cbn [getitem]. destruct (rmatch PATH_RE path_info) as [m|] eqn:Hm.
  - apply rmatch_sound in Hm as [Hg Hb]. intros [= <- <- <-].
    split; [|split; [|split]].
    + intros x Hx. apply Hg in Hx. cbn in Hx. unfold segment.
      intuition discriminate.
    + intros x Hx. apply Hg in Hx. cbn in Hx |- *.
      intuition (try discriminate; subst; tauto).
    + intros x Hx. apply Hg in Hx. cbn in Hx. unfold segment.
      intuition discriminate.
    + intros Hp. by destruct (Hb "path" eq_refl).
  - intros [= <- <- <-]. split; [|split; [|split]]; done.
Qed.

Lemma get_path_returns_segments_witness :
  segment "testrepo" /\ In "keys" RESTIC_TYPES /\ segment "aa000000000".
Proof.
  destruct (get_path_returns_segments
              (test_app "GET" "/testrepo/keys/aa000000000" None [])
              (Some "testrepo") (Some "keys") (Some "aa000000000") eq_refl)
    as (Hpath & Htype & Hname & _).
  split; [|split].
  - apply Hpath. reflexivity.
  - apply Htype. reflexivity.
  - apply Hname. reflexivity.
Defined.




(** ** Deleting *)

(** Where a path leads when a link in last position is not followed: to
    the same object, or to the link. *)
Lemma walk_nofollow t :
  forall links cur rest xf,
    Os.walk t true links cur rest = Ok xf ->
    match Os.walk t false links cur rest with
    | Ok x => x = xf \/ exists target, t !! x = Some (Os.Symlink target) /\ x <> []
    | Raise _ => False
    end.
Proof.
  induction links as [|links IHlinks];
    (intros cur rest; revert cur;
     induction rest as [|c rest IHrest]; intros cur xf Hwalk;
     [rewrite walk_nil in *; injection Hwalk as <-; by left|]);
    rewrite walk_cons in Hwalk; rewrite walk_cons;
    (destruct (Os.node_at t cur) as [[| |]|] eqn:Hcur; try done);
    (destruct (String.eqb c "."); [by apply IHrest|]);
    (destruct (String.eqb c ".."); [by apply IHrest|]);
    (destruct (t !! (cur ++ [c])) as [[| |target]|] eqn:Hc; try done;
     try (by apply IHrest));
    cbn [orb] in *; try done.
  - destruct rest; [|done]. injection Hwalk as <-. by left.
  - destruct (bool_decide (rest = [])); cbn [negb]; [|by apply IHlinks].
    right. exists target. split; [done | apply snoc_nonroot].
  - destruct rest; [|done]. injection Hwalk as <-. by left.
Qed.

(** Once the object a path leads to is removed, the path leads nowhere. *)
Lemma walk_delete t x :
  x <> [] ->
  (forall n, t !! x = Some n -> n <> Os.Dir) ->
  forall links cur rest,
    Os.walk t false links cur rest = Ok x ->
    match Os.walk (delete x t) true links cur rest with
    | Ok y => y = x
    | Raise _ => True
    end.
Proof.
  intros Hroot Hx.
  assert (Hdir : forall cur, Os.node_at t cur = Some Os.Dir ->
                             Os.node_at (delete x t) cur = Some Os.Dir).
  { intros cur Hcur. destruct cur as [|a cur]; [done|].
    cbn [Os.node_at] in *. rewrite lookup_delete_ne; [done|].
    intros ->. by destruct (Hx _ Hcur). }
  induction links as [|links IHlinks];
    (intros cur rest; revert cur;
     induction rest as [|c rest IHrest]; intros cur Hwalk;
     [by rewrite walk_nil in *; injection Hwalk as <-|]);
    rewrite walk_cons in Hwalk; rewrite walk_cons;
    (destruct (Os.node_at t cur) as [[| |]|] eqn:Hcur; try done);
    rewrite (Hdir _ Hcur);
    (destruct (String.eqb c "."); [by apply IHrest|]);
    (destruct (String.eqb c ".."); [by apply IHrest|]);
    (destruct (decide (cur ++ [c] = x)) as [Heq|Hne];
     [ rewrite Heq in *; rewrite lookup_delete_eq; by destruct rest
     | rewrite lookup_delete_ne by done;
       destruct (t !! (cur ++ [c])) as [[| |target]|] eqn:Hc; try done;
       try (by apply IHrest);
       cbn [orb] in *;
       try (destruct (bool_decide (rest = [])); cbn [negb] in *;
            [by injection Hwalk as <- | try done]);
       try (destruct rest; [by injection Hwalk as <- | done]) ]).
  by apply IHlinks.
Qed.

Lemma unlink_removes files p data :
  Os.holds files p data ->
  exists files', Os.unlink files p = Ok files' /\ Os.path_exists files' p = false.
Proof.
  intros (xf & Hres & Hnode). unfold Os.unlink, Os.path_exists, Os.stat, Os.resolve in *.
  destruct p as [|a p]; [done|].
  set (cur := if Str.startswith "/" (String a p) then [] else Os.cwd files) in *.
  pose proof (walk_nofollow _ _ _ _ _ Hres) as Hcase.
  destruct (Os.walk (Os.tree files) false Os.MAXSYMLINKS cur
              (Os.components (String a p))) as [x|] eqn:Hx; [|done].
  assert (x <> [] /\ exists n, Os.node_at (Os.tree files) x = Some n /\ n <> Os.Dir /\
                               Os.tree files !! x = Some n) as (Hroot & n & Hn & Hnd & Hl).
  { destruct Hcase as [->|(target & Htarget & Hroot)].
    - assert (xf <> []) by (intros ->; done).
      split; [done|]. exists (Os.File data). rewrite <- node_at_nonroot by done. done.
    - split; [done|]. exists (Os.Symlink target).
      by rewrite node_at_nonroot by done. }
  rewrite Hn. exists (Os.set_tree files (delete x (Os.tree files))).
  split; [by destruct n|].
  cbn [Os.tree Os.set_tree Os.cwd]. fold cur.
  pose proof (walk_delete (Os.tree files) x Hroot) as Hd.
  specialize (Hd (fun n' Hn' => ltac:(congruence)) _ _ _ Hx).
  destruct (Os.walk (delete x (Os.tree files)) true Os.MAXSYMLINKS cur
              (Os.components (String a p))) as [y|]; [|done].
  subst y. rewrite node_at_nonroot by done. by rewrite lookup_delete_eq.
Qed.

(** [DELETE] of a named blob that is there (the path leads to a regular
    file, perhaps through a symbolic link) is answered 200 with an empty
    body, and afterwards the path of the blob does not exist. *)
Theorem delete_removes_blob (self : Application) (files : Os.filesystem)
        (query_string repo ty name : string) (data : bytes) :
  REQUEST_METHOD (environ self) = Some "DELETE" ->
  QUERY_STRING (environ self) = Some query_string ->
  get_path self = Ok (Some repo, Some ty, Some name) ->
  Os.holds files (blob_path (ROOT_PATH self) repo ty name) data ->
  serve self files = empty_response /\
  Os.path_exists (files_after self files) (blob_path (ROOT_PATH self) repo ty name)
  = false.
Proof.
  intros Hm Hq Hp Hholds. unfold serve, files_after, iterate.
  rewrite (route_delete_data self _ Hq repo ty name Hm Hp). cbn [body].
  destruct (unlink_removes _ _ _ Hholds) as (files' & Hunlink & Hgone).
  apply holds_path_exists in Hholds. unfold blob_path in *.
  unfold delete_path_data_body.
  set (full_path := if String.eqb ty "data" then _ else _) in *.
  erewrite bind_ok; cycle 1.
  { unfold os_path_exists, os_get. cbn [fs initial]. rewrite Hholds. reflexivity. }
  cbn [trace final value app].
  erewrite bind_ok; cycle 1.
  { unfold os_unlink, os_put. cbn [fs initial]. rewrite Hunlink. reflexivity. }
  cbn [trace final value app fs bind start_response yield headers_set].
  split; [reflexivity | exact Hgone].
Qed.

Lemma delete_removes_blob_witness :
  serve (test_app "DELETE" "/testrepo/keys/aa000000000" None []) test_files
  = empty_response /\
  Os.path_exists
    (files_after (test_app "DELETE" "/testrepo/keys/aa000000000" None []) test_files)
    (blob_path test_root "testrepo" "keys" "aa000000000") = false.
Proof.
  apply (delete_removes_blob (test_app "DELETE" "/testrepo/keys/aa000000000" None [])
           test_files EmptyString "testrepo" "keys" "aa000000000"
           (encode_utf8 test_contents)).
  - reflexivity.
  - reflexivity.
  - reflexivity.
  - exact test_key_holds.
Defined.

Lemma lookup_below_removed (t : gmap (list string) Os.node) x k :
  x `prefix_of` k ->
  filter (fun kv : list string * Os.node => ¬ x `prefix_of` fst kv) t !! k = None.
Proof.
  intros Hk. apply map_lookup_filter_None. right. intros n _ Hn. by apply Hn.
Qed.

Lemma lookup_beside_removed (t : gmap (list string) Os.node) x k :
  ¬ x `prefix_of` k ->
  filter (fun kv : list string * Os.node => ¬ x `prefix_of` fst kv) t !! k = t !! k.
Proof.
  intros Hk. destruct (t !! k) as [n|] eqn:Hn.
  - by apply map_lookup_filter_Some.
  - apply map_lookup_filter_None. by left.
Qed.

(** Once a directory is removed with all it holds, the path that led to it
    leads nowhere. *)
Lemma walk_rmtree t x :
  x <> [] ->
  forall links cur rest,
    Os.walk t false links cur rest = Ok x ->
    match Os.walk (filter (fun kv : list string * Os.node => ¬ x `prefix_of` fst kv) t)
                  true links cur rest with
    | Ok y => x `prefix_of` y
    | Raise _ => True
    end.
Proof.
  intros Hroot.
  induction links as [|links IHlinks];
    (intros cur rest; revert cur;
     induction rest as [|c rest IHrest]; intros cur Hwalk;
     [by rewrite walk_nil in *; injection Hwalk as <-|]);
    rewrite walk_cons in Hwalk; rewrite walk_cons;
    (destruct (Os.node_at t cur) as [[| |]|] eqn:Hcur; try done);
    (destruct (decide (x `prefix_of` cur)) as [Hin|Hout];
     [ rewrite node_at_nonroot by (intros ->; by apply prefix_nil_inv in Hin);
       by rewrite lookup_below_removed
     | replace (Os.node_at _ cur) with (Some Os.Dir)
         by (destruct cur; [done | cbn [Os.node_at] in *;
                                   by rewrite lookup_beside_removed]) ]);
    (destruct (String.eqb c "."); [by apply IHrest|]);
    (destruct (String.eqb c ".."); [by apply IHrest|]);
    (destruct (decide (x `prefix_of` cur ++ [c])) as [Hin'|Hout'];
     [ rewrite lookup_below_removed by done; by destruct rest
     | rewrite lookup_beside_removed by done;
       destruct (t !! (cur ++ [c])) as [[| |target]|] eqn:Hc; try done;
       try (by apply IHrest);
       cbn [orb] in *;
       try (destruct (bool_decide (rest = [])); cbn [negb] in *;
            [by injection Hwalk as <- | try done]);
       try (destruct rest; [by injection Hwalk as <- | done]) ]).
  by apply IHlinks.
Qed.

Lemma rmtree_removes files p files' :
  Os.rmtree files p = Ok files' -> Os.path_exists files' p = false.
Proof.
  unfold Os.rmtree, Os.path_exists, Os.stat, Os.resolve.
  destruct p as [|a p]; [done|].
  set (cur := if Str.startswith "/" (String a p) then [] else Os.cwd files).
  destruct (Os.walk (Os.tree files) false Os.MAXSYMLINKS cur
              (Os.components (String a p))) as [x|] eqn:Hx; [|done].
  destruct (Os.node_at (Os.tree files) x) as [[| |]|]; try done.
  destruct (decide (x = [])) as [->|Hroot]; [done|].
  destruct x as [|b x]; [done|]. intros [= <-].
  cbn [Os.tree Os.set_tree Os.cwd]. fold cur.
  pose proof (walk_rmtree (Os.tree files) (b :: x) Hroot _ _ _ Hx) as Hd.
  destruct (Os.walk _ true Os.MAXSYMLINKS cur (Os.components (String a p)))
    as [y|]; [|done].
  rewrite node_at_nonroot by (intros ->; by apply prefix_nil_inv in Hd).
  by rewrite lookup_below_removed.
Qed.



(** ** Paths made by [os.path.join] *)

Lemma split_aux_app sep x y :
  forall cur,
    Str.split_aux sep cur (x +:+ String sep y)
    = Str.split_aux sep cur x ++ Str.split sep y.
Proof.
  induction x as [|c x IH]; intros cur; cbn [String.append Str.split_aux].
  - by rewrite Ascii.eqb_refl.
  - destruct (Ascii.eqb c sep); [|apply IH].
    cbn [app]. f_equal. apply IH.
Qed.

Lemma str_rev_app s : forall acc r, String.rev_app s acc +:+ r = String.rev_app s (acc +:+ r).
Proof. induction s as [|c s IH]; intros acc r; cbn [String.rev_app]; [done | apply IH]. Qed.

Lemma str_rev_app_cons cur c s :
  String.rev (String c cur) +:+ s = String.rev cur +:+ String c s.
Proof. unfold String.rev. cbn [String.rev_app]. by rewrite !str_rev_app. Qed.

Lemma split_aux_segment sep s :
  forall cur,
    Str.all (fun c => negb (Ascii.eqb c sep)) s = true ->
    Str.split_aux sep cur s = [String.rev cur +:+ s].
Proof.
  induction s as [|c s IH]; intros cur Hs; cbn [Str.split_aux Str.all] in *.
  - by rewrite append_empty.
  - apply andb_prop in Hs as [Hc Hs]. apply negb_true_iff in Hc. rewrite Hc.
    rewrite IH by done. by rewrite str_rev_app_cons.
Qed.

Lemma components_slash x y :
  Os.components (x +:+ String slash y) = Os.components x ++ Os.components y.
Proof.
  unfold Os.components, Str.split. rewrite split_aux_app.
  apply List.filter_app.
Qed.

Lemma components_segment seg : segment seg -> Os.components seg = [seg].
Proof.
  intros [Hall Hne]. unfold Os.components, Str.split.
  rewrite split_aux_segment by exact Hall.
  cbn [String.rev String.append List.filter]. by destruct seg.
Qed.

Lemma last_slash x c : Str.last x = Some c -> exists x', x = x' +:+ String c EmptyString.
Proof.
  induction x as [|a x IH]; [done|]. cbn [Str.last].
  destruct x as [|b x].
  - intros [= ->]. by exists EmptyString.
  - intros H. destruct (IH H) as (x' & Hx'). exists (String a x').
    cbn [String.append]. by rewrite <- Hx'.
Qed.

Lemma last_none x : Str.last x = None -> x = EmptyString.
Proof.
  induction x as [|a x IH]; [done|]. cbn [Str.last].
  destruct x as [|b x]; [done|]. intros H. by specialize (IH H).
Qed.

Lemma segment_no_slash seg : segment seg -> Str.startswith "/" seg = false.
Proof.
  intros [Hall Hne]. destruct seg as [|c seg]; [done|].
  cbn [Str.all Str.startswith] in *. apply andb_prop in Hall as [Hc _].
  unfold not_slash in Hc. apply negb_true_iff in Hc.
  change "/"%char with slash. rewrite Ascii.eqb_sym. by rewrite Hc.
Qed.

(** Joining a segment to a path adds one component to it. *)
Lemma components_join x seg :
  segment seg -> Os.components (join2 x seg) = Os.components x ++ [seg].
Proof.
  intros Hseg. unfold join2. rewrite (segment_no_slash _ Hseg).
  rewrite <- (components_segment seg Hseg).
  destruct (Str.last x) as [c|] eqn:Hlast.
  - destruct (Ascii.eqb_spec c slash) as [->|Hc].
    + apply last_slash in Hlast as (x' & ->).
      rewrite str_app_assoc. cbn [String.append].
      rewrite components_slash.
      rewrite (components_slash x' EmptyString).
      cbn. by rewrite app_nil_r.
    + change (x +:+ "/" +:+ seg) with (x +:+ String slash seg).
      apply components_slash.
  - apply last_none in Hlast as ->. cbn [String.append].
    reflexivity.
Qed.

Lemma join_nonempty x seg : segment seg -> join2 x seg <> EmptyString.
Proof.
  intros Hseg. unfold join2. rewrite (segment_no_slash _ Hseg).
  destruct Hseg as [_ Hne].
  assert (forall a b, b <> EmptyString -> a +:+ b <> EmptyString) as Happ
      by (intros [|] b; cbn; done).
  destruct (Str.last x) as [c|]; [destruct (Ascii.eqb c slash)|];
    repeat apply Happ; done.
Qed.

Lemma join_absolute x seg :
  segment seg -> x <> EmptyString ->
  Str.startswith "/" (join2 x seg) = Str.startswith "/" x.
Proof.
  intros Hseg Hx. unfold join2. rewrite (segment_no_slash _ Hseg).
  destruct x as [|a x]; [done|].
  destruct (Str.last (String a x)) as [c|]; [destruct (Ascii.eqb c slash)|]; done.
Qed.

(** Resolving a path that ends in a plain name: the path before the name
    leads to a directory, and the directory has an entry of that name. *)
Lemma walk_last_child t n :
  n <> "." -> n <> ".." ->
  forall links cur cs x,
    Os.walk t true links cur (cs ++ [n]) = Ok x ->
    Os.node_at t x <> None ->
    match Os.walk t true links cur cs with
    | Ok d => Os.node_at t d = Some Os.Dir /\ t !! (d ++ [n]) <> None
    | Raise _ => False
    end.
Proof.
  intros Hdot Hdots. apply String.eqb_neq in Hdot, Hdots.
  induction links as [|links IHlinks];
    (intros cur cs; revert cur;
     induction cs as [|c cs IHcs]; intros cur x Hwalk Hx;
     [ rewrite walk_nil; cbn [app] in Hwalk; rewrite walk_cons in Hwalk;
       destruct (Os.node_at t cur) as [[| |]|] eqn:Hcur; try done;
       rewrite Hdot, Hdots in Hwalk; split; [done|];
       intros Hn; rewrite Hn in Hwalk; injection Hwalk as <-;
       by rewrite (node_at_nonroot _ _ (snoc_nonroot cur n)), Hn in Hx
     | ]);
    cbn [app] in Hwalk; rewrite walk_cons in Hwalk; rewrite walk_cons;
    (destruct (Os.node_at t cur) as [[| |]|] eqn:Hcur; try done);
    (destruct (String.eqb c "."); [by eapply IHcs|]);
    (destruct (String.eqb c ".."); [by eapply IHcs|]);
    (destruct (t !! (cur ++ [c])) as [[| |target]|] eqn:Hc; try done;
     try (by eapply IHcs));
    cbn [orb] in *; try done;
    try (by destruct cs).
  rewrite app_assoc in Hwalk. by eapply IHlinks.
Qed.

Lemma child_name_snoc d n : Os.child_name d (d ++ [n]) = Some n.
Proof. induction d as [|a d IH]; cbn; [done | by rewrite String.eqb_refl]. Qed.

Lemma elem_of_children (t : gmap (list string) Os.node) d n :
  t !! (d ++ [n]) <> None -> In n (Os.children t d).
Proof.
  intros Hn. destruct (t !! (d ++ [n])) as [v|] eqn:Hv; [|done].
  apply list_elem_of_In. unfold Os.children. apply list_elem_of_omap.
  exists (d ++ [n], v). split; [by apply elem_of_map_to_list|].
  cbn [fst]. apply child_name_snoc.
Qed.

Lemma resolve_nonempty files follow p :
  p <> EmptyString ->
  Os.resolve files follow p
  = Os.walk (Os.tree files) follow Os.MAXSYMLINKS
            (if Str.startswith "/" p then [] else Os.cwd files) (Os.components p).
Proof. by destruct p. Qed.

(** What exists under a plain name is an entry of its directory. *)
Lemma exists_listed files dir name :
  segment name -> name <> "." -> name <> ".." -> dir <> EmptyString ->
  Os.path_exists files (join2 dir name) = true ->
  exists names, Os.listdir files dir = Ok names /\ In name names.
Proof.
  intros Hseg Hdot Hdots Hdir Hex. rewrite path_exists_stat in Hex.
  unfold Os.stat, Os.listdir in *.
  rewrite resolve_nonempty in Hex by (by apply join_nonempty).
  rewrite resolve_nonempty by done.
  rewrite join_absolute, components_join in Hex by done.
  destruct (Os.walk _ true _ _ (Os.components dir ++ [name])) as [x|] eqn:Hwalk;
    [|done].
  apply (walk_last_child _ _ Hdot Hdots) in Hwalk; [|by destruct (Os.node_at _ x)].
  destruct (Os.walk _ true _ _ (Os.components dir)) as [d|]; [|done].
  destruct Hwalk as [-> Hn]. eexists. split; [reflexivity|].
  by apply elem_of_children.
Qed.

Lemma listdir_exists files dir names :
  Os.listdir files dir = Ok names -> Os.path_exists files dir = true.
Proof.
  rewrite path_exists_stat. unfold Os.listdir, Os.stat.
  destruct (Os.resolve files true dir) as [d|]; [|done].
  by destruct (Os.node_at (Os.tree files) d) as [[| |]|].
Qed.

Lemma take_segment n s : segment s -> (0 < n)%nat -> segment (Str.take n s).
Proof.
  intros [Hall Hne] Hn. split.
  - clear Hne Hn. revert n. induction s as [|c s IH]; intros [|n]; cbn in *; try done.
    apply andb_prop in Hall as [-> Hall]. by apply IH.
  - destruct s, n; cbn; try done. lia.
Qed.

Lemma type_segment ty : In ty RESTIC_TYPES -> segment ty.
Proof.
  cbn. intros [<-|[<-|[<-|[<-|[<-|[<-|[]]]]]]]; by split.
Qed.

Lemma path_re_groups s m :
  rmatch PATH_RE s = Some m ->
  (forall x, group m "type" = Some x -> In x RESTIC_TYPES) /\
  (forall x, group m "name" = Some x -> segment x).
Proof.
  intros H. apply rmatch_sound in H as [Hg _]. split.
  - intros x Hx. apply Hg in Hx. cbn in Hx |- *.
    intuition (try discriminate; subst; tauto).
  - intros x Hx. apply Hg in Hx. cbn in Hx. unfold segment. intuition discriminate.
Qed.

Lemma get_path_type_name self path ty name :
  get_path self = Ok (path, Some ty, Some name) -> segment ty /\ segment name.
Proof.
  unfold get_path. destruct (PATH_INFO (environ self)) as [path_info|]; [|done].
  cbn [getitem]. destruct (rmatch PATH_RE path_info) as [m|] eqn:Hm; [|done].
  apply path_re_groups in Hm as [Ht Hn]. intros [= _ Hty Hname].
  split; [apply type_segment|]; auto.
Qed.

Lemma entry_of_held files dir name data :
  Os.holds files (join2 dir name) data ->
  regular_entry files dir name = Some (name, len data).
Proof.
  intros H. apply holds_stat in H. unfold regular_entry.
  cbn [os_path_join fold_left]. by rewrite H.
Qed.

Lemma held_is_listed files dir name data :
  segment name -> name <> "." -> name <> ".." -> dir <> EmptyString ->
  Os.holds files (join2 dir name) data ->
  In (name, len data) (directory_entries files dir).
Proof.
  intros Hseg Hdot Hdots Hdir Hholds.
  destruct (exists_listed files dir name Hseg Hdot Hdots Hdir
              (holds_path_exists _ _ _ Hholds)) as (names & Hl & Hin).
  unfold directory_entries. rewrite Hl.
  apply list_elem_of_In, list_elem_of_omap. exists name.
  split; [by apply list_elem_of_In | by apply entry_of_held].
Qed.

Lemma take_two_dot name : Str.take 2 name = "." -> name = ".".
Proof.
  destruct name as [|c [|c' name]]; cbn; try done.
Qed.

(** ** What is written is listed *)

(** A blob that has been written is in the listing of its type, under its
    name and with the length of what was written, provided the name is an
    ordinary one: not [.] or [..], and for [data] not one that begins with
    [..], whose shard would be the parent directory. *)
Theorem written_blob_is_listed (writer lister : Application) (files : Os.filesystem)
        (query_w query_l repo ty name : string) :
  REQUEST_METHOD (environ writer) = Some "POST" ->
  QUERY_STRING (environ writer) = Some query_w ->
  get_path writer = Ok (Some repo, Some ty, Some name) ->
  REQUEST_METHOD (environ lister) = Some "GET" ->
  QUERY_STRING (environ lister) = Some query_l ->
  get_path lister = Ok (Some repo, Some ty, None) ->
  ROOT_PATH lister = ROOT_PATH writer ->
  ty <> "config" ->
  name <> "." -> name <> ".." -> (ty = "data" -> Str.take 2 name <> "..") ->
  fault (serve writer files) = None ->
  fault (serve lister (files_after writer files)) = None ->
  exists results,
    serve lister (files_after writer files) = listing_response results /\
    In (name, len (wsgi_input (environ writer))) results.
Proof.
  intros Hmw Hqw Hpw Hml Hql Hpl Hroot Hty Hdot Hdots Hshard Hfw.
  destruct (get_path_type_name _ _ _ _ Hpw) as [Htyseg Hseg].
  unfold serve, files_after, iterate in *.
  rewrite (route_post_data writer _ Hqw repo ty name Hmw Hpw Hty) in *.
  rewrite (route_get_list lister _ Hql repo ty Hml Hpl Hty).
  apply fault_none_value, set_path_data_ok in Hfw.
  cbn [input initial] in Hfw.
  set (files' := fs (final (body writer (Set_path_data repo ty name)
                                 (initial writer files)))) in *.
  set (data := wsgi_input (environ writer)) in *.
  cbn [body]. unfold blob_path in Hfw. rewrite <- Hroot in Hfw.
  set (full_path := os_path_join (ROOT_PATH lister) [repo; ty]).
  assert (full_path <> EmptyString) as Hfull by (by apply join_nonempty).
  intros Hfl.
  assert (forall results,
             list_results lister repo ty (initial lister files')
             = {| trace := []; final := initial lister files'; value := Ok results |} ->
             In (name, len data) results ->
             exists results,
               response_of (get_path_list_body lister repo ty (initial lister files'))
               = listing_response results /\ In (name, len data) results) as Hok.
  { intros results Hr Hin. exists results. split; [|done].
    by apply listing_outcome. }
  assert (forall e,
             list_results lister repo ty (initial lister files')
             = {| trace := []; final := initial lister files'; value := Raise e |} ->
             False) as Hbad.
  { intros e He. apply listing_fault in He. rewrite He in Hfl. discriminate. }
  clear Hfl. unfold list_results in Hok, Hbad. fold full_path in Hok, Hbad.
  destruct (String.eqb_spec ty "data") as [->|Hdata].
  - specialize (Hshard eq_refl).
    change (os_path_join (ROOT_PATH lister) [repo; "data"; Str.take 2 name; name])
      with (join2 (join2 full_path (Str.take 2 name)) name) in Hfw.
    assert (segment (Str.take 2 name)) as Hsh by (apply take_segment; [done | lia]).
    assert (Str.take 2 name <> ".") as Hshdot
        by (intros H; by apply take_two_dot in H).
    pose proof (join_nonempty full_path _ Hsh) as Hshard_path.
    pose proof (held_is_listed _ _ _ _ Hseg Hdot Hdots Hshard_path Hfw) as Hin.
    destruct (exists_listed _ _ _ Hseg Hdot Hdots Hshard_path
                (holds_path_exists _ _ _ Hfw)) as (names & Hnames & _).
    apply listdir_exists in Hnames.
    destruct (exists_listed _ _ _ Hsh Hshdot Hshard Hfull Hnames)
      as (folders & Hfolders & Hfolder).
    destruct (forallb (fun folder => listable files' (os_path_join full_path [folder]))
                      folders) eqn:Hall.
    + apply (Hok (flat_map (fun folder =>
                              directory_entries files' (os_path_join full_path [folder]))
                           folders)).
      * erewrite bind_ok; cycle 1.
        { unfold os_listdir, os_get. cbn [fs initial]. rewrite Hfolders. reflexivity. }
        pose proof (list_folders full_path (initial lister files') folders [] Hall) as H.
        cbv beta zeta in H |- *. by rewrite H.
      * apply in_flat_map. by exists (Str.take 2 name).
    + destruct (list_folders_raise full_path (initial lister files') folders [] Hall)
        as (e & He).
      destruct (Hbad e). erewrite bind_ok; cycle 1.
      { unfold os_listdir, os_get. cbn [fs initial]. rewrite Hfolders. reflexivity. }
      cbv beta zeta in He |- *. by rewrite He.
  - cbv iota in Hfw, Hok, Hbad.
    change (os_path_join (ROOT_PATH lister) [repo; ty; name])
      with (join2 full_path name) in Hfw.
    destruct (listable files' full_path) eqn:Hl.
    + apply (Hok (directory_entries files' full_path)).
      * by rewrite (list_directory full_path [] (initial lister files')).
      * by apply held_is_listed.
    + destruct (list_directory_raise full_path [] (initial lister files') Hl)
        as (e & He).
      by destruct (Hbad e).
Qed.

Lemma written_blob_is_listed_witness :
  exists results,
    serve (test_app "GET" "/testrepo/data" None [])
          (files_after (test_app "POST" "/testrepo/data/cc0123" None
                                 (encode_utf8 "Some new data."))
                       test_files)
    = listing_response results /\
    In ("cc0123", len (encode_utf8 "Some new data.")) results.
Proof.
  apply (written_blob_is_listed
           (test_app "POST" "/testrepo/data/cc0123" None (encode_utf8 "Some new data."))
           (test_app "GET" "/testrepo/data" None [])
           test_files EmptyString EmptyString "testrepo" "data" "cc0123").
  - reflexivity.
  - reflexivity.
  - reflexivity.
  - reflexivity.
  - reflexivity.
  - reflexivity.
  - reflexivity.
  - discriminate.
  - discriminate.
  - discriminate.
  - discriminate.
  - vm_compute. reflexivity.
  - vm_compute. reflexivity.
Defined.

(** The condition on the name is needed.  The shard of [..x] is [..]: the
    blob is written beside the [data] directory, where the four requests
    for a named blob find it and the listing does not. *)
Example written_beside_data_is_not_listed :
  let files' := files_after (test_app "POST" "/testrepo/data/..x" None
                                      (encode_utf8 "Some new data."))
                            test_files in
  Os.holds files' "/srv/test_backups/testrepo/..x" (encode_utf8 "Some new data.") /\
  status (serve (test_app "HEAD" "/testrepo/data/..x" None []) files') = Some "200 OK" /\
  serve (test_app "GET" "/testrepo/data" None []) files'
  = serve (test_app "GET" "/testrepo/data" None []) test_files.
Proof.
  split; [|split].
  - exists ["srv"; "test_backups"; "testrepo"; "..x"]. split; vm_compute; reflexivity.
  - vm_compute. reflexivity.
  - vm_compute. reflexivity.
Qed.

(** ** Requests in sequence *)

Lemma check_found self files repo ty name data :
  Os.holds files (blob_path (ROOT_PATH self) repo ty name) data ->
  response_of (body self (Get_path_check repo ty name) (initial self files))
  = length_response (len data).
Proof.
  intros H. pose proof (holds_path_exists _ _ _ H) as Hex.
  apply holds_stat in H. unfold blob_path in *.
  cbn [body]. unfold get_path_check_body.
  set (full_path := if String.eqb ty "data" then _ else _) in *.
  unfold bind, os_path_exists, os_stat, os_get, start_response, yield.
  cbn [fs initial value final trace headers_set]. rewrite Hex.
  cbn [fs initial value final trace headers_set]. rewrite H. reflexivity.
Qed.

Lemma config_found self files repo data :
  Os.holds files (os_path_join (ROOT_PATH self) [repo; "config"]) data ->
  response_of (body self (Config_exists repo) (initial self files))
  = length_response (len data).
Proof.
  intros H. pose proof (holds_path_exists _ _ _ H) as Hex.
  apply holds_stat in H.
  cbn [body]. unfold config_exists_body.
  unfold bind, os_path_exists, os_stat, os_get, start_response, yield.
  cbn [fs initial value final trace headers_set]. rewrite Hex.
  cbn [fs initial value final trace headers_set]. rewrite H. reflexivity.
Qed.

(** A [POST] of the body [B] to a blob or to the configuration, followed by
    a [HEAD] of the same path, reports the length of [B]. *)
Theorem write_then_head (writer checker : Application) (files : Os.filesystem)
        (query_w query_c repo ty : string) (name : option string) :
  REQUEST_METHOD (environ writer) = Some "POST" ->
  QUERY_STRING (environ writer) = Some query_w ->
  get_path writer = Ok (Some repo, Some ty, name) ->
  REQUEST_METHOD (environ checker) = Some "HEAD" ->
  QUERY_STRING (environ checker) = Some query_c ->
  get_path checker = Ok (Some repo, Some ty, name) ->
  ROOT_PATH checker = ROOT_PATH writer ->
  (ty <> "config" -> name <> None) ->
  fault (serve writer files) = None ->
  serve checker (files_after writer files)
  = length_response (len (wsgi_input (environ writer))).
Proof.
  intros Hmw Hqw Hpw Hmc Hqc Hpc Hroot Hname Hfault.
  unfold serve, files_after, iterate in *.
  destruct (String.eqb_spec ty "config") as [->|Hty].
  - rewrite (route_post_config writer _ Hqw repo name Hmw Hpw) in *.
    rewrite (route_head_config checker _ Hqc repo name Hmc Hpc).
    apply fault_none_value in Hfault. apply set_config_ok in Hfault.
    apply config_found. by rewrite Hroot.
  - destruct name as [name|]; [|by destruct (Hname Hty)].
    rewrite (route_post_data writer _ Hqw repo ty name Hmw Hpw Hty) in *.
    rewrite (route_head_check checker _ Hqc repo ty name Hmc Hpc Hty).
    apply fault_none_value in Hfault. apply set_path_data_ok in Hfault.
    apply check_found. by rewrite Hroot.
Qed.

Lemma write_then_head_witness :
  serve (test_app "HEAD" "/testrepo/data/cc0123" None [])
        (files_after (test_app "POST" "/testrepo/data/cc0123" None
                               (encode_utf8 "Some new data."))
                     test_files)
  = length_response 14.
Proof.
  apply (write_then_head
           (test_app "POST" "/testrepo/data/cc0123" None (encode_utf8 "Some new data."))
           (test_app "HEAD" "/testrepo/data/cc0123" None [])
           test_files EmptyString EmptyString "testrepo" "data" (Some "cc0123")).
  - reflexivity.
  - reflexivity.
  - reflexivity.
  - reflexivity.
  - reflexivity.
  - reflexivity.
  - reflexivity.
  - discriminate.
  - vm_compute. reflexivity.
Defined.

Lemma delete_blob_outcome self files repo ty name data :
  Os.holds files (blob_path (ROOT_PATH self) repo ty name) data ->
  response_of (body self (Delete_path_data repo ty name) (initial self files))
  = empty_response /\
  Os.path_exists
    (fs (final (body self (Delete_path_data repo ty name) (initial self files))))
    (blob_path (ROOT_PATH self) repo ty name) = false.
Proof.
  intros Hholds. cbn [body].
  destruct (unlink_removes _ _ _ Hholds) as (files' & Hunlink & Hgone).
  apply holds_path_exists in Hholds. unfold blob_path in *.
  unfold delete_path_data_body.
  set (full_path := if String.eqb ty "data" then _ else _) in *.
  erewrite bind_ok; cycle 1.
  { unfold os_path_exists, os_get. cbn [fs initial]. rewrite Hholds. reflexivity. }
  cbn [trace final value app].
  erewrite bind_ok; cycle 1.
  { unfold os_unlink, os_put. cbn [fs initial]. rewrite Hunlink. reflexivity. }
  cbn [trace final value app fs bind start_response yield headers_set].
  split; [reflexivity | exact Hgone].
Qed.

(** A blob that has been written can be deleted, and then it is gone: the
    [DELETE] that follows the [POST] is answered 200 with an empty body;
    after it, [GET] and [HEAD] of the blob are answered 404, and a second
    [DELETE] 500, and none of the three changes anything. *)
Theorem write_then_delete (writer deleter later : Application)
        (files : Os.filesystem) (query_w query_d query_l repo ty name : string) :
  REQUEST_METHOD (environ writer) = Some "POST" ->
  QUERY_STRING (environ writer) = Some query_w ->
  get_path writer = Ok (Some repo, Some ty, Some name) ->
  REQUEST_METHOD (environ deleter) = Some "DELETE" ->
  QUERY_STRING (environ deleter) = Some query_d ->
  get_path deleter = Ok (Some repo, Some ty, Some name) ->
  QUERY_STRING (environ later) = Some query_l ->
  get_path later = Ok (Some repo, Some ty, Some name) ->
  ROOT_PATH deleter = ROOT_PATH writer ->
  ROOT_PATH later = ROOT_PATH writer ->
  ty <> "config" ->
  fault (serve writer files) = None ->
  let written := files_after writer files in
  let deleted := files_after deleter written in
  serve deleter written = empty_response /\
  (REQUEST_METHOD (environ later) = Some "GET" \/
   REQUEST_METHOD (environ later) = Some "HEAD" ->
   serve later deleted = not_found_response "Requested path data does not exist." /\
   files_after later deleted = deleted) /\
  (REQUEST_METHOD (environ later) = Some "DELETE" ->
   serve later deleted = error_response "Path data does not exist." /\
   files_after later deleted = deleted).
Proof.
  intros Hmw Hqw Hpw Hmd Hqd Hpd Hql Hpl Hrootd Hrootl Hty Hfault written deleted.
  subst written deleted. unfold serve, files_after, iterate in *.
  rewrite (route_post_data writer _ Hqw repo ty name Hmw Hpw Hty) in *.
  rewrite (route_delete_data deleter _ Hqd repo ty name Hmd Hpd).
  apply fault_none_value in Hfault. apply set_path_data_ok in Hfault.
  cbn [input initial] in Hfault. rewrite <- Hrootd in Hfault.
  set (written := fs (final (body writer (Set_path_data repo ty name)
                                  (initial writer files)))) in *.
  destruct (delete_blob_outcome deleter written repo ty name _ Hfault)
    as [Hdeleted Hgone].
  set (deleted := fs (final (body deleter (Delete_path_data repo ty name)
                                  (initial deleter written)))) in *.
  rewrite Hrootd, <- Hrootl in Hgone.
  split; [exact Hdeleted|]. split.
  - intros [Hml|Hml].
    + rewrite (route_get_data later _ Hql repo ty name Hml Hpl Hty).
      by apply data_absent.
    + rewrite (route_head_check later _ Hql repo ty name Hml Hpl Hty).
      by apply check_absent.
  - intros Hml. rewrite (route_delete_data later _ Hql repo ty name Hml Hpl).
    by apply delete_data_absent.
Qed.

Lemma write_then_delete_witness :
  let written := files_after (test_app "POST" "/testrepo/data/cc0123" None
                                       (encode_utf8 "Some new data."))
                             test_files in
  let deleted := files_after (test_app "DELETE" "/testrepo/data/cc0123" None [])
                             written in
  serve (test_app "DELETE" "/testrepo/data/cc0123" None []) written = empty_response /\
  serve (test_app "GET" "/testrepo/data/cc0123" None []) deleted
  = not_found_response "Requested path data does not exist.".
Proof.
  destruct (write_then_delete
              (test_app "POST" "/testrepo/data/cc0123" None
                        (encode_utf8 "Some new data."))
              (test_app "DELETE" "/testrepo/data/cc0123" None [])
              (test_app "GET" "/testrepo/data/cc0123" None [])
              test_files EmptyString EmptyString EmptyString
              "testrepo" "data" "cc0123") as (Hdelete & Hread & _).
  - reflexivity.
  - reflexivity.
  - reflexivity.
  - reflexivity.
  - reflexivity.
  - reflexivity.
  - reflexivity.
  - reflexivity.
  - reflexivity.
  - reflexivity.
  - discriminate.
  - vm_compute. reflexivity.
  - split; [exact Hdelete|]. apply Hread. left. reflexivity.
Defined.

(** ** Creating, then deleting *)

Lemma removable_intro files p loc :
  Os.resolve files false p = Ok loc -> loc <> [] ->
  Os.tree files !! loc = Some Os.Dir ->
  removable files p.
Proof.
  intros Hr Hroot Hn. unfold removable, Os.rmtree. rewrite Hr.
  rewrite node_at_nonroot, Hn by done. destruct loc; [done | eauto].
Qed.

Lemma removable_inv files p :
  removable files p ->
  exists loc, Os.resolve files false p = Ok loc /\ loc <> [] /\
              Os.tree files !! loc = Some Os.Dir.
Proof.
  intros (files' & H). unfold Os.rmtree in H.
  destruct (Os.resolve files false p) as [loc|]; [|done].
  exists loc. split; [done|].
  destruct loc as [|a loc]; [by cbn in H|]. split; [done|].
  cbn [Os.node_at] in H. by destruct (Os.tree files !! (a :: loc)) as [[| |]|].
Qed.

Lemma removable_exists files p : removable files p -> Os.path_exists files p = true.
Proof.
  intros H. apply removable_inv in H as (loc & Hr & Hroot & Hn).
  rewrite path_exists_stat. unfold Os.stat, Os.resolve in *.
  destruct p; [done|].
  erewrite walk_follow; [| exact Hr |].
  - by rewrite node_at_nonroot, Hn.
  - intros target. by rewrite node_at_nonroot, Hn.
Qed.

Lemma mkdir_removable files p files' : Os.mkdir files p = Ok files' -> removable files' p.
Proof.
  intros H. apply mkdir_inv in H as (loc & Hr & Hroot & Hnone & ->).
  apply (removable_intro _ _ loc); [|done|].
  - unfold Os.resolve in *. destruct p; [done|]. cbn [Os.tree Os.cwd Os.set_tree].
    apply walk_insert; by auto.
  - cbn [Os.tree Os.set_tree]. apply lookup_insert_eq.
Qed.

Lemma mkdir_keeps_removable files p files' q :
  Os.mkdir files p = Ok files' -> removable files q -> removable files' q.
Proof.
  intros H Hq. apply mkdir_inv in H as (loc & Hr & Hroot & Hnone & ->).
  apply removable_inv in Hq as (l & Hl & Hlroot & Hn).
  apply (removable_intro _ _ l); [|done|].
  - unfold Os.resolve in *. destruct q; [done|]. cbn [Os.tree Os.cwd Os.set_tree].
    apply walk_insert; by auto.
  - cbn [Os.tree Os.set_tree]. rewrite lookup_insert_ne; [done|]. congruence.
Qed.

Lemma make_directories_removable full_path s :
  value (make_directories full_path s) = Ok tt ->
  removable (fs (final (make_directories full_path s))) full_path.
Proof.
  unfold make_directories.
  cbn [for_each RESTIC_TYPES String.eqb Ascii.eqb Bool.eqb negb].
  rewrite os_mkdir_bind.
  destruct (Os.mkdir (fs s) full_path) as [f1|] eqn:H1; [|done].
  cbv zeta. rewrite os_mkdir_bind. cbn [fs input headers_set].
  destruct (Os.mkdir f1 _) as [f2|] eqn:H2; [|done].
  cbv zeta. rewrite os_mkdir_bind. cbn [fs input headers_set].
  destruct (Os.mkdir f2 _) as [f3|] eqn:H3; [|done].
  cbv zeta. rewrite os_mkdir_bind. cbn [fs input headers_set].
  destruct (Os.mkdir f3 _) as [f4|] eqn:H4; [|done].
  cbv zeta. rewrite os_mkdir_bind. cbn [fs input headers_set].
  destruct (Os.mkdir f4 _) as [f5|] eqn:H5; [|done].
  cbv zeta. rewrite os_mkdir_bind. cbn [fs input headers_set].
  destruct (Os.mkdir f5 _) as [f6|] eqn:H6; [|done].
  unfold bind, ret. cbn [trace final value fs input headers_set app].
  intros _.
  apply (mkdir_keeps_removable _ _ _ _ H6), (mkdir_keeps_removable _ _ _ _ H5),
    (mkdir_keeps_removable _ _ _ _ H4), (mkdir_keeps_removable _ _ _ _ H3),
    (mkdir_keeps_removable _ _ _ _ H2), (mkdir_removable _ _ _ H1).
Qed.

Lemma create_new_outcome self files repo :
  Os.path_exists files (os_path_join (ROOT_PATH self) [repo]) = false ->
  fault (response_of (body self (Create_repository (Some repo)) (initial self files)))
  = None ->
  response_of (body self (Create_repository (Some repo)) (initial self files))
  = empty_response /\
  removable (fs (final (body self (Create_repository (Some repo))
                             (initial self files))))
            (os_path_join (ROOT_PATH self) [repo]).
Proof.
  intros Hnew. cbn [body]. unfold create_repository_body.
  pose proof (make_directories_outcome (os_path_join (ROOT_PATH self) [repo])
                (initial self files)) as (Htrace & Hinput & Hset & _).
  pose proof (make_directories_removable (os_path_join (ROOT_PATH self) [repo])
                (initial self files)) as Hrm.
  revert Htrace Hinput Hset Hrm. generalize make_directories. intros mk.
  destruct (mk (os_path_join (ROOT_PATH self) [repo]) (initial self files))
    as [tr fin v] eqn:Hmk.
  cbn [value final trace headers_set initial]. intros -> Hinput Hset Hrm.
  erewrite bind_ok; [|reflexivity].
  erewrite bind_ok; cycle 1.
  { unfold os_path_exists, os_get. cbn [fs initial]. rewrite Hnew. reflexivity. }
  cbn [negb trace final value app].
  destruct v as [[]|e].
  - erewrite bind_ok; cycle 1.
    { unfold try_except. rewrite Hmk. reflexivity. }
    unfold bind, start_response, yield. rewrite Hset.
    cbn [value final trace app fs]. intros _. split; [reflexivity | by apply Hrm].
  - erewrite bind_ok; cycle 1.
    { unfold try_except. rewrite Hmk. cbn [value final trace app].
      unfold send_error. unfold bind, start_response, yield, ret.
      cbn [value final trace app]. rewrite Hset.
      cbn [value final trace app]. reflexivity. }
    unfold bind, start_response. cbn [value final trace app headers_set].
    discriminate.
Qed.

(** A repository that has just been created can be deleted.  When no
    repository was at the path and [POST ?create=true] ends without an
    exception, it is answered 200; the [DELETE] that follows is answered
    200 as well, and after it the path of the repository does not
    exist. *)
Theorem create_then_delete (creator deleter : Application) (files : Os.filesystem)
        (query_c query_d repo : string) :
  REQUEST_METHOD (environ creator) = Some "POST" ->
  QUERY_STRING (environ creator) = Some query_c ->
  str_in "true" (parse_qs_get query_c "create") = true ->
  get_path creator = Ok (Some repo, None, None) ->
  REQUEST_METHOD (environ deleter) = Some "DELETE" ->
  QUERY_STRING (environ deleter) = Some query_d ->
  get_path deleter = Ok (Some repo, None, None) ->
  ROOT_PATH deleter = ROOT_PATH creator ->
  Os.path_exists files (os_path_join (ROOT_PATH creator) [repo]) = false ->
  fault (serve creator files) = None ->
  let created := files_after creator files in
  serve creator files = empty_response /\
  serve deleter created = empty_response /\
  Os.path_exists (files_after deleter created)
                 (os_path_join (ROOT_PATH creator) [repo]) = false.
Proof.
  intros Hmc Hqc Hcreate Hpc Hmd Hqd Hpd Hroot Hnew Hfault created. subst created.
  unfold serve, files_after, iterate in *.
  rewrite (route_post_create creator _ Hqc (Some repo) Hmc Hpc Hcreate) in *.
  rewrite (route_delete_repository deleter _ Hqd repo Hmd Hpd).
  destruct (create_new_outcome creator files repo Hnew Hfault) as [Hcreated Hrm].
  split; [exact Hcreated|].
  set (created := fs (final (body creator (Create_repository (Some repo))
                                  (initial creator files)))) in *.
  destruct Hrm as (deleted & Hrm). rewrite <- Hroot in *.
  pose proof (rmtree_removes _ _ _ Hrm) as Hgone.
  assert (Os.path_exists created (os_path_join (ROOT_PATH deleter) [repo]) = true)
    as Hfound.
  { apply removable_exists. by exists deleted. }
  cbn [body]. unfold delete_repository_body.
  erewrite bind_ok; cycle 1.
  { unfold os_path_exists, os_get. cbn [fs initial]. rewrite Hfound. reflexivity. }
  cbn [trace final value app].
  erewrite bind_ok; cycle 1.
  { unfold shutil_rmtree, os_put. cbn [fs initial]. rewrite Hrm. reflexivity. }
  cbn [trace final value app fs bind start_response yield headers_set].
  split; [reflexivity | exact Hgone].
Qed.

Lemma create_then_delete_witness :
  let creator := application test_root (request "POST" "/newrepo" "create=true" None []) in
  let deleter := test_app "DELETE" "/newrepo" None [] in
  serve creator test_files = empty_response /\
  serve deleter (files_after creator test_files) = empty_response /\
  Os.path_exists (files_after deleter (files_after creator test_files))
                 (os_path_join test_root ["newrepo"]) = false.
Proof.
  apply (create_then_delete
           (application test_root (request "POST" "/newrepo" "create=true" None []))
           (test_app "DELETE" "/newrepo" None [])
           test_files "create=true" EmptyString "newrepo").
  - reflexivity.
  - reflexivity.
  - reflexivity.
  - reflexivity.
  - reflexivity.
  - reflexivity.
  - reflexivity.
  - reflexivity.
  - vm_compute. reflexivity.
  - vm_compute. reflexivity.
Defined.

(** ** Creating without a path *)

(** [POST ?create=true] on a [PATH_INFO] that [PATH_RE] does not match
    reaches [create_repository] with [None] for a path: [os.path.join]
    raises [TypeError] once the generator runs, past the [try] block of
    [__iter__].  Nothing is answered and nothing is changed. *)
Theorem create_without_path_faults (self : Application) (files : Os.filesystem)
        (query_string : string) :
  REQUEST_METHOD (environ self) = Some "POST" ->
  QUERY_STRING (environ self) = Some query_string ->
  str_in "true" (parse_qs_get query_string "create") = true ->
  get_path self = Ok (None, None, None) ->
  serve self files = fault_response TypeError /\ files_after self files = files.
Proof.
  intros Hm Hq Hcreate Hp. unfold serve, files_after, iterate.
  rewrite (route_post_create self _ Hq None Hm Hp Hcreate).
  split; reflexivity.
Qed.

Lemma create_without_path_faults_witness :
  serve (application test_root (request "POST" "/" "create=true" None [])) test_files
  = fault_response TypeError.
Proof.
  destruct (create_without_path_faults
              (application test_root (request "POST" "/" "create=true" None []))
              test_files "create=true") as (H & _).
  - reflexivity.
  - reflexivity.
  - reflexivity.
  - reflexivity.
  - exact H.
Defined.

(** ** Every request is answered, or fails before anything is sent *)

Lemma quiet_ret {A} (a : A) : quiet (ret a).
Proof. by intros s. Qed.

Lemma quiet_raise {A} e : quiet (@raise A e).
Proof. by intros s. Qed.

Lemma quiet_os_get {A} (f : Os.filesystem -> result A) : quiet (os_get f).
Proof. by intros s. Qed.

Lemma quiet_os_put {A} (f : Os.filesystem -> result (A * Os.filesystem)) :
  quiet (os_put f).
Proof. intros s. unfold os_put. by destruct (f (fs s)) as [[a fs']|]. Qed.

Lemma quiet_input_read n : quiet (input_read n).
Proof. by intros s. Qed.

Lemma quiet_input_left : quiet input_left.
Proof. by intros s. Qed.

Lemma quiet_bind {A B} (m : gen A) (f : A -> gen B) :
  quiet m -> (forall a, quiet (f a)) -> quiet (bind m f).
Proof.
  intros Hm Hf s. unfold bind. destruct (Hm s) as [Ht Hs].
  destruct (value (m s)) as [a|e]; cbn [trace final]; [|done].
  destruct (Hf a (final (m s))) as [Ht' Hs']. rewrite Ht, Ht', Hs'. done.
Qed.

Lemma quiet_for_fold {A B} (l : list A) (f : B -> A -> gen B) :
  (forall acc x, quiet (f acc x)) -> forall acc, quiet (for_fold l acc f).
Proof.
  intros Hf. induction l as [|x l IH]; intros acc; cbn [for_fold].
  - apply quiet_ret.
  - apply quiet_bind; [apply Hf | intros acc'; apply IH].
Qed.

Lemma quiet_for_each {A} (l : list A) (f : A -> gen unit) :
  (forall x, quiet (f x)) -> quiet (for_each l f).
Proof.
  intros Hf. induction l as [|x l IH]; cbn [for_each].
  - apply quiet_ret.
  - apply quiet_bind; [apply Hf | intros _; apply IH].
Qed.

Lemma quiet_copy_input bound out_file : quiet (copy_input bound out_file).
Proof.
  induction bound as [|bound IH]; cbn [copy_input].
  - apply quiet_raise.
  - apply quiet_bind; [apply quiet_input_read|]. intros [|b data].
    + apply quiet_ret.
    + apply quiet_bind; [apply quiet_os_put | intros _; apply IH].
Qed.

Ltac quiet :=
  repeat first
    [ apply quiet_ret | apply quiet_raise | apply quiet_os_get | apply quiet_os_put
    | apply quiet_input_read | apply quiet_input_left | apply quiet_copy_input
    | apply quiet_for_fold; intros
    | apply quiet_for_each; intros
    | apply quiet_bind; [|intros]
    | match goal with
      | |- quiet (if ?b then _ else _) => destruct b
      | |- quiet (match ?o with Some _ => _ | None => _ end) => destruct o
      end ].

Lemma start_trace {A} st hs (k : unit -> gen A) s :
  headers_set s = false ->
  exists tr, trace (bind (start_response st hs) k s) = StartResponse st hs :: tr.
Proof.
  intros Hs. unfold bind, start_response. rewrite Hs. cbn [value trace app]. eauto.
Qed.

Lemma responds_start {A} st hs (k : unit -> gen A) :
  In st STATUSES -> responds (bind (start_response st hs) k).
Proof.
  intros Hst s Hs. left. destruct (start_trace st hs k s Hs) as (tr & ->). eauto.
Qed.

Lemma send_error_trace {A} message (k : bytes -> gen A) s :
  headers_set s = false ->
  exists tr, trace (bind (send_error message) k s)
             = StartResponse "500 INTERNAL_SERVER_ERROR" [("Content-Type", "text/plain")]
               :: tr.
Proof.
  intros Hs. unfold send_error. unfold bind, start_response, ret.
  cbn beta. rewrite Hs. cbn [value trace final app]. eauto.
Qed.

Lemma responds_send_error {A} message (k : bytes -> gen A) :
  responds (bind (send_error message) k).
Proof.
  intros s Hs. left. unfold send_error. unfold bind, start_response, ret.
  cbn beta. rewrite Hs.
  cbn [value trace final app]. eexists _, _, _. split; [reflexivity|].
  cbn. tauto.
Qed.

Lemma responds_send_not_found {A} message (k : bytes -> gen A) :
  responds (bind (send_not_found message) k).
Proof.
  intros s Hs. left. unfold send_not_found. unfold bind, start_response, ret.
  cbn beta. rewrite Hs.
  cbn [value trace final app]. eexists _, _, _. split; [reflexivity|].
  cbn. tauto.
Qed.

Lemma responds_bind {A B} (m : gen A) (f : A -> gen B) :
  quiet m -> (forall a, responds (f a)) -> responds (bind m f).
Proof.
  intros Hm Hf s Hs. unfold bind. destruct (Hm s) as [Ht Hs'].
  destruct (value (m s)) as [a|e]; cbn [trace value]; [|right; eauto].
  rewrite Ht. cbn [app]. apply Hf. by rewrite Hs'.
Qed.

Ltac responds :=
  repeat first
    [ apply responds_start; [cbn; tauto]
    | apply responds_send_error
    | apply responds_send_not_found
    | apply responds_bind; [solve [quiet]|intros]
    | match goal with
      | |- responds (if ?b then _ else _) => destruct b
      | |- responds (match ?o with Some _ => _ | None => _ end) => destruct o
      end ].

Lemma responds_yield_error message : responds (yield_error_body message).
Proof. unfold yield_error_body. responds. Qed.

Lemma responds_write_request_body p : responds (write_request_body p).
Proof. unfold write_request_body, open_wb, file_write. responds. Qed.

Lemma quiet_make_directories full_path : quiet (make_directories full_path).
Proof. unfold make_directories, os_mkdir. quiet. Qed.

Lemma bind_trace_prefix {A B} (m : gen A) (f : A -> gen B) s :
  exists tr, trace (bind m f s) = trace (m s) ++ tr.
Proof.
  unfold bind. destruct (value (m s)); cbn [trace]; [eauto|].
  exists []. by rewrite app_nil_r.
Qed.

Lemma responds_create_repository self path :
  responds (create_repository_body self path).
Proof.
  unfold create_repository_body.
  apply responds_bind; [unfold join_opt; quiet | intros full_path].
  apply responds_bind; [unfold os_path_exists; quiet | intros found].
  destruct found; cbn [negb]; [responds|].
  intros s Hs.
  destruct (quiet_make_directories full_path s) as [Ht Hs'].
  rewrite Hs in Hs'.
  destruct (value (make_directories full_path s)) as [[]|e] eqn:Hv.
  - assert (try_except (make_directories full_path)
              (fun _ => message <- send_error "Failed to create repository." ;;
                        yield message) s
            = make_directories full_path s) as Htry
        by (unfold try_except; by rewrite Hv).
    unfold bind at 1. rewrite Htry, Hv, Ht. cbn [trace app]. left.
    destruct (start_trace (http_response 200) [] (fun _ => yield [])
                (final (make_directories full_path s)) Hs') as (tr & ->).
    eexists _, _, _. split; [reflexivity | cbn; tauto].
  - left.
    destruct (bind_trace_prefix
                (try_except (make_directories full_path)
                   (fun _ => message <- send_error "Failed to create repository." ;;
                             yield message))
                (fun _ => start_response (http_response 200) [] ;; yield []) s)
      as (tr & ->).
    unfold try_except. rewrite Hv, Ht. cbn [trace app].
    destruct (send_error_trace "Failed to create repository."
                (fun message => yield message)
                (final (make_directories full_path s)) Hs') as (tr' & ->).
    cbn [app]. eexists _, _, _. split; [reflexivity | cbn; tauto].
Qed.

Lemma responds_body self g : responds (body self g).
Proof.
  destruct g; cbn [body].
  - apply responds_yield_error.
  - apply responds_create_repository.
  - unfold delete_repository_body, os_path_exists, shutil_rmtree. responds.
  - unfold config_exists_body, os_path_exists, os_stat. responds.
  - unfold get_config_body, os_path_exists, os_stat. responds.
  - unfold set_config_body. apply responds_write_request_body.
  - unfold get_path_list_body.
    apply responds_bind; [|intros; responds].
    unfold list_results, list_entry, os_listdir, os_stat. quiet.
  - unfold get_path_check_body, os_path_exists, os_stat. responds.
  - unfold get_path_data_body, os_path_exists, os_stat. responds.
  - unfold set_path_data_body.
    apply responds_bind; [|intros; apply responds_write_request_body].
    unfold os_path_exists, os_mkdir. quiet.
  - unfold delete_path_data_body, os_path_exists, os_unlink. responds.
Qed.

(** Whatever the request and the file system: either the first thing the
    generator does to the response is to call [start_response], with one
    of the statuses 200, 206, 404 and 500; or an exception leaves the
    generator before it has called [start_response] or yielded anything.
    In particular a request that ends without an exception has been
    answered. *)
Theorem answered_or_failed_unsent (self : Application) (files : Os.filesystem) :
  (exists st hs tr,
      trace (iterate self files) = StartResponse st hs :: tr /\
      In st STATUSES /\ status (serve self files) = Some st) \/
  (exists e, serve self files = fault_response e).
Proof.
  unfold serve, iterate.
  destruct (responds_body self (__iter__ self) (initial self files) eq_refl)
    as [(st & hs & tr & Htr & Hst)|(Htr & e & He)].
  - left. exists st, hs, tr. unfold response_of. rewrite Htr. by cbn.
  - right. exists e. unfold response_of, fault_response. by rewrite Htr, He.
Qed.

(** ** System calls that fail *)

(** A [POST] whose target cannot be opened for writing (a repository or a
    type directory that is missing, a target that is a directory) is not
    answered: the exception of [open] leaves the generator before
    [start_response] is called, and nothing is changed.  Stated for the
    configuration and for the types other than [data], whose handlers make
    no directory. *)
Theorem write_failure_is_not_answered (self : Application) (files : Os.filesystem)
        (query_string repo ty : string) (name : option string) (e : exn) :
  REQUEST_METHOD (environ self) = Some "POST" ->
  QUERY_STRING (environ self) = Some query_string ->
  get_path self = Ok (Some repo, Some ty, name) ->
  ty <> "data" ->
  (ty <> "config" -> name <> None) ->
  Os.open_wb files
    (match name with
     | Some name => if String.eqb ty "config"
                    then os_path_join (ROOT_PATH self) [repo; "config"]
                    else os_path_join (ROOT_PATH self) [repo; ty; name]
     | None => os_path_join (ROOT_PATH self) [repo; "config"]
     end) = Raise e ->
  serve self files = fault_response e /\ files_after self files = files.
Proof.
  intros Hm Hq Hp Hdata Hname Hopen. unfold serve, files_after, iterate.
  assert (forall p, Os.open_wb files p = Raise e ->
                    write_request_body p (initial self files)
                    = {| trace := []; final := initial self files; value := Raise e |})
    as Hwrite.
  { intros p Hp'. unfold write_request_body.
    erewrite bind_raise; [reflexivity|].
    unfold open_wb, os_put. cbn [fs initial]. by rewrite Hp'. }
  destruct (String.eqb_spec ty "config") as [->|Hty].
  - rewrite (route_post_config self _ Hq repo name Hm Hp). cbn [body].
    unfold set_config_body. rewrite Hwrite; [by split|].
    by destruct name.
  - destruct name as [name|]; [|by destruct (Hname Hty)].
    rewrite (route_post_data self _ Hq repo ty name Hm Hp Hty). cbn [body].
    unfold set_path_data_body. apply String.eqb_neq in Hdata. rewrite Hdata.
    erewrite bind_ok; [|reflexivity].
    rewrite Hwrite by exact Hopen. by split.
Qed.

Lemma write_failure_is_not_answered_witness :
  serve (test_app "POST" "/norepo/config" None (encode_utf8 "abc")) test_files
  = fault_response FileNotFoundError.
Proof.
  destruct (write_failure_is_not_answered
              (test_app "POST" "/norepo/config" None (encode_utf8 "abc")) test_files
              EmptyString "norepo" "config" None FileNotFoundError) as (H & _).
  - reflexivity.
  - reflexivity.
  - reflexivity.
  - discriminate.
  - intros H. by destruct H.
  - vm_compute. reflexivity.
  - exact H.
Defined.





(** ** The paths of the API *)

(** What follows the path in [PATH_RE], at the end of the text. *)
Lemma run_tail_empty pos caps :
  Re.run (Opt (Lit "/") +>
          Opt (Group "type" (Lit "data" <| Lit "keys" <| Lit "locks" <|
                             Lit "snapshots" <| Lit "index" <| Lit "config")) +>
          Opt (Lit "/") +> Opt (Group "name" (PlusCls not_slash)) +>
          Opt (Lit "/") +> Eol)%re pos EmptyString caps (fun _ _ caps' => Some caps')
  = Some caps.
Proof. reflexivity. Qed.

(** The type and what follows it, on a token that ends the text or is
    followed by a slash and a name. *)
Lemma run_type_token pos ty caps (tail : option string) :
  In ty RESTIC_TYPES ->
  match tail with Some name => segment name | None => True end ->
  Re.run (Opt (Group "type" (Lit "data" <| Lit "keys" <| Lit "locks" <|
                             Lit "snapshots" <| Lit "index" <| Lit "config")) +>
          Opt (Lit "/") +> Opt (Group "name" (PlusCls not_slash)) +>
          Opt (Lit "/") +> Eol)%re pos
         (ty +:+ match tail with Some name => "/" +:+ name | None => EmptyString end)
         caps (fun _ _ caps' => Some caps')
  = Some (match tail with
          | Some name => [("name", name); ("type", ty)]
          | None => [("type", ty)]
          end ++ caps).
Proof.
  intros Hty Htail. seq_step. apply run_opt_taken.
  set (rest := match tail with Some name => "/" +:+ name | None => EmptyString end).
  assert (Hrest : forall pos' caps',
             Re.run (Opt (Lit "/") +> Opt (Group "name" (PlusCls not_slash)) +>
                     Opt (Lit "/") +> Eol)%re pos' rest
                    caps' (fun _ _ caps'' => Some caps'')
             = Some (match tail with
                     | Some name => [("name", name)]
                     | None => []
                     end ++ caps')).
  { intros pos' caps'. subst rest. destruct tail as [name|]; [|reflexivity].
    seq_step. apply run_opt_taken. rewrite run_lit_hit by done.
    cbn [String.length Str.drop String.append].
    seq_step. apply run_opt_taken.
    destruct Htail as [Hall Hne].
    rewrite <- (append_empty name) at 1.
    apply run_group_plus; try done. }
  clearbody rest.
  assert (Hhit :
            Re.run (Group "type" (Lit ty)) pos (ty +:+ rest) caps
              (fun pos' s' caps' =>
                 Re.run (Opt (Lit "/") +> Opt (Group "name" (PlusCls not_slash)) +>
                         Opt (Lit "/") +> Eol)%re pos' s' caps'
                   (fun _ _ caps'' => Some caps''))
            = Some (match tail with
                    | Some name => [("name", name); ("type", ty)]
                    | None => [("type", ty)]
                    end ++ caps)).
  { change (Re.run (Group ?n ?r) pos ?b caps ?k)
      with (Re.run r pos b caps
              (fun pos' s' caps' =>
                 k pos' s' ((n, Str.take (pos' - pos) b) :: caps'))).
    rewrite run_lit_hit by apply startswith_app.
    rewrite str_drop_app_length, Hrest, take_token by apply startswith_app.
    by destruct tail. }
  cbn [RESTIC_TYPES In] in Hty.
  destruct Hty as [<-|[<-|[<-|[<-|[<-|[<-|[]]]]]]];
    match goal with
    | |- context [Re.run _ pos (?t +:+ rest) _ _] =>
        assert (Str.startswith "data" (t +:+ rest) = Str.startswith "data" t) as E1
          by reflexivity;
        assert (Str.startswith "keys" (t +:+ rest) = Str.startswith "keys" t) as E2
          by reflexivity;
        assert (Str.startswith "locks" (t +:+ rest) = Str.startswith "locks" t) as E3
          by reflexivity;
        assert (Str.startswith "snapshots" (t +:+ rest)
                = Str.startswith "snapshots" t) as E4 by reflexivity;
        assert (Str.startswith "index" (t +:+ rest) = Str.startswith "index" t) as E5
          by reflexivity;
        assert (Str.startswith "config" (t +:+ rest) = Str.startswith "config" t) as E6
          by reflexivity;
        vm_compute (Str.startswith _ t) in E1, E2, E3, E4, E5, E6;
        generalize dependent (t +:+ rest)
    end;
    intros b Hhit E1 E2 E3 E4 E5 E6;
    change (Re.run (Group ?n ?r) pos b caps ?k)
      with (Re.run r pos b caps
              (fun pos' s' caps' =>
                 k pos' s' ((n, Str.take (pos' - pos) b) :: caps'))) in Hhit |- *;
    repeat (rewrite run_alt_lit_miss by assumption);
    first [exact Hhit | apply run_alt_first; exact Hhit].
Qed.

Lemma rmatch_canonical repo ty (tail : option string) :
  segment repo -> In ty RESTIC_TYPES ->
  match tail with Some name => segment name | None => True end ->
  rmatch PATH_RE ("/" +:+ repo) = Some [("path", repo)] /\
  rmatch PATH_RE ("/" +:+ repo +:+ "/" +:+ ty +:+
                  match tail with Some name => "/" +:+ name | None => EmptyString end)
  = Some (match tail with
          | Some name => [("name", name); ("type", ty); ("path", repo)]
          | None => [("type", ty); ("path", repo)]
          end).
Proof.
  intros [Hrepo Hne] Hty Htail. unfold rmatch, PATH_RE. split.
  - seq_step.
    change (Re.run Bol 0 ?s ?caps ?k) with (k 0%nat s caps). cbv beta.
    seq_step. apply run_opt_taken. rewrite run_lit_hit by done.
    cbn [String.length Str.drop String.append Nat.add].
    seq_step. rewrite <- (append_empty repo) at 1.
    apply run_group_plus; try done.
  - seq_step.
    change (Re.run Bol 0 ?s ?caps ?k) with (k 0%nat s caps). cbv beta.
    seq_step. apply run_opt_taken. rewrite run_lit_hit by done.
    cbn [String.length Str.drop String.append Nat.add].
    seq_step. apply run_group_plus; try done.
    seq_step. apply run_opt_taken. rewrite run_lit_hit by done.
    cbn [String.length Str.drop String.append].
    rewrite run_type_token by done.
    by destruct tail.
Qed.

(** The three paths of the API parse as written: [/{path}] gives the path
    alone, [/{path}/{type}] the path and the type, and
    [/{path}/{type}/{name}] all three, for every path and name that are
    segments and every type of [RESTIC_TYPES]. *)
Theorem get_path_canonical (self : Application) (repo ty name : string) :
  segment repo -> In ty RESTIC_TYPES -> segment name ->
  (PATH_INFO (environ self) = Some ("/" +:+ repo) ->
   get_path self = Ok (Some repo, None, None)) /\
  (PATH_INFO (environ self) = Some ("/" +:+ repo +:+ "/" +:+ ty) ->
   get_path self = Ok (Some repo, Some ty, None)) /\
  (PATH_INFO (environ self) = Some ("/" +:+ repo +:+ "/" +:+ ty +:+ "/" +:+ name) ->
   get_path self = Ok (Some repo, Some ty, Some name)).
Proof.
  intros Hrepo Hty Hname. unfold get_path.
  destruct (rmatch_canonical repo ty None Hrepo Hty I) as [Hone Htwo].
  destruct (rmatch_canonical repo ty (Some name) Hrepo Hty Hname) as [_ Hthree].
  rewrite append_empty in Htwo.
  split; [|split]; intros ->; cbn [getitem].
  - by rewrite Hone.
  - by rewrite Htwo.
  - by rewrite Hthree.
Qed.

Lemma get_path_canonical_witness :
  get_path (test_app "GET" "/testrepo/keys/aa000000000" None [])
  = Ok (Some "testrepo", Some "keys", Some "aa000000000").
Proof.
  destruct (get_path_canonical (test_app "GET" "/testrepo/keys/aa000000000" None [])
              "testrepo" "keys" "aa000000000") as (_ & _ & H).
  - by split.
  - cbn. tauto.
  - by split.
  - apply H. reflexivity.
Defined.
